(** * Colorado Habitat Exchange HQT: the disturbance and habitat-quality engine

    A shallow embedding of the raster modelling core of [cohqt.py] and
    [hqtlib.py], with the two call sites of [CreditTool_2.py] and
    [DebitTool_2.py] that combine the mule-deer context surfaces.

    Conventions of the embedding.
    - A raster is a total map from grid cells to [option R]: [None] is NoData.
      Cell arithmetic done by the raster engine is idealised over the real
      numbers; every local operation yields NoData where an operand is NoData.
    - The geoprocessing workspace (named raster datasets, zonal tables, the
      message log) is threaded explicitly through a state monad that can
      raise Python exceptions; the state reached when an exception is raised
      is kept, as a [try]/[except] sees it.
    - The arithmetic of [calcDebits] is Python's own, on attribute values
      read through a cursor: it is modelled on binary64 primitive floats.
    - All rasters live on one grid (the snap raster and the analysis extent
      are shared); the extent is the list of cells a distance transform
      looks for sources in. Clearing the [in_memory] workspace and drawing
      layers on the map have no counterpart here.

    The file has the embedding first ([MapAlgebra], [Workspace], [Cohqt],
    [Hqtlib], [Tools]), then the vocabulary of the statements ([Spec]) and
    sample data, then the properties. *)

From Stdlib Require Import Reals Lra Lia ZArith List String Bool Permutation.
From Stdlib Require Floats.PrimFloat Floats.SpecFloat Floats.FloatOps.
Import ListNotations.

Local Open Scope R_scope.

(** ** Map algebra: the [arcpy.sa] operations the tool uses *)

Module MapAlgebra.

Definition cell : Type := (Z * Z)%type.

Definition raster : Type := cell -> option R.

(** A Python scalar used as a map-algebra operand. *)
Definition const (v : R) : raster := fun _ => Some v.

(** [None] passed where a raster is optional: no value anywhere. *)
Definition NoData : raster := fun _ => None.

Definition has_data (o : option R) : bool :=
  match o with Some _ => true | None => false end.

Definition Reqb (x y : R) : bool := if Req_dec_T x y then true else false.

Definition Rltb (x y : R) : bool := if Rlt_dec x y then true else false.

Definition Rleb (x y : R) : bool := if Rle_dec x y then true else false.

Definition bit (b : bool) : R := if b then 1 else 0.

Definition local1 (f : R -> R) (a : raster) : raster :=
  fun c => option_map f (a c).

Definition local2 (f : R -> R -> option R) (a b : raster) : raster :=
  fun c =>
    match a c, b c with
    | Some x, Some y => f x y
    | _, _ => None
    end.

Definition Plus : raster -> raster -> raster :=
  local2 (fun x y => Some (x + y)).

Definition Minus : raster -> raster -> raster :=
  local2 (fun x y => Some (x - y)).

Definition Times : raster -> raster -> raster :=
  local2 (fun x y => Some (x * y)).

(** Division by a zero cell gives NoData. *)
Definition Divide : raster -> raster -> raster :=
  local2 (fun x y => if Reqb y 0 then None else Some (x / y)).

Definition Exp : raster -> raster := local1 exp.

Definition EqualTo : raster -> raster -> raster :=
  local2 (fun x y => Some (bit (Reqb x y))).

Definition LessThan : raster -> raster -> raster :=
  local2 (fun x y => Some (bit (Rltb x y))).

Definition IsNull (a : raster) : raster :=
  fun c => match a c with None => Some 1 | Some _ => Some 0 end.

(** [Con(cond, t, f)]: non-zero cells of [cond] take [t], zero cells take
    [f], NoData cells of [cond] stay NoData. *)
Definition Con (cond t f : raster) : raster :=
  fun c =>
    match cond c with
    | None => None
    | Some v => if Reqb v 0 then f c else t c
    end.

(** [Con(in, t, f, where_clause)]: the clause is evaluated on the cell value
    of [in]. *)
Definition Con_where (inRaster t f : raster) (where_clause : R -> bool)
  : raster :=
  fun c =>
    match inRaster c with
    | None => None
    | Some v => if where_clause v then t c else f c
    end.

(** The clause ["VALUE = k"]. *)
Definition VALUE_eq (k : R) : R -> bool := fun v => Reqb v k.

(** [CellStatistics(rasters, "MINIMUM")] with the default ["DATA"]: NoData
    operands are ignored, a cell is NoData only when every operand is. *)
Definition min_data (a b : option R) : option R :=
  match a, b with
  | Some x, Some y => Some (Rmin x y)
  | Some x, None => Some x
  | None, o => o
  end.

Definition CellStatistics_MINIMUM (rasters : list raster) : raster :=
  fun c => fold_right (fun r acc => min_data (r c) acc) None rasters.

(** [np.prod(np.array(arrays))]: a left-to-right reduction with the [*] of
    the operands; the empty product is the scalar 1. *)
Definition np_prod_of {A : Type} (times : A -> A -> A) (one : A)
  (arrays : list A) : A :=
  match arrays with
  | [] => one
  | r :: rs => fold_left times rs r
  end.

(** On rasters [*] is [Times], taken here with exact cell values: the
    rounding of the engine's cell format is not part of [Times] and [Plus],
    and properties that depend on it are stated with a rounding of their
    own. *)
Definition np_prod (rasters : list raster) : raster :=
  np_prod_of Times (const 1) rasters.

(** Distance between the centres of two cells of a grid of cell size [cs]. *)
Definition cell_dist (cs : R) (p q : cell) : R :=
  cs * sqrt (IZR ((fst p - fst q) * (fst p - fst q)
                  + (snd p - snd q) * (snd p - snd q))).

Fixpoint nearest_dist (cs : R) (p : cell) (srcs : list cell) : option R :=
  match srcs with
  | [] => None
  | s :: rest =>
      match nearest_dist cs p rest with
      | None => Some (cell_dist cs p s)
      | Some m => Some (Rmin (cell_dist cs p s) m)
      end
  end.

(** The source cells of a distance transform: the cells of the analysis
    extent that hold a value. *)
Definition sources (extent : list cell) (a : raster) : list cell :=
  filter (fun c => has_data (a c)) extent.

(** [EucDistance(in, maximum_distance, cell_size)]: distance to the closest
    source cell; cells farther than the maximum get NoData. *)
Definition EucDistance (extent : list cell) (a : raster) (maxd cs : R)
  : raster :=
  fun p =>
    match nearest_dist cs p (sources extent a) with
    | None => None
    | Some d => if Rleb d maxd then Some d else None
    end.

(** [Resample_management(in, out, size, "NEAREST")]: every output cell takes
    the value of one input cell, the one [nearest] names. *)
Definition Resample_NEAREST (nearest : cell -> cell) (a : raster) : raster :=
  fun c => a (nearest c).

(** [SetNull(in, f, where_clause)]: NoData where the clause holds, the
    false raster elsewhere; NoData cells of [in] stay NoData. *)
Definition SetNull_where (inRaster f : raster) (where_clause : R -> bool)
  : raster :=
  fun c =>
    match inRaster c with
    | None => None
    | Some v => if where_clause v then None else f c
    end.

(** [CellStatistics(rasters, "MEAN", "DATA")]: the mean of the operands that
    hold a value; NoData only when none does. *)
Definition CellStatistics_MEAN (rasters : list raster) : raster :=
  fun c =>
    match flat_map (fun r => match r c with Some v => [v] | None => [] end)
                   rasters with
    | [] => None
    | vs => Some (fold_right Rplus 0 vs / INR (List.length vs))
    end.

End MapAlgebra.

Import MapAlgebra.

(** ** The workspace and the monad of geoprocessing scripts *)

Module Workspace.

Inductive exn : Type :=
| ExecuteError
| KeyError
| IndexError
| RuntimeError
| TypeError
| UnboundLocalError.

Inductive outcome (A : Type) : Type :=
| Return (a : A)
| Raise (e : exn).

Arguments Return {A} a.
Arguments Raise {A} e.

(** A zonal statistics table: one row per zone, the zone value and MEAN. *)
Definition zonal_table : Type := list (Z * R).

(** The attribute row of a feature: DOUBLE fields by name; [None] is a null
    value. Attribute values reach Python as binary64 floats. *)
Definition feature_row : Type := list (string * option PrimFloat.float).

Record workspace : Type := mkWorkspace {
  rasters : list (string * raster);
  tables : list (string * zonal_table);
  feature_classes : list (string * list feature_row);
  messages : list string
}.

Definition M (A : Type) : Type := workspace -> outcome A * workspace.

Definition ret {A} (a : A) : M A := fun ws => (Return a, ws).

Definition bind {A B} (m : M A) (k : A -> M B) : M B :=
  fun ws =>
    match m ws with
    | (Return a, ws') => k a ws'
    | (Raise e, ws') => (Raise e, ws')
    end.

Definition raise {A} (e : exn) : M A := fun ws => (Raise e, ws).

(** [try: m except arcpy.ExecuteError: h] *)
Definition try_except_ExecuteError {A} (m : M A) (h : M A) : M A :=
  fun ws =>
    match m ws with
    | (Raise ExecuteError, ws') => h ws'
    | r => r
    end.

Fixpoint assoc {V} (k : string) (l : list (string * V)) : option V :=
  match l with
  | [] => None
  | (k', v) :: t => if String.eqb k k' then Some v else assoc k t
  end.

Fixpoint remove_key {V} (k : string) (l : list (string * V))
  : list (string * V) :=
  match l with
  | [] => []
  | (k', v) :: t =>
      if String.eqb k k' then remove_key k t else (k', v) :: remove_key k t
  end.

(** Binding a name to a value, replacing what the name held. *)
Definition put {V} (k : string) (v : V) (l : list (string * V))
  : list (string * V) :=
  (k, v) :: remove_key k l.

(** [Raster(name)]: open a named raster dataset. *)
Definition Raster (name : string) : M raster :=
  fun ws =>
    match assoc name (rasters ws) with
    | Some r => (Return r, ws)
    | None => (Raise RuntimeError, ws)
    end.

(** [r.save(name)], with [overwriteOutput] set. *)
Definition save (r : raster) (name : string) : M unit :=
  fun ws =>
    (Return tt,
     mkWorkspace (put name r (rasters ws)) (tables ws)
                 (feature_classes ws) (messages ws)).

Definition save_table (t : zonal_table) (name : string) : M unit :=
  fun ws =>
    (Return tt,
     mkWorkspace (rasters ws) (put name t (tables ws))
                 (feature_classes ws) (messages ws)).

(** [arcpy.Delete_management(name)] of a raster dataset. *)
Definition Delete_management (name : string) : M unit :=
  fun ws =>
    (Return tt,
     mkWorkspace (remove_key name (rasters ws)) (tables ws)
                 (feature_classes ws) (messages ws)).

Definition AddMessage (msg : string) : M unit :=
  fun ws =>
    (Return tt,
     mkWorkspace (rasters ws) (tables ws) (feature_classes ws)
                 (messages ws ++ [msg])).

(** Reading and writing the rows of a feature class. *)
Definition get_rows (name : string) : M (list feature_row) :=
  fun ws =>
    match assoc name (feature_classes ws) with
    | Some rows => (Return rows, ws)
    | None => (Raise RuntimeError, ws)
    end.

Definition put_rows (name : string) (rows : list feature_row) : M unit :=
  fun ws =>
    (Return tt,
     mkWorkspace (rasters ws) (tables ws)
                 (put name rows (feature_classes ws)) (messages ws)).

(** A [for] loop that threads a Python local through its body. *)
Fixpoint for_each {A S} (body : A -> S -> M S) (l : list A) (acc : S)
  : M S :=
  match l with
  | [] => ret acc
  | x :: xs => bind (body x acc) (for_each body xs)
  end.

End Workspace.

Import Workspace.

Notation "x <- m ;; k" := (bind m (fun x => k))
  (at level 61, m at next level, right associativity).
Notation "m ;;; k" := (bind m (fun _ => k))
  (at level 61, right associativity).

Declare Scope raster_scope.
Delimit Scope raster_scope with ras.
Infix "+" := Plus : raster_scope.
Infix "-" := Minus : raster_scope.
Infix "*" := Times : raster_scope.
Infix "/" := Divide : raster_scope.
Infix "==" := EqualTo (at level 70, no associativity) : raster_scope.
Infix "<" := LessThan : raster_scope.

Local Open Scope string_scope.

(** ** [cohqt.py] *)

Module Cohqt.

(** One row of the Parameter Values table: the two text fields and the
    numeric fields by name. *)
Record ParameterRow : Type := mkParameterRow {
  row_Type : string;
  row_Subtype : string;
  row_fields : list (string * R)
}.

(** The part of [cheStandard] the engine reads: two data directories; the
    raster properties open a dataset each time they are read. *)
Record cheStandard : Type := mkStandard {
  InputDataPath : string;
  AnthroFeaturePath : string
}.

Definition os_path_join (a b : string) : string := a ++ "/" ++ b.

Definition AgricultureIndex (che : cheStandard) : M raster :=
  Raster (os_path_join (InputDataPath che) "GrSG_Ag_Index").

Definition Lakes (che : cheStandard) : M raster :=
  Raster (os_path_join (InputDataPath che) "Lakes").

Definition LekPresenceRaster (che : cheStandard) : M raster :=
  Raster (os_path_join (InputDataPath che) "GrSG_LekRaster").

Definition LekDistanceModifier (che : cheStandard) : M raster :=
  Raster (os_path_join (InputDataPath che) "GrSG_Lek_Distance_Modifier").

(** The property reads [_lek_distance_modifier], as [LekDistanceModifier]
    does. *)
Definition SageModifier (che : cheStandard) : M raster :=
  Raster (os_path_join (InputDataPath che) "GrSG_Lek_Distance_Modifier").

(** [[row[0] for row in arcpy.da.SearchCursor(table, field)]] on a numeric
    field; a row without the field raises. *)
Fixpoint SearchCursor_field (table : list ParameterRow) (field : string)
  : M (list R) :=
  match table with
  | [] => ret []
  | row :: rest =>
      match assoc field (row_fields row) with
      | None => raise RuntimeError
      | Some v => vs <- SearchCursor_field rest field ;; ret (v :: vs)
      end
  end.

(** [dict(list(zip(keys, values)))]: a later pair replaces an earlier one
    with the same key. *)
Definition dict : Type := list (string * R).

Definition dict_of_zip (keys : list string) (values : list R) : dict :=
  fold_left (fun d kv => (fst kv, snd kv) :: remove_key (fst kv) d)
            (combine keys values) [].

(** [d[key]] *)
Definition dict_get (d : dict) (key : string) : M R :=
  match assoc key d with
  | Some v => ret v
  | None => raise KeyError
  end.

Definition mem (s : string) (l : list string) : bool :=
  existsb (String.eqb s) l.

(** [makeUnique]: the types in order of first appearance, ["N/A"] left out. *)
Definition makeUnique (typeList : list string) : list string :=
  fold_left
    (fun uniqueTypes anthroType =>
       if negb (mem anthroType uniqueTypes)
       then if negb (anthroType =? "N/A")
            then (uniqueTypes ++ [anthroType])%list
            else uniqueTypes
       else uniqueTypes)
    typeList [].

(** [getUniqueSubtypes]: the subtypes at the positions where [typeList]
    holds [uniqueType]; a position past the end of [subtypeList] raises. *)
Fixpoint getUniqueSubtypes (uniqueType : string) (typeList subtypeList : list string)
  : M (list string) :=
  match typeList with
  | [] => ret []
  | t :: ts =>
      if t =? uniqueType then
        match subtypeList with
        | [] => raise IndexError
        | subtype :: ss =>
            rest <- getUniqueSubtypes uniqueType ts ss ;; ret (subtype :: rest)
        end
      else getUniqueSubtypes uniqueType ts (tl subtypeList)
  end.

(** The value [sigmoidal] gives a cell at distance [x] from the nearest
    feature: [100 - (1/(1 + exp(((x/(distance/2)) - 1)*5))) * weight]. *)
Definition decay_value (distance weight x : R) : R :=
  (100 - (1 / (1 + exp (((x / (distance / 2)) - 1) * 5))) * weight)%R.

Section Closure.

(** What the nested functions of [CalcAnthroDisturbance] capture. *)
Variable extent : list cell.
Variable che : cheStandard.
Variable dist_field : string.
Variable cellSize : R.
Variable distanceDict : dict.
Variable weightDict : dict.

(** The sigmoid decay surface of one subtype. *)
Definition sigmoidal (outEucDist : raster) (distance weight : R) : raster :=
  (const 100
   - (const 1
      / (const 1
         + Exp (((outEucDist / const (distance / 2)) - const 1) * const 5)))
     * const weight)%ras.

Definition calcSubtypeDisturbance
  (AnthroFeatures subtype AnthroDisturbanceType : string)
  : M (option raster) :=
  distance <- dict_get distanceDict subtype ;;
  weight <- dict_get weightDict subtype ;;
  AnthroFeatures' <- Raster AnthroFeatures ;;
  if Rltb 0 distance then
    AddMessage ("  Calculating direct and indirect effects of " ++ subtype) ;;;
    let outEucDist := EucDistance extent AnthroFeatures' distance cellSize in
    let tmp1 := sigmoidal outEucDist distance weight in
    let tmp2 := Con (IsNull tmp1) (const 100) tmp1 in
    let subtypeRaster := tmp2 in
    save subtypeRaster
         (AnthroDisturbanceType ++ "_" ++ subtype ++ "_Subtype_Disturbance") ;;;
    ret (Some subtypeRaster)
  else if Rltb 0 weight then
    AddMessage ("  Calculating direct effects of " ++ subtype) ;;;
    let tmp3 := Con (IsNull AnthroFeatures') (const 0) AnthroFeatures' in
    let subtypeRaster := (const 100 - (tmp3 * const weight))%ras in
    save subtypeRaster
         (AnthroDisturbanceType ++ "_" ++ subtype ++ "_Subtype_Disturbance") ;;;
    ret (Some subtypeRaster)
  else ret None.

Definition calcTypeDisturbance
  (anthroType : string) (subtypeRasters : list raster)
  (AnthroDisturbanceType : string) : M raster :=
  AddMessage ("   Combining effects of " ++ anthroType ++ " features") ;;;
  let typeRaster100 := CellStatistics_MINIMUM subtypeRasters in
  let typeRaster := (typeRaster100 / const 100)%ras in
  save typeRaster
       (AnthroDisturbanceType ++ "_" ++ anthroType ++ "_Type_Disturbance") ;;;
  ret typeRaster.

(** The list [multiplyRasters] hands to [np.prod] for the Pre and Post
    terms. *)
Definition rasterList2 {A : Type} (rasterList : list A)
  (Agriculture_Index Lakes : A) : list A :=
  if dist_field =? "GrSG_Dist"
  then (rasterList ++ [Agriculture_Index; Lakes])%list
  else (rasterList ++ [Lakes])%list.

Definition multiplyRasters (rasterList : list raster)
  (AnthroDisturbanceType : string) (emptyRaster : raster) : M raster :=
  Agriculture_Index <- AgricultureIndex che ;;
  Lakes <- Lakes che ;;
  if (AnthroDisturbanceType =? "Pre") || (AnthroDisturbanceType =? "Post")
  then ret (np_prod (rasterList2 rasterList Agriculture_Index Lakes))
  else if AnthroDisturbanceType =? "LekDisturbanceModifier"
  then ret (np_prod (rasterList ++ [emptyRaster])%list)
  else raise UnboundLocalError.

End Closure.

Section CalcAnthroDisturbance.

Variable extent : list cell.

(** Whether [CalculateStatistics_management] fails on a raster (it does on
    one without a valid cell); the tool is the raster engine's. *)
Variable statistics_fail : raster -> bool.

Definition CalculateStatistics_management (name : string) : M unit :=
  r <- Raster name ;;
  if statistics_fail r then raise ExecuteError else ret tt.

(** Which feature raster a subtype is read from, by the kind of surface
    being built; [None] when the subtype takes no part. *)
Definition selectAnthroFeatures (che : cheStandard)
  (unique_proposed_subtypes : list string)
  (anthro_disturbance_type subtype : string) : M (option string) :=
  let anthro_path := AnthroFeaturePath che in
  if anthro_disturbance_type =? "Pre" then
    ret (Some (os_path_join anthro_path subtype))
  else if anthro_disturbance_type =? "Post" then
    if mem subtype unique_proposed_subtypes
    then ret (Some ("Post_" ++ subtype))
    else ret (Some (os_path_join anthro_path subtype))
  else if anthro_disturbance_type =? "LekDisturbanceModifier" then
    if mem subtype unique_proposed_subtypes
    then ret (Some ("Proposed_" ++ subtype))
    else ret None
  else raise UnboundLocalError.

(** The body of the loop over the subtypes of one type. *)
Definition subtypeStep (che : cheStandard) (term : string)
  (unique_proposed_subtypes : list string) (anthro_disturbance_type : string)
  (cellSize : R) (distanceDict weightDict : dict) (mask : option raster)
  (subtype : string) (subtypeRasters : list raster) : M (list raster) :=
  AnthroFeatures <- selectAnthroFeatures che unique_proposed_subtypes
                      anthro_disturbance_type subtype ;;
  match AnthroFeatures with
  | None => ret subtypeRasters
  | Some AnthroFeatures =>
      subtypeRaster <-
        match mask with
        | Some mask =>
            features <- Raster AnthroFeatures ;;
            let AnthroFeatures2 :=
              Con (mask == const 0)%ras features NoData in
            save AnthroFeatures2 "temp_masked_raster" ;;;
            try_except_ExecuteError
              (CalculateStatistics_management "temp_masked_raster" ;;;
               calcSubtypeDisturbance extent cellSize distanceDict weightDict
                 "temp_masked_raster" subtype term)
              (ret None)
        | None =>
            calcSubtypeDisturbance extent cellSize distanceDict weightDict
              AnthroFeatures subtype term
        end ;;
      match subtypeRaster with
      | Some subtypeRaster => ret (subtypeRasters ++ [subtypeRaster])%list
      | None => ret subtypeRasters
      end
  end.

(** The body of the loop over the unique types. *)
Definition typeStep (che : cheStandard) (term : string)
  (unique_proposed_subtypes : list string) (anthro_disturbance_type : string)
  (cellSize : R) (distanceDict weightDict : dict)
  (mask : option raster) (typeList subtypeList : list string)
  (anthroType : string) (rasterList : list raster) : M (list raster) :=
  AddMessage (" Evaluating " ++ term ++ " " ++ anthroType
              ++ " Indirect Disturbance") ;;;
  uniqueSubtypeList <- getUniqueSubtypes anthroType typeList subtypeList ;;
  subtypeRasters <-
    for_each (subtypeStep che term unique_proposed_subtypes
                anthro_disturbance_type cellSize
                distanceDict weightDict mask)
             uniqueSubtypeList [] ;;
  if (0 <? List.length subtypeRasters)%nat then
    typeRaster <- calcTypeDisturbance anthroType subtypeRasters term ;;
    ret (rasterList ++ [typeRaster])%list
  else ret rasterList.

(** The list of Type surfaces [CalcAnthroDisturbance] has built when it
    calls [multiplyRasters]. *)
Definition typeRasters (Parameter_Values : list ParameterRow)
  (term : string) (unique_proposed_subtypes : list string)
  (anthro_disturbance_type : string) (che : cheStandard)
  (dist_field weight_field : string) (cellSize : R)
  (mask : option raster) : M (list raster) :=
  let typeList := map row_Type Parameter_Values in
  let subtypeList := map row_Subtype Parameter_Values in
  distanceList <- SearchCursor_field Parameter_Values dist_field ;;
  weightList <- SearchCursor_field Parameter_Values weight_field ;;
  let distanceDict := dict_of_zip subtypeList distanceList in
  let weightDict := dict_of_zip subtypeList weightList in
  let uniqueTypes := makeUnique typeList in
  for_each (typeStep che term unique_proposed_subtypes
              anthro_disturbance_type cellSize
              distanceDict weightDict mask typeList subtypeList)
           uniqueTypes [].

Definition CalcAnthroDisturbance (Parameter_Values : list ParameterRow)
  (term : string) (unique_proposed_subtypes : list string)
  (anthro_disturbance_type : string) (che : cheStandard)
  (dist_field weight_field : string) (cellSize : R) (emptyRaster : raster)
  (mask : option raster) : M raster :=
  rasterList <- typeRasters Parameter_Values term unique_proposed_subtypes
                  anthro_disturbance_type che dist_field weight_field
                  cellSize mask ;;
  multiplyRasters che dist_field rasterList anthro_disturbance_type
                  emptyRaster.

End CalcAnthroDisturbance.

(** *** The lek uplift adjuster *)

Definition applyLekUpliftModifierPre
  (preSeasonalHabitat LekPresenceRaster : raster) : raster :=
  let inRaster := LekPresenceRaster in
  let inTrueRaster := preSeasonalHabitat in
  let inFalseConstant := LekPresenceRaster in
  let whereClause := VALUE_eq 0 in
  let LSDMpre := Con_where inRaster inTrueRaster inFalseConstant whereClause in
  LSDMpre.

Definition applyLekUpliftModifierPost
  (postSeasonalHabitat LekPresenceRaster LekDisturbanceModifier : raster)
  : raster :=
  let inRaster := LekPresenceRaster in
  let inTrueRaster := postSeasonalHabitat in
  let inFalseConstant := LekDisturbanceModifier in
  let whereClause := VALUE_eq 0 in
  let LSDMpost := Con_where inRaster inTrueRaster inFalseConstant whereClause in
  LSDMpost.

(** *** The credit/debit calculator *)

Section CalcDebits.

(** [str(x)] of a Python float, as [format] prints it. *)
Variable float_str : PrimFloat.float -> string.

(** [AddField_management(table, name, "DOUBLE")]: a new field holds null in
    every row; a field that exists is left as it is. *)
Definition AddField_management (rows : list feature_row) (fieldName : string)
  : list feature_row :=
  map (fun row =>
         match assoc fieldName row with
         | Some _ => row
         | None => (row ++ [(fieldName, None)])%list
         end)
      rows.

Definition set_field (k : string) (v : option PrimFloat.float)
  (row : feature_row) : feature_row :=
  map (fun kv => if fst kv =? k then (k, v) else kv) row.

(** [cursor.updateRow(row)]: the values of the cursor's fields are written
    back in the order of the field list. *)
Definition updateRow (fields : list string)
  (values : list (option PrimFloat.float)) (row : feature_row) : feature_row :=
  fold_left (fun r kv => set_field (fst kv) (snd kv) r)
            (combine fields values) row.

(** One turn of the cursor loop on the attribute row [row]: the new row and
    the value computed for the output field. *)
Definition debitRow (pre_field post_field out_field : string)
  (row : feature_row) : outcome (feature_row * PrimFloat.float) :=
  match assoc "Acres" row, assoc pre_field row,
        assoc post_field row, assoc out_field row with
  | Some row0, Some row1, Some row2, Some _ =>
      match row0, row1, row2 with
      | Some acres, Some pre, Some post =>
          let row3 := PrimFloat.mul acres (PrimFloat.sub pre post) in
          Return
            (updateRow ["Acres"; pre_field; post_field; out_field]
                       [row0; row1; row2; Some row3] row,
             row3)
      | _, _, _ => Raise TypeError
      end
  | _, _, _, _ => Raise RuntimeError
  end.

Fixpoint cursorLoop (DebitProjectArea pre_field post_field out_field : string)
  (done rest : list feature_row) : M unit :=
  match rest with
  | [] => ret tt
  | row :: rest' =>
      match debitRow pre_field post_field out_field row with
      | Raise e => raise e
      | Return (row', row3) =>
          put_rows DebitProjectArea (done ++ row' :: rest')%list ;;;
          AddMessage ("Functional Acre difference from " ++ pre_field
                      ++ " to " ++ post_field ++ " is equal to "
                      ++ float_str row3) ;;;
          cursorLoop DebitProjectArea pre_field post_field out_field
                     (done ++ [row'])%list rest'
      end
  end.

Definition calcDebits
  (DebitProjectArea pre_field post_field out_field : string) : M unit :=
  let inTable := DebitProjectArea in
  let fieldName := out_field in
  rows <- get_rows inTable ;;
  put_rows inTable (AddField_management rows fieldName) ;;;
  rows <- get_rows DebitProjectArea ;;
  cursorLoop DebitProjectArea pre_field post_field out_field [] rows.

End CalcDebits.

(** *** The habitat quality compositor *)

Definition calcWinterHabitatGRSG (anthroRaster ConiferModifier LDI : raster)
  (SuitableHabitat : option raster) : raster :=
  let winterHabitat := (anthroRaster * ConiferModifier * LDI)%ras in
  match SuitableHabitat with
  | Some SuitableHabitat => (winterHabitat * SuitableHabitat)%ras
  | None => winterHabitat
  end.

Definition calcBreedingHabitatGRSG
  (anthroRaster ConiferModifier LDI LekDistanceModifier : raster)
  (SuitableHabitat : option raster) : raster :=
  let breedingHabitat :=
    (anthroRaster * ConiferModifier * LDI * LekDistanceModifier)%ras in
  match SuitableHabitat with
  | Some SuitableHabitat => (breedingHabitat * SuitableHabitat)%ras
  | None => breedingHabitat
  end.

Definition calcSummerHabitatGRSG
  (anthroRaster ConiferModifier LDI SageModifier : raster)
  (SuitableHabitat : option raster) : raster :=
  let summerHabitat :=
    (anthroRaster * ConiferModifier * LDI * SageModifier)%ras in
  match SuitableHabitat with
  | Some SuitableHabitat => (summerHabitat * SuitableHabitat)%ras
  | None => summerHabitat
  end.

Definition calcSummerHabitatMD (anthroRaster LDI SummerModifier : raster)
  (SuitableHabitat : option raster) : raster :=
  let summerHabitat := (anthroRaster * LDI * SummerModifier)%ras in
  match SuitableHabitat with
  | Some SuitableHabitat => (summerHabitat * SuitableHabitat)%ras
  | None => summerHabitat
  end.

Definition calcMigratoryHabitatMD (anthroRaster LDI MigrationModifier : raster)
  (SuitableHabitat : option raster) : raster :=
  let migratoryHabitat := (anthroRaster * LDI * MigrationModifier)%ras in
  match SuitableHabitat with
  | Some SuitableHabitat => (migratoryHabitat * SuitableHabitat)%ras
  | None => migratoryHabitat
  end.

Definition calcWinterHabitatMD (anthroRaster LDI WinterModifier : raster)
  (SuitableHabitat : option raster) : raster :=
  let winterHabitat := (anthroRaster * LDI * WinterModifier)%ras in
  match SuitableHabitat with
  | Some SuitableHabitat => (winterHabitat * SuitableHabitat)%ras
  | None => winterHabitat
  end.

(** *** Uplift, impact and the seasonal average *)

(** [lekUpliftModifier += uplift] for every uplift surface in turn. *)
Definition calcLekUpliftModifier (LekPresenceRaster : raster)
  (upliftModifierList : list raster) : raster :=
  fold_left Plus upliftModifierList LekPresenceRaster.

Definition calcUplift (preModifier postModifier : raster) : raster :=
  (postModifier - preModifier)%ras.

Definition calcImpact (finalPreCumulative finalPostCumulative : raster)
  : raster :=
  (finalPreCumulative - finalPostCumulative)%ras.

Definition calcAverageHabitatQuality (seasonalHabitatRasters : list raster)
  : raster :=
  CellStatistics_MEAN seasonalHabitatRasters.

(** *** Merging the proposed features with the current ones *)

Definition combineProposedWithCurrentCredit (anthroPath : string)
  (uniqueProposedSubtypes : list string) : M unit :=
  for_each
    (fun subtype (_ : unit) =>
       currentAnthroFeature <- Raster (os_path_join anthroPath subtype) ;;
       proposedAnthroFeature <- Raster ("Proposed_" ++ subtype) ;;
       let postAnthroFeature :=
         SetNull_where proposedAnthroFeature currentAnthroFeature
                       (VALUE_eq 1) in
       save postAnthroFeature ("Post_" ++ subtype))
    uniqueProposedSubtypes tt.

Definition combineProposedWithCurrentDebit (anthroPath : string)
  (uniqueProposedSubtypes : list string) : M unit :=
  for_each
    (fun subtype (_ : unit) =>
       currentAnthroFeature <- Raster (os_path_join anthroPath subtype) ;;
       proposedAnthroFeature <- Raster ("Proposed_" ++ subtype) ;;
       let postAnthroFeature :=
         Con (IsNull proposedAnthroFeature) currentAnthroFeature
             proposedAnthroFeature in
       save postAnthroFeature ("Post_" ++ subtype))
    uniqueProposedSubtypes tt.

End Cohqt.

(** ** [hqtlib.py] *)

Module Hqtlib.

(** A zone as the zonal tool sees it: the value of its zone field and the
    cells of the value raster's grid that fall in the zone (the zone features
    rasterised on that grid). *)
Definition zone : Type := (Z * list cell)%type.

(** The values a raster holds on a list of cells, NoData cells skipped. *)
Definition data_values (a : raster) (cells : list cell) : list R :=
  flat_map (fun c => match a c with Some v => [v] | None => [] end) cells.

Definition Rsum (l : list R) : R := fold_right Rplus 0%R l.

(** [ZonalStatisticsAsTable(zones, field, raster, out, "DATA", "MEAN")]: the
    mean over the cells that hold a value; a zone with no such cell gets no
    row. *)
Definition ZonalStatisticsAsTable_MEAN (zones : list zone) (a : raster)
  : zonal_table :=
  flat_map
    (fun z =>
       match data_values a (snd z) with
       | [] => []
       | vs => [(fst z, (Rsum vs / INR (List.length vs))%R)]
       end)
    zones.

Section CalcZonalStats.

(** The input cell whose value the 5 m resampling gives to an output cell. *)
Variable nearest : cell -> cell.

Definition CalcZonalStats (in_zone_data : list zone) (zone_field : string)
  (in_value_raster : raster) (out_table : string) : M unit :=
  let in_value_raster :=
    Con (IsNull in_value_raster) (const 0) in_value_raster in
  let resample := true in
  tmp_raster <-
    (if resample : bool then
       save (Resample_NEAREST nearest in_value_raster) "sub_raster" ;;;
       Raster "sub_raster"
     else ret in_value_raster) ;;
  save_table (ZonalStatisticsAsTable_MEAN in_zone_data tmp_raster)
             out_table ;;;
  if resample : bool then Delete_management "sub_raster" else ret tt.

End CalcZonalStats.

End Hqtlib.

(** ** [CreditTool_2.py] and [DebitTool_2.py]: the mule-deer disturbance *)

Module Tools.

Import Cohqt.

Definition BWMD_Open (che : cheStandard) : M raster :=
  Raster (os_path_join (InputDataPath che) "Mule_Deer_Open_Habitat").

(** "If outside open, make 1" *)
Definition anthro_open_only (BWMD_Open anthro_open : raster) : raster :=
  Con (BWMD_Open == const 1)%ras anthro_open (const 1).

(** "Select minimum of pj and open rasters" *)
Definition combine_pj_open (BWMD_Open anthro_pj anthro_open : raster)
  : raster :=
  let anthro_open_only := anthro_open_only BWMD_Open anthro_open in
  Con (anthro_open_only < anthro_pj)%ras anthro_open_only anthro_pj.

Section MuleDeer.

Variable extent : list cell.
Variable statistics_fail : raster -> bool.

(** The block of [main] that builds the mule-deer disturbance surface of one
    term and saves it, with its parts, under [out_name]. *)
Definition muleDeerAnthroDisturbance (Parameter_Values : list ParameterRow)
  (term : string) (unique_proposed_subtypes : list string)
  (anthro_disturbance_type : string) (che : cheStandard)
  (cellSize : R) (emptyRaster BWMD_Open : raster) (out_name : string)
  : M raster :=
  anthro_pj <- CalcAnthroDisturbance extent statistics_fail
                 Parameter_Values term unique_proposed_subtypes
                 anthro_disturbance_type che "MDP_Dist" "MDP_Weight"
                 cellSize emptyRaster None ;;
  save anthro_pj (out_name ++ "_P") ;;;
  anthro_open <- CalcAnthroDisturbance extent statistics_fail
                   Parameter_Values term unique_proposed_subtypes
                   anthro_disturbance_type che "MDO_Dist" "MDO_Weight"
                   cellSize emptyRaster (Some BWMD_Open) ;;
  save anthro_open (out_name ++ "_O") ;;;
  save (anthro_open_only BWMD_Open anthro_open) (out_name ++ "_OO") ;;;
  let Current_Anthro_Disturbance :=
    combine_pj_open BWMD_Open anthro_pj anthro_open in
  save Current_Anthro_Disturbance out_name ;;;
  ret Current_Anthro_Disturbance.

End MuleDeer.

End Tools.

(** ** Vocabulary of the statements *)

Module Spec.

Import Cohqt.

(** The surface [calcSubtypeDisturbance] builds when [distance > 0]. *)
Definition decaySurface (extent : list cell) (cellSize : R)
  (features : raster) (distance weight : R) : raster :=
  let tmp1 :=
    sigmoidal (EucDistance extent features distance cellSize)
              distance weight in
  Con (IsNull tmp1) (const 100) tmp1.

(** The values a list of surfaces holds at a cell, NoData left out. *)
Definition cell_values (l : list raster) (c : cell) : list R :=
  flat_map (fun s => match s c with Some v => [v] | None => [] end) l.

(** The product of two cell values; NoData absorbs. *)
Definition omul (a b : option R) : option R :=
  match a, b with
  | Some x, Some y => Some (x * y)%R
  | _, _ => None
  end.

(** The product, at a cell, of the values of a list of surfaces. *)
Definition cell_product (l : list raster) (c : cell) : option R :=
  fold_right (fun s acc => omul (s c) acc) (Some 1%R) l.

(** The reduction of [np.prod] on the values of one cell, each product
    rounded by [rnd]. *)
Definition rounded_product (rnd : R -> R) (values : list R) : R :=
  np_prod_of (fun x y => rnd (x * y)%R) 1%R values.

(** A cell value with NoData read as 0. *)
Definition zero_filled (a : raster) (c : cell) : R :=
  match a c with Some v => v | None => 0%R end.

(** The mean the zonal aggregator reports for a zone with cells [cells]:
    every cell counts, a NoData cell as 0. *)
Definition zonal_mean (nearest : cell -> cell) (a : raster)
  (cells : list cell) : R :=
  (Hqtlib.Rsum (map (fun c => zero_filled a (nearest c)) cells)
   / INR (List.length cells))%R.

(** The subtypes listed under a type, in table order. *)
Definition subtypes_of (uniqueType : string)
  (typeList subtypeList : list string) : list string :=
  map snd (filter (fun ts => fst ts =? uniqueType)
                  (combine typeList subtypeList)).

(** The values of a numeric field, row by row. *)
Definition column (table : list ParameterRow) (field : string) : list R :=
  flat_map
    (fun row =>
       match assoc field (row_fields row) with
       | Some v => [v]
       | None => []
       end)
    table.

(** The dictionary of a numeric field by subtype. *)
Definition field_dict (table : list ParameterRow) (field : string) : dict :=
  dict_of_zip (map row_Subtype table) (column table field).

(** The feature raster a subtype is read from, if it takes part at all. *)
Definition selected (che : cheStandard) (unique_proposed_subtypes : list string)
  (anthro_disturbance_type subtype : string) : option string :=
  match fst (selectAnthroFeatures che unique_proposed_subtypes
               anthro_disturbance_type subtype
               (mkWorkspace [] [] [] [])) with
  | Return o => o
  | Raise _ => None
  end.

(** A subtype contributes a surface when it takes part and its Distance or
    its Weight is positive. *)
Definition contributes (che : cheStandard)
  (unique_proposed_subtypes : list string) (anthro_disturbance_type : string)
  (distanceDict weightDict : dict) (subtype : string) : bool :=
  match selected che unique_proposed_subtypes anthro_disturbance_type subtype,
        assoc subtype distanceDict, assoc subtype weightDict with
  | Some _, Some d, Some w => Rltb 0 d || Rltb 0 w
  | _, _, _ => false
  end.

(** A type contributes when one of its subtypes does. *)
Definition type_contributes (table : list ParameterRow) (che : cheStandard)
  (unique_proposed_subtypes : list string) (anthro_disturbance_type : string)
  (dist_field weight_field : string) (anthroType : string) : bool :=
  existsb
    (contributes che unique_proposed_subtypes anthro_disturbance_type
       (field_dict table dist_field) (field_dict table weight_field))
    (subtypes_of anthroType (map row_Type table) (map row_Subtype table)).

(** [Area * (PreValue - PostValue)] on the attribute values of a row. *)
Definition debit_value (pre_field post_field : string) (row : feature_row)
  : option PrimFloat.float :=
  match assoc "Acres" row, assoc pre_field row, assoc post_field row with
  | Some (Some acres), Some (Some pre), Some (Some post) =>
      Some (PrimFloat.mul acres (PrimFloat.sub pre post))
  | _, _, _ => None
  end.

(** The log line of one zone. *)
Definition debit_message (float_str : PrimFloat.float -> string)
  (pre_field post_field : string) (v : PrimFloat.float) : string :=
  "Functional Acre difference from " ++ pre_field ++ " to " ++ post_field
  ++ " is equal to " ++ float_str v.

Definition debit_messages (float_str : PrimFloat.float -> string)
  (pre_field post_field : string) (rows : list feature_row) : list string :=
  flat_map
    (fun row =>
       match debit_value pre_field post_field row with
       | Some v => [debit_message float_str pre_field post_field v]
       | None => []
       end)
    rows.

(** The rows the cursor loop processes: those before the first row that
    lacks an area, a pre value or a post value. *)
Fixpoint processed (pre_field post_field : string) (rows : list feature_row)
  : list feature_row :=
  match rows with
  | [] => []
  | row :: rows' =>
      match debit_value pre_field post_field row with
      | Some _ => row :: processed pre_field post_field rows'
      | None => []
      end
  end.

(** The rows the cursor loop does not process: the first row that lacks a
    value and all the rows after it. *)
Fixpoint unprocessed (pre_field post_field : string)
  (rows : list feature_row) : list feature_row :=
  match rows with
  | [] => []
  | row :: rows' =>
      match debit_value pre_field post_field row with
      | Some _ => unprocessed pre_field post_field rows'
      | None => rows
      end
  end.



(** A cell that holds a value between two bounds. *)
Definition within (lo hi : R) (a : raster) (c : cell) : Prop :=
  exists v : R, a c = Some v /\ (lo <= v <= hi)%R.

(** The sum of two cell values; NoData absorbs. *)
Definition oadd (a b : option R) : option R :=
  match a, b with
  | Some x, Some y => Some (x + y)%R
  | _, _ => None
  end.

(** The sum, at a cell, of the values of a list of surfaces. *)
Definition cell_sum (l : list raster) (c : cell) : option R :=
  fold_right (fun s acc => oadd (s c) acc) (Some 0%R) l.

(** The operand an optional argument adds to a product. *)
Definition optional (o : option raster) : list raster :=
  match o with Some s => [s] | None => [] end.

(** Every surface of a list holds a score, a value from 0 to 1, at a cell. *)
Definition scores (l : list raster) (c : cell) : Prop :=
  Forall (fun s => within 0 1 s c) l.

(** A surface holds a score at a cell, and none of the listed surfaces is
    below it there. *)
Definition score_below (r : raster) (l : list raster) (c : cell) : Prop :=
  exists v : R,
    r c = Some v /\ (0 <= v <= 1)%R
    /\ Forall (fun s => exists q : R, s c = Some q /\ (v <= q)%R) l.

(** Every subtype acts through the decay curve, with a Weight from 0 to
    100, or not at all. *)
Definition decay_weights (distanceDict weightDict : dict) : Prop :=
  forall (subtype : string) (d w : R),
    assoc subtype distanceDict = Some d ->
    assoc subtype weightDict = Some w ->
    (0 < d -> 0 <= w <= 100)%R /\ (d <= 0 -> w <= 0)%R.

(** Whether a cell holds a feature. *)
Definition present (a : raster) (c : cell) : bool := has_data (a c).

(** The three kinds of surface [CalcAnthroDisturbance] is asked for. *)
Definition valid_type (anthro_disturbance_type : string) : Prop :=
  anthro_disturbance_type = "Pre"
  \/ anthro_disturbance_type = "Post"
  \/ anthro_disturbance_type = "LekDisturbanceModifier".

(** What the loops need of a subtype in a workspace: an entry in both
    dictionaries, and its feature raster if it takes part. *)
Definition subtype_ready (che : cheStandard)
  (unique_proposed_subtypes : list string) (anthro_disturbance_type : string)
  (distanceDict weightDict : dict) (ws : workspace) (subtype : string)
  : Prop :=
  assoc subtype distanceDict <> None
  /\ assoc subtype weightDict <> None
  /\ forall name : string,
       selected che unique_proposed_subtypes anthro_disturbance_type subtype
       = Some name ->
       assoc name (rasters ws) <> None.


End Spec.

(** ** Sample data *)

Module Samples.

Import Cohqt.
Import Spec.

(** A strip of three cells with one feature cell at its left end. *)
Definition strip : list cell := [(0, 0); (1, 0); (2, 0)]%Z.

Definition road : raster :=
  fun c => if (fst c =? 0)%Z && (snd c =? 0)%Z then Some 1%R else None.

Definition che0 : cheStandard := mkStandard "InputData.gdb" "AnthroData.gdb".

(** Background indices: agriculture halves the left cell, no open water. *)
Definition ag_index : raster :=
  fun c => if (fst c =? 0)%Z then Some (1 / 2)%R else Some 1%R.

Definition lakes : raster := const 1.

(** A fence along the right end of the strip. *)
Definition fence : raster :=
  fun c => if (fst c =? 2)%Z && (snd c =? 0)%Z then Some 1%R else None.

Definition road_ws : workspace :=
  mkWorkspace [("InputData.gdb/GrSG_Ag_Index", ag_index);
               ("InputData.gdb/Lakes", lakes);
               ("AnthroData.gdb/Roads", road);
               ("AnthroData.gdb/Fence", fence)] [] [] [].

(** A parameter table: roads disturb within distance 2 with weight 100,
    fences are inert for every species. *)
Definition parameter_table : list ParameterRow :=
  [mkParameterRow "Transport" "Roads"
     [("GrSG_Dist", 2%R); ("GrSG_Weight", 100%R);
      ("MDP_Dist", 2%R); ("MDP_Weight", 100%R)];
   mkParameterRow "Barrier" "Fence"
     [("GrSG_Dist", 0%R); ("GrSG_Weight", 0%R);
      ("MDP_Dist", 0%R); ("MDP_Weight", 0%R)]].

(** A surface that holds 100 on the right half of the plane and NoData on
    the left half, and a zone of two cells astride the boundary. *)
Definition half_surface : raster :=
  fun c => if (fst c <? 0)%Z then None else Some 100%R.

Definition zone7 : Hqtlib.zone := (7%Z, [(-1, 0); (0, 0)]%Z).

Definition empty_ws : workspace := mkWorkspace [] [] [] [].

(** The Type surface of the roads, and the workspace the loops of
    [CalcAnthroDisturbance] leave on the sample table. *)
Definition road_type_surface : raster :=
  (CellStatistics_MINIMUM [decaySurface strip 1 road 2 100] / const 100)%ras.

Definition road_ws_after : workspace :=
  mkWorkspace
    [("Pre_Transport_Type_Disturbance", road_type_surface);
     ("Pre_Roads_Subtype_Disturbance", decaySurface strip 1 road 2 100);
     ("InputData.gdb/GrSG_Ag_Index", ag_index);
     ("InputData.gdb/Lakes", lakes);
     ("AnthroData.gdb/Roads", road);
     ("AnthroData.gdb/Fence", fence)]
    [] []
    [" Evaluating Pre Transport Indirect Disturbance";
     "  Calculating direct and indirect effects of Roads";
     "   Combining effects of Transport features";
     " Evaluating Pre Barrier Indirect Disturbance"].

(** A lek-presence layer with one lek cell. *)
Definition lek : raster :=
  fun c => if (fst c =? 0)%Z && (snd c =? 0)%Z then Some 1%R else Some 0%R.

(** The roads after a debit project adds a spur at the right end of the
    strip, and a workspace that holds both. *)
Definition road_and_spur : raster :=
  fun c =>
    if (fst c =? 0)%Z && (snd c =? 0)%Z then Some 1%R
    else if (fst c =? 2)%Z && (snd c =? 0)%Z then Some 1%R
    else None.

Definition proposed_ws : workspace :=
  mkWorkspace [("AnthroData.gdb/Roads", road);
               ("Post_Roads", road_and_spur)] [] [] [].

(** Input data with a lek distance modifier and a sage modifier that
    differ. *)
Definition modifier_ws : workspace :=
  mkWorkspace [("InputData.gdb/GrSG_Lek_Distance_Modifier", const (1 / 2)%R);
               ("InputData.gdb/GrSG_Sage_Modifier", const (1 / 4)%R)]
              [] [] [].

(** A debit project that proposes a spur at the right end of the strip,
    and a credit project that removes the road cell of [road_and_spur]. *)
Definition spur : raster :=
  fun c => if (fst c =? 2)%Z && (snd c =? 0)%Z then Some 1%R else None.

Definition debit_merge_ws : workspace :=
  mkWorkspace [("AnthroData.gdb/Roads", road); ("Proposed_Roads", spur)]
              [] [] [].

Definition road_removed : raster :=
  fun c => if (fst c =? 0)%Z && (snd c =? 0)%Z then Some 1%R else Some 0%R.

Definition credit_merge_ws : workspace :=
  mkWorkspace [("AnthroData.gdb/Roads", road_and_spur);
               ("Proposed_Roads", road_removed)] [] [] [].

Definition road_distance : dict := [("Roads", 2%R)].

Definition road_weight : dict := [("Roads", 100%R)].

End Samples.

(** Sample data of the credit/debit calculator. *)

Module DebitSamples.

Import PrimFloat.

Set Warnings "-inexact-float".

(** A zone of 10 acres whose quality drops from 0.6 to 0.4. *)
Definition zone_row : feature_row :=
  [("Acres", Some 10%float);
   ("GRSG_Pre_Project", Some 0.6%float);
   ("GRSG_Post_Project", Some 0.4%float)].

Definition debit_ws : workspace :=
  mkWorkspace [] [] [("Debit_Project_Area", [zone_row])] [].

(** A zone the zonal table had no row for: its post-project value is
    null. *)
Definition null_row : feature_row :=
  [("Acres", Some 5%float);
   ("GRSG_Pre_Project", Some 0.5%float);
   ("GRSG_Post_Project", None)].

Definition null_ws : workspace :=
  mkWorkspace [] []
    [("Debit_Project_Area", [zone_row; null_row; zone_row])] [].

Definition two : float := 2%float.

(** The second double below 2: two steps of [next_down] from 2. *)
Definition below_two : float := 1.9999999999999996%float.

(** A stand-in for Python's float formatting. *)
Definition any_str (v : float) : string := "<float>".

End DebitSamples.

(** Cell values in the floating-point formats of the rasters. *)
Module CellSamples.

Import PrimFloat SpecFloat.

Set Warnings "-inexact-float".

Definition one : float := 1%float.

(** The values three Type surfaces hold at one cell, and the same surfaces
    listed in another order. *)
Definition type_values : list float := [0.3; 0.7; 0.1]%float.

Definition type_values_swapped : list float := [0.3; 0.1; 0.7]%float.

(** Background indices that leave the cell as it is. *)
Definition ag_value : float := 1%float.

Definition lakes_value : float := 1%float.

(** Single precision, the cell format of a 32-bit float raster: the
    conversion of a double and the product. *)
Definition to_binary32 (x : float) : spec_float :=
  match FloatOps.Prim2SF x with
  | S754_finite s m e =>
      binary_normalize 24 128 (if s then Zneg m else Zpos m) e s
  | v => v
  end.

Definition mul32 : spec_float -> spec_float -> spec_float := SFmul 24 128.

End CellSamples.

(** * Properties *)

Local Open Scope R_scope.
Local Open Scope list_scope.

(** ** The tests on reals *)

Lemma Reqb_true (x y : R) : x = y -> Reqb x y = true.
Proof. intros H. unfold Reqb. destruct (Req_dec_T x y); congruence. Qed.

Lemma Reqb_false (x y : R) : x <> y -> Reqb x y = false.
Proof. intros H. unfold Reqb. destruct (Req_dec_T x y); congruence. Qed.

Lemma Rltb_true (x y : R) : x < y -> Rltb x y = true.
Proof. intros H. unfold Rltb. destruct (Rlt_dec x y); [reflexivity | contradiction]. Qed.

Lemma Rltb_false (x y : R) : y <= x -> Rltb x y = false.
Proof. intros H. unfold Rltb. destruct (Rlt_dec x y); [lra | reflexivity]. Qed.

Lemma Rleb_true (x y : R) : x <= y -> Rleb x y = true.
Proof. intros H. unfold Rleb. destruct (Rle_dec x y); [reflexivity | contradiction]. Qed.

Lemma Rleb_false (x y : R) : y < x -> Rleb x y = false.
Proof. intros H. unfold Rleb. destruct (Rle_dec x y); [lra | reflexivity]. Qed.

(** ** The sigmoid *)

Lemma exp_mult_nat (x : R) (n : nat) : exp (INR n * x) = exp x ^ n.
Proof.
  induction n as [|n IH].
  - simpl. rewrite Rmult_0_l. apply exp_0.
  - rewrite S_INR, Rmult_plus_distr_r, Rmult_1_l, exp_plus, IH.
    simpl. ring.
Qed.

Lemma exp_5_gt_99 : 99 < exp 5.
Proof.
  replace 5 with (INR 40 * (1 / 8)) by (simpl; lra).
  rewrite exp_mult_nat.
  apply Rlt_le_trans with ((9 / 8) ^ 40).
  - simpl. lra.
  - apply pow_incr. split; [lra|].
    pose proof (exp_ineq1_le (1 / 8)). lra.
Qed.

Lemma exp_monotone (x y : R) : x <= y -> exp x <= exp y.
Proof.
  intros [H | ->]; [left; now apply exp_increasing | right; reflexivity].
Qed.

Lemma decay_value_monotone (d w x y : R) :
  0 < d -> 0 <= w -> x <= y -> Cohqt.decay_value d w x <= Cohqt.decay_value d w y.
Proof.
  intros Hd Hw Hxy. unfold Cohqt.decay_value.
  assert (Hexp : exp ((x / (d / 2) - 1) * 5) <= exp ((y / (d / 2) - 1) * 5)).
  { apply exp_monotone.
    assert (x / (d / 2) <= y / (d / 2)); [|lra].
    apply Rmult_le_compat_r; [|exact Hxy].
    left. apply Rinv_0_lt_compat. lra. }
  pose proof (exp_pos ((x / (d / 2) - 1) * 5)) as Hx.
  pose proof (exp_pos ((y / (d / 2) - 1) * 5)) as Hy.
  assert (1 / (1 + exp ((y / (d / 2) - 1) * 5))
          <= 1 / (1 + exp ((x / (d / 2) - 1) * 5))).
  { unfold Rdiv. rewrite !Rmult_1_l. apply Rinv_le_contravar; lra. }
  nra.
Qed.

Lemma decay_value_le_100 (d w x : R) :
  0 <= w -> Cohqt.decay_value d w x <= 100.
Proof.
  intros Hw. unfold Cohqt.decay_value.
  pose proof (exp_pos ((x / (d / 2) - 1) * 5)) as Hx.
  assert (0 < 1 / (1 + exp ((x / (d / 2) - 1) * 5))).
  { unfold Rdiv. rewrite Rmult_1_l. apply Rinv_0_lt_compat. lra. }
  nra.
Qed.

Lemma decay_value_at_0 (d w : R) :
  0 < d -> Cohqt.decay_value d w 0 = 100 - 1 / (1 + exp (- 5)) * w.
Proof.
  intros Hd. unfold Cohqt.decay_value.
  replace ((0 / (d / 2) - 1) * 5) with (- 5); [reflexivity|].
  unfold Rdiv. rewrite Rmult_0_l. lra.
Qed.

Lemma decay_value_at_d (d w : R) :
  0 < d -> Cohqt.decay_value d w d = 100 - 1 / (1 + exp 5) * w.
Proof.
  intros Hd. unfold Cohqt.decay_value.
  replace ((d / (d / 2) - 1) * 5) with 5; [reflexivity|].
  field. lra.
Qed.

Lemma decay_value_far (d w x : R) :
  0 < d -> 0 <= w -> d <= x -> 100 - w / 100 <= Cohqt.decay_value d w x.
Proof.
  intros Hd Hw Hx.
  apply Rle_trans with (Cohqt.decay_value d w d);
    [|now apply decay_value_monotone].
  rewrite decay_value_at_d by exact Hd.
  pose proof exp_5_gt_99 as He.
  assert (1 / (1 + exp 5) <= 1 / 100).
  { unfold Rdiv. rewrite !Rmult_1_l. apply Rinv_le_contravar; lra. }
  nra.
Qed.

(** ** Cells of the decay surface *)

Lemma sigmoidal_cell (dist : raster) (d w : R) (c : cell) :
  0 < d ->
  Cohqt.sigmoidal dist d w c = option_map (Cohqt.decay_value d w) (dist c).
Proof.
  intros Hd.
  unfold Cohqt.sigmoidal, Minus, Times, Divide, Plus, Exp, local2, local1, const.
  destruct (dist c) as [x|]; simpl; [|reflexivity].
  rewrite (Reqb_false (d / 2) 0) by lra. simpl.
  pose proof (exp_pos ((x / (d / 2) - 1) * 5)) as He.
  rewrite Reqb_false by lra.
  reflexivity.
Qed.

Lemma decaySurface_cell (extent : list cell) (cs : R) (features : raster)
  (d w : R) (c : cell) :
  0 < d ->
  Spec.decaySurface extent cs features d w c =
  match EucDistance extent features d cs c with
  | Some x => Some (Cohqt.decay_value d w x)
  | None => Some 100
  end.
Proof.
  intros Hd. unfold Spec.decaySurface, Con, IsNull, const.
  rewrite sigmoidal_cell by exact Hd.
  destruct (EucDistance extent features d cs c) as [x|]; simpl.
  - now rewrite Reqb_true.
  - rewrite Reqb_false by lra. reflexivity.
Qed.

(** What a run of [calcSubtypeDisturbance] returns and leaves behind when the
    subtype has a positive distance. *)
Lemma calcSubtypeDisturbance_decay_run (extent : list cell) (cs : R)
  (distanceDict weightDict : Cohqt.dict) (AnthroFeatures subtype T : string)
  (ws : workspace) (features : raster) (d w : R) :
  assoc subtype distanceDict = Some d ->
  assoc subtype weightDict = Some w ->
  assoc AnthroFeatures (rasters ws) = Some features ->
  0 < d ->
  Cohqt.calcSubtypeDisturbance extent cs distanceDict weightDict
    AnthroFeatures subtype T ws =
  (Return (Some (Spec.decaySurface extent cs features d w)),
   mkWorkspace
     (put (T ++ "_" ++ subtype ++ "_Subtype_Disturbance")%string
          (Spec.decaySurface extent cs features d w) (rasters ws))
     (tables ws) (feature_classes ws)
     (messages ws
      ++ [("  Calculating direct and indirect effects of " ++ subtype)%string])).
Proof.
  intros HD HW HF Hd.
  unfold Cohqt.calcSubtypeDisturbance, Cohqt.dict_get, bind, Raster.
  rewrite HD, HW. unfold ret at 1 2. rewrite HF.
  rewrite Rltb_true by exact Hd.
  reflexivity.
Qed.

(** ** The distance transform *)

Lemma cell_dist_self (cs : R) (p : cell) : cell_dist cs p p = 0.
Proof.
  unfold cell_dist.
  replace ((fst p - fst p) * (fst p - fst p)
           + (snd p - snd p) * (snd p - snd p))%Z with 0%Z by lia.
  rewrite sqrt_0. ring.
Qed.

Lemma cell_dist_nonneg (cs : R) (p q : cell) : 0 <= cs -> 0 <= cell_dist cs p q.
Proof.
  intros H. unfold cell_dist. apply Rmult_le_pos; [exact H | apply sqrt_pos].
Qed.

Lemma nearest_dist_nonneg (cs : R) (p : cell) (srcs : list cell) (m : R) :
  0 <= cs -> nearest_dist cs p srcs = Some m -> 0 <= m.
Proof.
  intros Hcs. revert m.
  induction srcs as [|s rest IH]; intros m H; simpl in H; [discriminate|].
  destruct (nearest_dist cs p rest) as [m'|]; inversion H; subst.
  - apply Rmin_glb; [now apply cell_dist_nonneg | now apply IH].
  - now apply cell_dist_nonneg.
Qed.

Lemma nearest_dist_member (cs : R) (p : cell) (srcs : list cell) :
  0 <= cs -> In p srcs -> nearest_dist cs p srcs = Some 0.
Proof.
  intros Hcs. induction srcs as [|s rest IH]; intros Hin; [contradiction|].
  simpl. destruct Hin as [-> | Hin].
  - rewrite cell_dist_self.
    destruct (nearest_dist cs p rest) as [m|] eqn:E; [|reflexivity].
    f_equal. apply Rmin_left. now apply (nearest_dist_nonneg cs p rest).
  - rewrite (IH Hin). f_equal. apply Rmin_right. now apply cell_dist_nonneg.
Qed.

(** A cell of the extent that holds a feature is at distance 0. *)
Lemma EucDistance_source (extent : list cell) (a : raster) (maxd cs : R)
  (p : cell) :
  0 <= cs -> 0 <= maxd -> In p extent -> has_data (a p) = true ->
  EucDistance extent a maxd cs p = Some 0.
Proof.
  intros Hcs Hmax Hin Hdata. unfold EucDistance.
  rewrite (nearest_dist_member cs p (sources extent a) Hcs).
  - now rewrite Rleb_true.
  - unfold sources. apply filter_In. now split.
Qed.

(** ** Disturbance Surface Builder *)

Lemma exp_minus_5_small : 0 < exp (- 5) < 1 / 99.
Proof.
  split; [apply exp_pos|].
  replace (exp (- 5)) with (/ exp 5)
    by (rewrite <- exp_Ropp; f_equal; lra).
  pose proof exp_5_gt_99 as H.
  unfold Rdiv. rewrite Rmult_1_l. apply Rinv_lt_contravar; lra.
Qed.

Lemma sigmoid_at_0_bounds : 99 / 100 < 1 / (1 + exp (- 5)) < 1.
Proof.
  destruct exp_minus_5_small as [H0 H1].
  split.
  - apply Rmult_lt_reg_r with (1 + exp (- 5)); [lra|].
    unfold Rdiv at 2. rewrite Rmult_1_l, Rinv_l by lra. lra.
  - apply Rmult_lt_reg_r with (1 + exp (- 5)); [lra|].
    unfold Rdiv. rewrite Rmult_1_l, Rinv_l by lra. lra.
Qed.

(** C1, as the code has it: for a subtype with Distance [d > 0] and Weight
    [w], [calcSubtypeDisturbance] returns a surface whose value at every cell
    at Euclidean distance 0 from the feature is
    [100 - (1/(1 + exp(-5))) * w], the sigmoid of the source evaluated at 0.
    The factor [1/(1 + exp(-5))] lies strictly between 0.99 and 1, so the
    value is [100 - w] only when [w = 0]; for [w >= 0] it lies between
    [100 - w] and [100 - 0.99 w]. *)
Theorem calcSubtypeDisturbance_at_distance_0 (extent : list cell) (cs : R)
  (distanceDict weightDict : Cohqt.dict) (AnthroFeatures subtype T : string)
  (ws : workspace) (features : raster) (d w : R) :
  assoc subtype distanceDict = Some d ->
  assoc subtype weightDict = Some w ->
  assoc AnthroFeatures (rasters ws) = Some features ->
  0 < d ->
  exists (r : raster) (ws' : workspace),
    Cohqt.calcSubtypeDisturbance extent cs distanceDict weightDict
      AnthroFeatures subtype T ws = (Return (Some r), ws')
    /\ (forall c : cell,
          EucDistance extent features d cs c = Some 0 ->
          r c = Some (100 - 1 / (1 + exp (- 5)) * w))
    /\ (w <> 0 -> 100 - 1 / (1 + exp (- 5)) * w <> 100 - w)
    /\ (0 <= w ->
        100 - w <= 100 - 1 / (1 + exp (- 5)) * w <= 100 - 99 / 100 * w).
Proof.
  intros HD HW HF Hd.
  eexists. eexists. split; [|split; [|split]].
  - apply calcSubtypeDisturbance_decay_run; eassumption.
  - intros c Hc. rewrite decaySurface_cell by exact Hd.
    rewrite Hc. now rewrite decay_value_at_0.
  - intros Hw Heq. pose proof sigmoid_at_0_bounds as [_ Hb].
    assert ((1 - 1 / (1 + exp (- 5))) * w = 0) as Hz by lra.
    apply Rmult_integral in Hz. destruct Hz; lra.
  - intros Hw. pose proof sigmoid_at_0_bounds as [Ha Hb]. split; nra.
Qed.

Lemma road_distance_0 :
  EucDistance Samples.strip Samples.road 2 1 (0, 0)%Z = Some 0.
Proof.
  apply EucDistance_source; try lra.
  - simpl. now left.
  - reflexivity.
Qed.

Lemma calcSubtypeDisturbance_at_distance_0_witness :
  exists (r : raster) (ws' : workspace),
    Cohqt.calcSubtypeDisturbance Samples.strip 1 Samples.road_distance
      Samples.road_weight "AnthroData.gdb/Roads" "Roads" "Pre"
      Samples.road_ws = (Return (Some r), ws')
    /\ r (0, 0)%Z = Some (100 - 1 / (1 + exp (- 5)) * 100)
    /\ 100 - 100 <= 100 - 1 / (1 + exp (- 5)) * 100 <= 100 - 99 / 100 * 100.
Proof.
  destruct (calcSubtypeDisturbance_at_distance_0 Samples.strip 1
              Samples.road_distance Samples.road_weight
              "AnthroData.gdb/Roads" "Roads" "Pre" Samples.road_ws
              Samples.road 2 100)
    as (r & ws' & Hrun & Hcell & _ & Hbounds).
  - reflexivity.
  - reflexivity.
  - reflexivity.
  - lra.
  - exists r, ws'. split; [exact Hrun|]. split.
    + apply Hcell. exact road_distance_0.
    + apply Hbounds. lra.
Defined.

(** C1 as stated fails: with Distance 2 and Weight 100 the feature cell of
    the sample strip is at Euclidean distance 0, and the surface the code
    returns does not hold [100 - 100] there. *)
Lemma calcSubtypeDisturbance_distance_0_not_100_minus_w :
  exists (r : raster) (ws' : workspace),
    Cohqt.calcSubtypeDisturbance Samples.strip 1 Samples.road_distance
      Samples.road_weight "AnthroData.gdb/Roads" "Roads" "Pre"
      Samples.road_ws = (Return (Some r), ws')
    /\ EucDistance Samples.strip Samples.road 2 1 (0, 0)%Z = Some 0
    /\ r (0, 0)%Z <> Some (100 - 100).
Proof.
  eexists. eexists. split; [|split].
  - apply (calcSubtypeDisturbance_decay_run Samples.strip 1
             Samples.road_distance Samples.road_weight
             "AnthroData.gdb/Roads" "Roads" "Pre" Samples.road_ws
             Samples.road 2 100); try reflexivity; lra.
  - exact road_distance_0.
  - rewrite decaySurface_cell by lra. rewrite road_distance_0.
    rewrite decay_value_at_0 by lra.
    intros H. inversion H as [H1].
    pose proof sigmoid_at_0_bounds as [_ Hb]. lra.
Qed.

(** The decay surface by the true distance to the nearest feature cell. *)
Lemma decaySurface_by_distance (extent : list cell) (cs : R)
  (features : raster) (d w : R) (p : cell) :
  0 < d ->
  Spec.decaySurface extent cs features d w p =
  match nearest_dist cs p (sources extent features) with
  | Some x => Some (if Rleb x d then Cohqt.decay_value d w x else 100)
  | None => Some 100
  end.
Proof.
  intros Hd. rewrite decaySurface_cell by exact Hd. unfold EucDistance.
  destruct (nearest_dist cs p (sources extent features)) as [x|];
    [|reflexivity].
  destruct (Rleb x d); reflexivity.
Qed.

(** C6: for a subtype with Distance [d > 0] and Weight [0 <= w <= 100] the
    surface [calcSubtypeDisturbance] returns is non-decreasing in the
    distance to the nearest presence cell; at every cell whose distance is
    at least [d] its value is within [w/100 <= 1] of 100 (and never above
    100); and cells where the distance transform returns NoData hold
    exactly 100. *)
Theorem calcSubtypeDisturbance_monotone_in_distance (extent : list cell)
  (cs : R) (distanceDict weightDict : Cohqt.dict)
  (AnthroFeatures subtype T : string) (ws : workspace) (features : raster)
  (d w : R) :
  assoc subtype distanceDict = Some d ->
  assoc subtype weightDict = Some w ->
  assoc AnthroFeatures (rasters ws) = Some features ->
  0 < d -> 0 <= w <= 100 ->
  exists (r : raster) (ws' : workspace),
    Cohqt.calcSubtypeDisturbance extent cs distanceDict weightDict
      AnthroFeatures subtype T ws = (Return (Some r), ws')
    /\ (forall (p q : cell) (dp dq : R),
          nearest_dist cs p (sources extent features) = Some dp ->
          nearest_dist cs q (sources extent features) = Some dq ->
          dp <= dq ->
          exists vp vq : R, r p = Some vp /\ r q = Some vq /\ vp <= vq)
    /\ (forall (p : cell) (dp : R),
          nearest_dist cs p (sources extent features) = Some dp ->
          d <= dp ->
          exists v : R,
            r p = Some v /\ 100 - w / 100 <= v <= 100 /\ w / 100 <= 1)
    /\ (forall p : cell,
          EucDistance extent features d cs p = None -> r p = Some 100).
Proof.
  intros HD HW HF Hd [Hw0 Hw100].
  eexists. eexists. split; [|split; [|split]].
  - apply calcSubtypeDisturbance_decay_run; eassumption.
  - intros p q dp dq Hp Hq Hle.
    rewrite !decaySurface_by_distance by exact Hd. rewrite Hp, Hq.
    do 2 eexists. split; [reflexivity|]. split; [reflexivity|].
    unfold Rleb.
    destruct (Rle_dec dp d) as [Hpd|Hpd], (Rle_dec dq d) as [Hqd|Hqd].
    + now apply decay_value_monotone.
    + now apply decay_value_le_100.
    + lra.
    + lra.
  - intros p dp Hp Hfar.
    rewrite decaySurface_by_distance by exact Hd. rewrite Hp.
    eexists. split; [reflexivity|].
    split; [|lra].
    unfold Rleb. destruct (Rle_dec dp d) as [Hpd|Hpd].
    + split; [now apply decay_value_far | now apply decay_value_le_100].
    + lra.
  - intros p Hp. rewrite decaySurface_cell by exact Hd. now rewrite Hp.
Qed.

Lemma road_distance_2 :
  nearest_dist 1 (2, 0)%Z (sources Samples.strip Samples.road) = Some 2.
Proof.
  change (sources Samples.strip Samples.road) with [(0, 0)%Z].
  unfold nearest_dist, cell_dist. simpl fst. simpl snd.
  change ((2 - 0) * (2 - 0) + (0 - 0) * (0 - 0))%Z with 4%Z.
  replace (IZR 4) with (2 * 2) by lra.
  rewrite sqrt_square by lra. f_equal. ring.
Qed.

Lemma calcSubtypeDisturbance_monotone_in_distance_witness :
  exists (r : raster) (ws' : workspace),
    Cohqt.calcSubtypeDisturbance Samples.strip 1 Samples.road_distance
      Samples.road_weight "AnthroData.gdb/Roads" "Roads" "Pre"
      Samples.road_ws = (Return (Some r), ws')
    /\ (exists vp vq : R,
          r (0, 0)%Z = Some vp /\ r (2, 0)%Z = Some vq /\ vp <= vq)
    /\ (exists v : R,
          r (2, 0)%Z = Some v
          /\ 100 - 100 / 100 <= v <= 100 /\ 100 / 100 <= 1).
Proof.
  destruct (calcSubtypeDisturbance_monotone_in_distance Samples.strip 1
              Samples.road_distance Samples.road_weight
              "AnthroData.gdb/Roads" "Roads" "Pre" Samples.road_ws
              Samples.road 2 100)
    as (r & ws' & Hrun & Hmono & Hfar & _).
  - reflexivity.
  - reflexivity.
  - reflexivity.
  - lra.
  - lra.
  - exists r, ws'. split; [exact Hrun|]. split.
    + apply (Hmono (0, 0)%Z (2, 0)%Z 0 2).
      * apply nearest_dist_member; [lra|]. simpl. now left.
      * exact road_distance_2.
      * lra.
    + apply (Hfar (2, 0)%Z 2); [exact road_distance_2 | lra].
Defined.

(** ** Type Aggregator *)

Lemma CellStatistics_MINIMUM_cell (l : list raster) (c : cell) :
  match CellStatistics_MINIMUM l c with
  | Some m =>
      In m (Spec.cell_values l c)
      /\ Forall (Rle m) (Spec.cell_values l c)
  | None => Forall (fun s => s c = None) l
  end.
Proof.
  unfold CellStatistics_MINIMUM.
  induction l as [|s l IH]; simpl; [constructor|].
  destruct (fold_right (fun r acc => min_data (r c) acc) None l) as [m|];
    destruct (s c) as [v|] eqn:Es; simpl.
  - destruct IH as [Hin Hall]. unfold Rmin.
    destruct (Rle_dec v m) as [Hvm|Hvm].
    + split; [now left|]. constructor; [lra|].
      eapply Forall_impl; [|exact Hall]. intros a Ha. simpl in Ha. lra.
    + split; [now right|]. constructor; [lra | exact Hall].
  - exact IH.
  - assert (Spec.cell_values l c = []) as ->.
    { unfold Spec.cell_values. induction IH as [|s' l' Hs' _ IH'];
        [reflexivity|]. simpl. now rewrite Hs', IH'. }
    split; [now left|]. constructor; [lra | constructor].
  - constructor; assumption.
Qed.

Lemma Divide_const_cell (a : raster) (k : R) (c : cell) :
  k <> 0 -> Divide a (const k) c = option_map (fun v => v / k) (a c).
Proof.
  intros Hk. unfold Divide, local2, const.
  destruct (a c); [|reflexivity]. now rewrite Reqb_false.
Qed.

Lemma calcTypeDisturbance_run (anthroType T : string)
  (subtypeRasters : list raster) (ws : workspace) :
  Cohqt.calcTypeDisturbance anthroType subtypeRasters T ws =
  (Return (CellStatistics_MINIMUM subtypeRasters / const 100)%ras,
   mkWorkspace
     (put (T ++ "_" ++ anthroType ++ "_Type_Disturbance")%string
          (CellStatistics_MINIMUM subtypeRasters / const 100)%ras
          (rasters ws))
     (tables ws) (feature_classes ws)
     (messages ws
      ++ [("   Combining effects of " ++ anthroType ++ " features")%string])).
Proof. reflexivity. Qed.

(** C4: [calcTypeDisturbance] always returns a surface; at every cell it
    holds the minimum of the values the subtype surfaces hold there,
    divided by 100 (and NoData only where every subtype surface is NoData);
    for a list of one surface the output is that surface divided by 100. *)
Theorem calcTypeDisturbance_minimum (anthroType T : string)
  (subtypeRasters : list raster) (subtypeRaster : raster) (ws : workspace) :
  (exists (typeRaster : raster) (ws' : workspace),
     Cohqt.calcTypeDisturbance anthroType subtypeRasters T ws
     = (Return typeRaster, ws')
     /\ forall c : cell,
          match typeRaster c with
          | Some q =>
              exists m : R,
                q = m / 100
                /\ In m (Spec.cell_values subtypeRasters c)
                /\ Forall (Rle m) (Spec.cell_values subtypeRasters c)
          | None => Forall (fun s => s c = None) subtypeRasters
          end)
  /\ (exists (typeRaster : raster) (ws' : workspace),
        Cohqt.calcTypeDisturbance anthroType [subtypeRaster] T ws
        = (Return typeRaster, ws')
        /\ forall c : cell,
             typeRaster c
             = option_map (fun v => v / 100) (subtypeRaster c)).
Proof.
  split.
  - eexists. eexists. split; [apply calcTypeDisturbance_run|].
    intros c. rewrite Divide_const_cell by lra.
    pose proof (CellStatistics_MINIMUM_cell subtypeRasters c) as H.
    destruct (CellStatistics_MINIMUM subtypeRasters c) as [m|]; simpl.
    + exists m. split; [reflexivity | exact H].
    + exact H.
  - eexists. eexists. split; [apply calcTypeDisturbance_run|].
    intros c. rewrite Divide_const_cell by lra.
    unfold CellStatistics_MINIMUM. simpl. now destruct (subtypeRaster c).
Qed.

(** ** Disturbance Compositor *)

Lemma omul_comm (a b : option R) : Spec.omul a b = Spec.omul b a.
Proof. destruct a, b; simpl; try reflexivity. f_equal. ring. Qed.

Lemma omul_assoc (a b c : option R) :
  Spec.omul a (Spec.omul b c) = Spec.omul (Spec.omul a b) c.
Proof. destruct a, b, c; simpl; try reflexivity. f_equal. ring. Qed.

Lemma omul_1_r (a : option R) : Spec.omul a (Some 1) = a.
Proof. destruct a; simpl; [f_equal; ring | reflexivity]. Qed.

Lemma Times_cell (a b : raster) (c : cell) :
  Times a b c = Spec.omul (a c) (b c).
Proof. unfold Times, local2, Spec.omul. now destruct (a c), (b c). Qed.

Lemma fold_left_Times_cell (rs : list raster) (r : raster) (c : cell) :
  fold_left Times rs r c = Spec.omul (r c) (Spec.cell_product rs c).
Proof.
  revert r. induction rs as [|s rs IH]; intros r; simpl.
  - now rewrite omul_1_r.
  - rewrite IH, Times_cell. now rewrite omul_assoc.
Qed.

Lemma np_prod_cell (l : list raster) (c : cell) :
  np_prod l c = Spec.cell_product l c.
Proof.
  destruct l as [|r rs]; [reflexivity|]. simpl. apply fold_left_Times_cell.
Qed.

Lemma cell_product_app (l1 l2 : list raster) (c : cell) :
  Spec.cell_product (l1 ++ l2) c
  = Spec.omul (Spec.cell_product l1 c) (Spec.cell_product l2 c).
Proof.
  induction l1 as [|s l1 IH]; simpl.
  - destruct (Spec.cell_product l2 c); simpl; [f_equal; ring | reflexivity].
  - now rewrite IH, omul_assoc.
Qed.

Lemma cell_product_Permutation (l1 l2 : list raster) (c : cell) :
  Permutation l1 l2 -> Spec.cell_product l1 c = Spec.cell_product l2 c.
Proof.
  induction 1 as [|s l1 l2 _ IH|s t l|l1 l2 l3 _ IH1 _ IH2]; simpl.
  - reflexivity.
  - now rewrite IH.
  - rewrite !omul_assoc. now rewrite (omul_comm (t c) (s c)).
  - now rewrite IH1.
Qed.

Lemma rasterList2_app (dist_field : string) (l : list raster)
  (ag lakes : raster) :
  Cohqt.rasterList2 dist_field l ag lakes
  = l ++ Cohqt.rasterList2 dist_field [] ag lakes.
Proof. unfold Cohqt.rasterList2. now destruct (dist_field =? "GrSG_Dist")%string. Qed.

(** What [multiplyRasters] returns for the Pre and Post terms. *)
Lemma multiplyRasters_run (che : Cohqt.cheStandard) (dist_field T : string)
  (rasterList : list raster) (emptyRaster : raster) (ws : workspace)
  (ag lakes : raster) :
  T = "Pre"%string \/ T = "Post"%string ->
  assoc (Cohqt.os_path_join (Cohqt.InputDataPath che) "GrSG_Ag_Index")
        (rasters ws) = Some ag ->
  assoc (Cohqt.os_path_join (Cohqt.InputDataPath che) "Lakes")
        (rasters ws) = Some lakes ->
  Cohqt.multiplyRasters che dist_field rasterList T emptyRaster ws
  = (Return (np_prod (Cohqt.rasterList2 dist_field rasterList ag lakes)), ws).
Proof.
  intros HT Hag Hlakes.
  unfold Cohqt.multiplyRasters, Cohqt.AgricultureIndex, Cohqt.Lakes, bind, Raster.
  rewrite Hag, Hlakes.
  destruct HT as [-> | ->]; reflexivity.
Qed.

(** The rounding errors of a left-to-right product accumulate to at most
    [(1 + u) ^ n - 1], relative to the exact product, over [n]
    multiplications. *)
Lemma rounded_fold_bound (rnd : R -> R) (u : R) :
  0 <= u ->
  (forall x : R, Rabs (rnd x - x) <= u * Rabs x) ->
  forall (xs : list R) (acc A : R) (k : nat),
    Rabs (acc - A) <= ((1 + u) ^ k - 1) * Rabs A ->
    Rabs (fold_left (fun x y => rnd (x * y)) xs acc
          - A * fold_right Rmult 1 xs)
    <= ((1 + u) ^ (k + List.length xs) - 1)
       * Rabs (A * fold_right Rmult 1 xs).
Proof.
  intros Hu Hrnd. induction xs as [|x xs IH]; intros acc A k Hacc.
  - simpl. rewrite Nat.add_0_r, Rmult_1_r. exact Hacc.
  - simpl.
    replace (A * (x * fold_right Rmult 1 xs))
      with ((A * x) * fold_right Rmult 1 xs) by ring.
    replace (k + S (List.length xs))%nat
      with (S k + List.length xs)%nat by lia.
    apply IH.
    pose proof (Hrnd (acc * x)) as H1.
    assert (H2 : Rabs (acc * x - A * x)
                 <= ((1 + u) ^ k - 1) * Rabs (A * x)).
    { replace (acc * x - A * x) with ((acc - A) * x) by ring.
      rewrite !Rabs_mult. pose proof (Rabs_pos x) as Hx.
      replace (((1 + u) ^ k - 1) * (Rabs A * Rabs x))
        with ((((1 + u) ^ k - 1) * Rabs A) * Rabs x) by ring.
      now apply Rmult_le_compat_r. }
    assert (H3 : Rabs (acc * x)
                 <= Rabs (A * x) + Rabs (acc * x - A * x)).
    { replace (acc * x) with (A * x + (acc * x - A * x)) at 1 by ring.
      apply Rabs_triang. }
    assert (H4 : Rabs (rnd (acc * x) - A * x)
                 <= Rabs (rnd (acc * x) - acc * x)
                    + Rabs (acc * x - A * x)).
    { replace (rnd (acc * x) - A * x)
        with ((rnd (acc * x) - acc * x) + (acc * x - A * x)) by ring.
      apply Rabs_triang. }
    assert (Hp : 1 <= (1 + u) ^ k) by (apply pow_R1_Rle; lra).
    pose proof (Rabs_pos (A * x)) as Ha.
    change ((1 + u) ^ S k) with ((1 + u) * (1 + u) ^ k).
    assert (H5 : u * Rabs (acc * x)
                 <= u * (Rabs (A * x) + Rabs (acc * x - A * x)))
      by (apply Rmult_le_compat_l; lra).
    assert (H6 : (1 + u) * Rabs (acc * x - A * x)
                 <= (1 + u) * (((1 + u) ^ k - 1) * Rabs (A * x)))
      by (apply Rmult_le_compat_l; lra).
    nra.
Qed.

Lemma rounded_product_bound (rnd : R -> R) (u : R) (values : list R) :
  0 <= u ->
  (forall x : R, Rabs (rnd x - x) <= u * Rabs x) ->
  Rabs (Spec.rounded_product rnd values - fold_right Rmult 1 values)
  <= ((1 + u) ^ (List.length values - 1) - 1)
     * Rabs (fold_right Rmult 1 values).
Proof.
  intros Hu Hrnd. unfold Spec.rounded_product, np_prod_of.
  destruct values as [|v vs].
  - simpl. replace (1 - 1) with 0 by ring. rewrite Rabs_R0. lra.
  - pose proof (rounded_fold_bound rnd u Hu Hrnd vs v v 0) as H.
    simpl in H. simpl. rewrite Nat.sub_0_r. apply H.
    replace (v - v) with 0 by ring. rewrite Rabs_R0. lra.
Qed.

Lemma cell_product_values (l : list raster) (c : cell) (P : R) :
  Spec.cell_product l c = Some P ->
  P = fold_right Rmult 1 (Spec.cell_values l c)
  /\ List.length (Spec.cell_values l c) = List.length l.
Proof.
  revert P. induction l as [|s l IH]; intros P.
  - simpl. intros [= <-]. split; reflexivity.
  - unfold Spec.cell_values. simpl.
    destruct (s c) as [v|]; [|discriminate].
    destruct (Spec.cell_product l c) as [Q|]; [|discriminate].
    simpl. intros [= <-]. destruct (IH Q eq_refl) as [HQ Hlen].
    unfold Spec.cell_values in HQ, Hlen. split; [now rewrite <- HQ|].
    now rewrite Hlen.
Qed.

(** C5 as stated fails on floating-point cells: the reduction of [np.prod]
    runs from left to right, and for three Type surfaces that hold 0.3, 0.7
    and 0.1 at a cell the product differs from that of the same surfaces
    listed as 0.3, 0.1, 0.7, in double precision (0.021000000000000001
    against 0.020999999999999998) and in single precision alike. *)
Lemma np_prod_order_matters :
  Permutation CellSamples.type_values CellSamples.type_values_swapped
  /\ np_prod_of PrimFloat.mul CellSamples.one
       (Cohqt.rasterList2 "MDP_Dist" CellSamples.type_values
          CellSamples.ag_value CellSamples.lakes_value)
     <> np_prod_of PrimFloat.mul CellSamples.one
          (Cohqt.rasterList2 "MDP_Dist" CellSamples.type_values_swapped
             CellSamples.ag_value CellSamples.lakes_value)
  /\ np_prod_of CellSamples.mul32 (CellSamples.to_binary32 CellSamples.one)
       (Cohqt.rasterList2 "MDP_Dist"
          (map CellSamples.to_binary32 CellSamples.type_values)
          (CellSamples.to_binary32 CellSamples.ag_value)
          (CellSamples.to_binary32 CellSamples.lakes_value))
     <> np_prod_of CellSamples.mul32
          (CellSamples.to_binary32 CellSamples.one)
          (Cohqt.rasterList2 "MDP_Dist"
             (map CellSamples.to_binary32 CellSamples.type_values_swapped)
             (CellSamples.to_binary32 CellSamples.ag_value)
             (CellSamples.to_binary32 CellSamples.lakes_value)).
Proof.
  split; [|split].
  - unfold CellSamples.type_values, CellSamples.type_values_swapped.
    apply perm_skip. apply perm_swap.
  - intros H.
    apply (f_equal
             (fun v =>
                PrimFloat.eqb v
                  (np_prod_of PrimFloat.mul CellSamples.one
                     (Cohqt.rasterList2 "MDP_Dist" CellSamples.type_values
                        CellSamples.ag_value CellSamples.lakes_value))))
      in H.
    vm_compute in H. discriminate.
  - intros H. vm_compute in H. discriminate.
Qed.

(** C5, up to rounding: for the Pre and Post terms [multiplyRasters]
    returns, at every cell, the product of all Type surfaces and of the
    background indices the distance field selects.  Listing the Type
    surfaces in another order leaves the cells that hold NoData the same,
    and moves a value by rounding only: whatever the order, the
    left-to-right product of the cell's values, each multiplication rounded
    with a relative error of at most [u], is within [(1 + u) ^ n - 1] of the
    exact product, relatively, for the [n] multiplications of the
    reduction - and equal to it in exact arithmetic.  For an empty list the
    result is the product of the background indices alone. *)
Theorem multiplyRasters_product (che : Cohqt.cheStandard)
  (dist_field T : string) (rasterList : list raster) (emptyRaster : raster)
  (ws : workspace) (ag lakes : raster) :
  T = "Pre"%string \/ T = "Post"%string ->
  assoc (Cohqt.os_path_join (Cohqt.InputDataPath che) "GrSG_Ag_Index")
        (rasters ws) = Some ag ->
  assoc (Cohqt.os_path_join (Cohqt.InputDataPath che) "Lakes")
        (rasters ws) = Some lakes ->
  exists anthroRaster : raster,
    Cohqt.multiplyRasters che dist_field rasterList T emptyRaster ws
    = (Return anthroRaster, ws)
    /\ (forall c : cell,
          anthroRaster c
          = Spec.omul
              (Spec.cell_product rasterList c)
              (Spec.cell_product
                 (Cohqt.rasterList2 dist_field [] ag lakes) c))
    /\ (forall rasterList' : list raster,
          Permutation rasterList rasterList' ->
          exists anthroRaster' : raster,
            Cohqt.multiplyRasters che dist_field rasterList' T emptyRaster ws
            = (Return anthroRaster', ws)
            /\ forall c : cell,
                 Spec.present anthroRaster' c = Spec.present anthroRaster c
                 /\ forall (rnd : R -> R) (u P : R),
                      0 <= u ->
                      (forall x : R, Rabs (rnd x - x) <= u * Rabs x) ->
                      anthroRaster c = Some P ->
                      Rabs
                        (Spec.rounded_product rnd
                           (Spec.cell_values
                              (Cohqt.rasterList2 dist_field rasterList'
                                 ag lakes) c)
                         - P)
                      <= ((1 + u)
                          ^ (List.length
                               (Cohqt.rasterList2 dist_field rasterList
                                  ag lakes) - 1) - 1)
                         * Rabs P)
    /\ (rasterList = [] ->
        forall c : cell,
          anthroRaster c
          = if (dist_field =? "GrSG_Dist")%string
            then Spec.omul (ag c) (lakes c)
            else lakes c).
Proof.
  intros HT Hag Hlakes.
  eexists. split; [eapply multiplyRasters_run; eassumption|].
  split; [|split].
  - intros c. rewrite np_prod_cell, rasterList2_app. apply cell_product_app.
  - intros l' Hperm. eexists. split; [eapply multiplyRasters_run; eassumption|].
    intros c.
    assert (Hsame :
              Spec.cell_product (Cohqt.rasterList2 dist_field l' ag lakes) c
              = Spec.cell_product
                  (Cohqt.rasterList2 dist_field rasterList ag lakes) c).
    { rewrite (rasterList2_app dist_field l' ag lakes).
      rewrite (rasterList2_app dist_field rasterList ag lakes).
      apply cell_product_Permutation. apply Permutation_app_tail.
      now apply Permutation_sym. }
    split.
    + unfold Spec.present. now rewrite !np_prod_cell, Hsame.
    + intros rnd u P Hu Hrnd HP.
      rewrite np_prod_cell, <- Hsame in HP.
      destruct (cell_product_values _ c P HP) as [-> Hlen].
      assert (Hl : List.length
                     (Cohqt.rasterList2 dist_field rasterList ag lakes)
                   = List.length
                       (Spec.cell_values
                          (Cohqt.rasterList2 dist_field l' ag lakes) c)).
      { rewrite Hlen.
        rewrite (rasterList2_app dist_field l' ag lakes).
        rewrite (rasterList2_app dist_field rasterList ag lakes).
        rewrite !length_app. f_equal. now apply Permutation_length. }
      rewrite Hl. now apply rounded_product_bound.
  - intros -> c. rewrite np_prod_cell. unfold Cohqt.rasterList2.
    destruct (dist_field =? "GrSG_Dist")%string; simpl.
    + now rewrite omul_1_r.
    + now rewrite omul_1_r.
Qed.

Lemma multiplyRasters_product_witness :
  (exists anthroRaster anthroRaster' : raster,
     Cohqt.multiplyRasters Samples.che0 "GrSG_Dist"
       [Samples.road_type_surface; const (7 / 10)] "Pre" (const 0)
       Samples.road_ws
     = (Return anthroRaster, Samples.road_ws)
     /\ Cohqt.multiplyRasters Samples.che0 "GrSG_Dist"
          [const (7 / 10); Samples.road_type_surface] "Pre" (const 0)
          Samples.road_ws
        = (Return anthroRaster', Samples.road_ws)
     /\ forall (c : cell) (P : R),
          Spec.present anthroRaster' c = Spec.present anthroRaster c
          /\ (anthroRaster c = Some P ->
              Rabs
                (Spec.rounded_product (fun x => x + x / 8)
                   (Spec.cell_values
                      (Cohqt.rasterList2 "GrSG_Dist"
                         [const (7 / 10); Samples.road_type_surface]
                         Samples.ag_index Samples.lakes) c)
                 - P)
              <= ((1 + 1 / 8) ^ 3 - 1) * Rabs P))
  /\ (exists anthroRaster : raster,
        Cohqt.multiplyRasters Samples.che0 "GrSG_Dist" [] "Pre" (const 0)
          Samples.road_ws
        = (Return anthroRaster, Samples.road_ws)
        /\ forall c : cell,
             anthroRaster c = Spec.omul (Samples.ag_index c) (Samples.lakes c)).
Proof.
  split.
  - destruct (multiplyRasters_product Samples.che0 "GrSG_Dist" "Pre"
                [Samples.road_type_surface; const (7 / 10)] (const 0)
                Samples.road_ws Samples.ag_index Samples.lakes
                (or_introl eq_refl) eq_refl eq_refl)
      as (r & Hrun & _ & Hperm & _).
    destruct (Hperm [const (7 / 10); Samples.road_type_surface]
                (perm_swap _ _ _))
      as (r' & Hrun' & Hcells).
    exists r, r'. split; [exact Hrun|]. split; [exact Hrun'|].
    intros c P. destruct (Hcells c) as [Hpresent Hbound].
    split; [exact Hpresent|]. intros HP.
    apply (Hbound (fun x => x + x / 8) (1 / 8) P); [lra | | exact HP].
    intros x. replace (x + x / 8 - x) with (1 / 8 * x) by field.
    rewrite Rabs_mult. rewrite (Rabs_pos_eq (1 / 8)) by lra. lra.
  - destruct (multiplyRasters_product Samples.che0 "GrSG_Dist" "Pre"
                [] (const 0) Samples.road_ws Samples.ag_index Samples.lakes
                (or_introl eq_refl) eq_refl eq_refl)
      as (r & Hrun & _ & _ & Hempty).
    exists r. split; [exact Hrun|]. intros c. exact (Hempty eq_refl c).
Defined.

(** ** Lek Uplift Adjuster *)

Lemma Con_where_VALUE_eq_0 (inRaster t f : raster) (c : cell) :
  Con_where inRaster t f (VALUE_eq 0) c =
  match inRaster c with
  | None => None
  | Some v => if Reqb v 0 then t c else f c
  end.
Proof. reflexivity. Qed.

(** C7: for a binary lek-presence surface, [applyLekUpliftModifierPre] holds,
    at every cell where lek-presence is 1, the value of the lek-presence
    layer itself (the constant 1), and elsewhere the input habitat quality;
    [applyLekUpliftModifierPost] holds the lek disturbance modifier where
    lek-presence is 1 and the post-project seasonal value elsewhere. *)
Theorem applyLekUpliftModifier_cells
  (preSeasonalHabitat postSeasonalHabitat LekPresenceRaster
     LekDisturbanceModifier : raster) :
  (forall c : cell,
     LekPresenceRaster c = Some 0 \/ LekPresenceRaster c = Some 1) ->
  forall c : cell,
    (LekPresenceRaster c = Some 1 ->
     Cohqt.applyLekUpliftModifierPre preSeasonalHabitat LekPresenceRaster c
     = LekPresenceRaster c
     /\ Cohqt.applyLekUpliftModifierPre preSeasonalHabitat LekPresenceRaster c
        = Some 1
     /\ Cohqt.applyLekUpliftModifierPost postSeasonalHabitat
          LekPresenceRaster LekDisturbanceModifier c
        = LekDisturbanceModifier c)
    /\ (LekPresenceRaster c <> Some 1 ->
        Cohqt.applyLekUpliftModifierPre preSeasonalHabitat LekPresenceRaster c
        = preSeasonalHabitat c
        /\ Cohqt.applyLekUpliftModifierPost postSeasonalHabitat
             LekPresenceRaster LekDisturbanceModifier c
           = postSeasonalHabitat c).
Proof.
  intros Hbin c.
  unfold Cohqt.applyLekUpliftModifierPre, Cohqt.applyLekUpliftModifierPost.
  cbv zeta. rewrite !Con_where_VALUE_eq_0.
  split.
  - intros H1. rewrite H1. rewrite Reqb_false by lra. auto.
  - intros Hn1. destruct (Hbin c) as [H0 | H1]; [|contradiction].
    rewrite H0. rewrite Reqb_true by reflexivity. auto.
Qed.

Lemma applyLekUpliftModifier_cells_witness :
  (Samples.lek (0, 0)%Z = Some 1 ->
   Cohqt.applyLekUpliftModifierPre Samples.ag_index Samples.lek (0, 0)%Z
   = Samples.lek (0, 0)%Z
   /\ Cohqt.applyLekUpliftModifierPre Samples.ag_index Samples.lek (0, 0)%Z
      = Some 1
   /\ Cohqt.applyLekUpliftModifierPost Samples.ag_index Samples.lek
        Samples.lakes (0, 0)%Z
      = Samples.lakes (0, 0)%Z)
  /\ (Samples.lek (0, 0)%Z <> Some 1 ->
      Cohqt.applyLekUpliftModifierPre Samples.ag_index Samples.lek (0, 0)%Z
      = Samples.ag_index (0, 0)%Z
      /\ Cohqt.applyLekUpliftModifierPost Samples.ag_index Samples.lek
           Samples.lakes (0, 0)%Z
         = Samples.ag_index (0, 0)%Z).
Proof.
  apply (applyLekUpliftModifier_cells Samples.ag_index Samples.ag_index
           Samples.lek Samples.lakes).
  intros c. unfold Samples.lek.
  destruct ((fst c =? 0)%Z && (snd c =? 0)%Z); [right | left]; reflexivity.
Defined.

(** Where the lek-presence layer is NoData both adjusters give NoData. *)
Lemma applyLekUpliftModifier_NoData
  (seasonal LekPresenceRaster LekDisturbanceModifier : raster) (c : cell) :
  LekPresenceRaster c = None ->
  Cohqt.applyLekUpliftModifierPre seasonal LekPresenceRaster c = None
  /\ Cohqt.applyLekUpliftModifierPost seasonal LekPresenceRaster
       LekDisturbanceModifier c = None.
Proof.
  intros H.
  unfold Cohqt.applyLekUpliftModifierPre, Cohqt.applyLekUpliftModifierPost.
  cbv zeta. rewrite !Con_where_VALUE_eq_0, H. auto.
Qed.

(** ** The masked mule-deer combination *)

Lemma anthro_open_only_cell (BWMD_Open anthro_open : raster) (c : cell) :
  Tools.anthro_open_only BWMD_Open anthro_open c =
  match BWMD_Open c with
  | Some m => if Reqb m 1 then anthro_open c else Some 1
  | None => None
  end.
Proof.
  unfold Tools.anthro_open_only, Con, EqualTo, local2, const, bit.
  destruct (BWMD_Open c) as [m|]; [|reflexivity].
  destruct (Reqb m 1).
  - rewrite Reqb_false by lra. reflexivity.
  - rewrite Reqb_true by reflexivity. reflexivity.
Qed.

(** C8: the combined mule-deer surface is, at every cell, the minimum of the
    PJ-context surface and the open-context surface after the latter has
    been set to 1 at every cell whose open-habitat mask value is not 1
    (NoData where either of the two has none). *)
Theorem combine_pj_open_minimum (BWMD_Open anthro_pj anthro_open : raster)
  (c : cell) :
  Tools.combine_pj_open BWMD_Open anthro_pj anthro_open c =
  match Tools.anthro_open_only BWMD_Open anthro_open c, anthro_pj c with
  | Some o, Some p => Some (Rmin o p)
  | _, _ => None
  end
  /\ Tools.anthro_open_only BWMD_Open anthro_open c =
     match BWMD_Open c with
     | Some m => if Reqb m 1 then anthro_open c else Some 1
     | None => None
     end.
Proof.
  split; [|apply anthro_open_only_cell].
  unfold Tools.combine_pj_open. cbv zeta.
  unfold Con at 1. unfold LessThan, local2, bit.
  destruct (Tools.anthro_open_only BWMD_Open anthro_open c) as [o|];
    [|reflexivity].
  destruct (anthro_pj c) as [p|]; [|reflexivity].
  unfold Rltb, Rmin.
  destruct (Rlt_dec o p) as [Hlt|Hnlt].
  - rewrite Reqb_false by lra.
    destruct (Rle_dec o p); [reflexivity | lra].
  - rewrite Reqb_true by reflexivity.
    destruct (Rle_dec o p) as [Hle|Hnle]; [|reflexivity].
    f_equal. lra.
Qed.

(** ** Zonal Aggregator *)

Lemma Rsum_app (l1 l2 : list R) :
  Hqtlib.Rsum (l1 ++ l2) = Hqtlib.Rsum l1 + Hqtlib.Rsum l2.
Proof.
  induction l1 as [|x l1 IH]; simpl; [ring|].
  unfold Hqtlib.Rsum in *. simpl. rewrite IH. ring.
Qed.

Lemma Rsum_Permutation (l1 l2 : list R) :
  Permutation l1 l2 -> Hqtlib.Rsum l1 = Hqtlib.Rsum l2.
Proof.
  unfold Hqtlib.Rsum.
  induction 1 as [|x l1 l2 _ IH|x y l|l1 l2 l3 _ IH1 _ IH2]; simpl.
  - reflexivity.
  - now rewrite IH.
  - ring.
  - now rewrite IH1.
Qed.

Lemma Rsum_constant (A : Type) (f : A -> R) (k : R) (l : list A) :
  Forall (fun a => f a = k) l ->
  Hqtlib.Rsum (map f l) = k * INR (List.length l).
Proof.
  unfold Hqtlib.Rsum.
  induction 1 as [|a l Ha _ IH]; [simpl; ring|].
  change (List.length (a :: l)) with (S (List.length l)).
  rewrite S_INR. simpl. rewrite Ha, IH. ring.
Qed.

(** After NoData has been replaced by 0 and the surface resampled, every
    cell of a zone holds a value. *)
Lemma data_values_filled (nearest : cell -> cell) (a : raster)
  (cells : list cell) :
  Hqtlib.data_values
    (Resample_NEAREST nearest (Con (IsNull a) (const 0) a)) cells
  = map (fun c => Spec.zero_filled a (nearest c)) cells.
Proof.
  unfold Hqtlib.data_values.
  induction cells as [|c cells IH]; [reflexivity|].
  simpl. rewrite IH. f_equal.
  unfold Resample_NEAREST, Con, IsNull, const, Spec.zero_filled.
  destruct (a (nearest c)) as [v|].
  - now rewrite Reqb_true.
  - rewrite Reqb_false by lra. reflexivity.
Qed.

Lemma assoc_put_same (V : Type) (k : string) (v : V) (l : list (string * V)) :
  assoc k (put k v l) = Some v.
Proof. unfold put. simpl. now rewrite String.eqb_refl. Qed.

Lemma remove_key_idem (V : Type) (k : string) (l : list (string * V)) :
  remove_key k (remove_key k l) = remove_key k l.
Proof.
  induction l as [|[k' v] l IH]; [reflexivity|].
  simpl. destruct (String.eqb k k') eqn:E; [exact IH|].
  simpl. rewrite E. now rewrite IH.
Qed.

Lemma CalcZonalStats_run (nearest : cell -> cell)
  (in_zone_data : list Hqtlib.zone) (zone_field : string) (a : raster)
  (out_table : string) (ws : workspace) :
  Hqtlib.CalcZonalStats nearest in_zone_data zone_field a out_table ws =
  (Return tt,
   mkWorkspace
     (remove_key "sub_raster" (rasters ws))
     (put out_table
          (Hqtlib.ZonalStatisticsAsTable_MEAN in_zone_data
             (Resample_NEAREST nearest (Con (IsNull a) (const 0) a)))
          (tables ws))
     (feature_classes ws) (messages ws)).
Proof.
  unfold Hqtlib.CalcZonalStats. cbv zeta.
  unfold bind, save, Raster, save_table, Delete_management. simpl.
  now rewrite remove_key_idem.
Qed.

Lemma ZonalStatisticsAsTable_MEAN_row (nearest : cell -> cell)
  (zones : list Hqtlib.zone) (a : raster) (id : Z) (cells : list cell) :
  In (id, cells) zones -> cells <> [] ->
  In (id, Spec.zonal_mean nearest a cells)
     (Hqtlib.ZonalStatisticsAsTable_MEAN zones
        (Resample_NEAREST nearest (Con (IsNull a) (const 0) a))).
Proof.
  intros Hin Hne. unfold Hqtlib.ZonalStatisticsAsTable_MEAN.
  apply in_flat_map. exists (id, cells). split; [exact Hin|].
  simpl. rewrite data_values_filled.
  destruct cells as [|c cells]; [contradiction|].
  simpl map. cbv iota. left. unfold Spec.zonal_mean.
  simpl map. now rewrite !length_map.
Qed.

Lemma zonal_mean_half (nearest : cell -> cell) (a : raster)
  (cells nodata hundred : list cell) :
  cells <> [] ->
  Permutation cells (nodata ++ hundred) ->
  Forall (fun c => a (nearest c) = None) nodata ->
  Forall (fun c => a (nearest c) = Some 100) hundred ->
  List.length nodata = List.length hundred ->
  Spec.zonal_mean nearest a cells = 50.
Proof.
  intros Hne Hperm Hnd Hh Hlen. unfold Spec.zonal_mean.
  rewrite (Rsum_Permutation _ _
             (Permutation_map (fun c => Spec.zero_filled a (nearest c)) Hperm)).
  rewrite (Permutation_length Hperm), map_app, Rsum_app, length_app, plus_INR.
  rewrite (Rsum_constant _ _ 0 nodata),
          (Rsum_constant _ _ 100 hundred).
  - rewrite Hlen.
    assert (Hpos : INR (List.length hundred) <> 0).
    { apply not_0_INR. intros H0. apply Hne.
      apply Permutation_length in Hperm. rewrite length_app in Hperm.
      destruct cells; [reflexivity | simpl in Hperm; lia]. }
    field. lra.
  - eapply Forall_impl; [|exact Hh]. intros c Hc.
    unfold Spec.zero_filled. now rewrite Hc.
  - eapply Forall_impl; [|exact Hnd]. intros c Hc.
    unfold Spec.zero_filled. now rewrite Hc.
Qed.

(** C2: [CalcZonalStats] always completes; for every zone with a
    non-empty footprint the table it writes holds the zone's mean over all
    of its cells, NoData cells counted as 0 (they are not left out of the
    count); a zone of which half the cells are NoData and half hold 100
    gets mean 50. *)
Theorem CalcZonalStats_NoData_counts_as_0 (nearest : cell -> cell)
  (in_zone_data : list Hqtlib.zone) (zone_field : string)
  (in_value_raster : raster) (out_table : string) (ws : workspace)
  (id : Z) (cells : list cell) :
  In (id, cells) in_zone_data -> cells <> [] ->
  exists (ws' : workspace) (t : zonal_table),
    Hqtlib.CalcZonalStats nearest in_zone_data zone_field in_value_raster
      out_table ws
    = (Return tt, ws')
    /\ assoc out_table (tables ws') = Some t
    /\ In (id, Spec.zonal_mean nearest in_value_raster cells) t
    /\ (forall nodata hundred : list cell,
          Permutation cells (nodata ++ hundred) ->
          Forall (fun c => in_value_raster (nearest c) = None) nodata ->
          Forall (fun c => in_value_raster (nearest c) = Some 100) hundred ->
          List.length nodata = List.length hundred ->
          In (id, 50) t).
Proof.
  intros Hin Hne. eexists. eexists.
  split; [apply CalcZonalStats_run|]. cbn [tables].
  split; [apply assoc_put_same|].
  split; [now apply ZonalStatisticsAsTable_MEAN_row|].
  intros nodata hundred Hperm Hnd Hh Hlen.
  rewrite <- (zonal_mean_half nearest in_value_raster cells nodata hundred)
    by assumption.
  now apply ZonalStatisticsAsTable_MEAN_row.
Qed.

Lemma CalcZonalStats_NoData_counts_as_0_witness :
  exists (ws' : workspace) (t : zonal_table),
    Hqtlib.CalcZonalStats (fun c => c) [Samples.zone7] "Map_Unit_ID"
      Samples.half_surface "GrSG_Stats_Pre_Winter" Samples.empty_ws
    = (Return tt, ws')
    /\ assoc "GrSG_Stats_Pre_Winter" (tables ws') = Some t
    /\ In (7%Z, 50) t.
Proof.
  destruct (CalcZonalStats_NoData_counts_as_0 (fun c => c) [Samples.zone7]
              "Map_Unit_ID" Samples.half_surface "GrSG_Stats_Pre_Winter"
              Samples.empty_ws 7%Z [(-1, 0); (0, 0)]%Z)
    as (ws' & t & Hrun & Ht & _ & Hhalf).
  - left. reflexivity.
  - discriminate.
  - exists ws', t. split; [exact Hrun|]. split; [exact Ht|].
    apply (Hhalf [(-1, 0)%Z] [(0, 0)%Z]).
    + apply Permutation_refl.
    + repeat constructor.
    + repeat constructor.
    + reflexivity.
Defined.

(** The sample zone: one NoData cell, one cell of 100, mean 50. *)
Lemma zone7_mean_50 :
  Spec.zonal_mean (fun c => c) Samples.half_surface (snd Samples.zone7)
  = 50.
Proof.
  apply (zonal_mean_half (fun c => c) Samples.half_surface
           (snd Samples.zone7) [(-1, 0)%Z] [(0, 0)%Z]).
  - discriminate.
  - apply Permutation_refl.
  - repeat constructor.
  - repeat constructor.
  - reflexivity.
Qed.

(** ** Credit/Debit Calculator *)

Lemma assoc_app (V : Type) (k : string) (l1 l2 : list (string * V)) :
  assoc k (l1 ++ l2)
  = match assoc k l1 with Some v => Some v | None => assoc k l2 end.
Proof.
  induction l1 as [|[k' v'] l1 IH]; [reflexivity|].
  simpl. destruct (String.eqb k k'); [reflexivity | exact IH].
Qed.

Lemma assoc_app_found (V : Type) (k : string) (v : V)
  (l1 l2 : list (string * V)) :
  assoc k l1 = Some v -> assoc k (l1 ++ l2) = Some v.
Proof.
  induction l1 as [|[k' v'] l1 IH]; simpl; [discriminate|].
  destruct (String.eqb k k'); [trivial | exact IH].
Qed.

Lemma assoc_app_new (V : Type) (k : string) (v : V) (l : list (string * V)) :
  assoc k l = None -> assoc k (l ++ [(k, v)]) = Some v.
Proof.
  induction l as [|[k' v'] l IH]; simpl.
  - now rewrite String.eqb_refl.
  - destruct (String.eqb k k'); [discriminate | exact IH].
Qed.

Lemma assoc_set_field_same (k : string) (v : option PrimFloat.float)
  (row : feature_row) :
  assoc k row <> None -> assoc k (Cohqt.set_field k v row) = Some v.
Proof.
  induction row as [|[k' v'] row IH]; simpl; [congruence|].
  rewrite (String.eqb_sym k' k).
  destruct (String.eqb k k') eqn:E; simpl.
  - now rewrite String.eqb_refl.
  - rewrite E. exact IH.
Qed.

Lemma assoc_set_field_present (k k' : string) (v : option PrimFloat.float)
  (row : feature_row) :
  assoc k' row <> None -> assoc k' (Cohqt.set_field k v row) <> None.
Proof.
  induction row as [|[k0 v0] row IH]; simpl; [congruence|].
  destruct (String.eqb k0 k) eqn:E; simpl.
  - apply String.eqb_eq in E. subst k0.
    destruct (String.eqb k' k); [congruence | exact IH].
  - destruct (String.eqb k' k0); [congruence | exact IH].
Qed.

Lemma updateRow_out (f0 f1 f2 out : string)
  (v0 v1 v2 v3 : option PrimFloat.float) (row : feature_row) :
  assoc out row <> None ->
  assoc out (Cohqt.updateRow [f0; f1; f2; out] [v0; v1; v2; v3] row)
  = Some v3.
Proof.
  intros H. unfold Cohqt.updateRow. simpl.
  apply assoc_set_field_same.
  now repeat apply assoc_set_field_present.
Qed.

Lemma debit_value_app (pre_field post_field : string)
  (row extra : feature_row) (v : PrimFloat.float) :
  Spec.debit_value pre_field post_field row = Some v ->
  Spec.debit_value pre_field post_field (row ++ extra) = Some v.
Proof.
  unfold Spec.debit_value.
  destruct (assoc "Acres" row) as [[x0|]|] eqn:E0; try discriminate.
  destruct (assoc pre_field row) as [[x1|]|] eqn:E1; try discriminate.
  destruct (assoc post_field row) as [[x2|]|] eqn:E2; try discriminate.
  rewrite (assoc_app_found _ _ _ _ extra E0),
          (assoc_app_found _ _ _ _ extra E1),
          (assoc_app_found _ _ _ _ extra E2).
  trivial.
Qed.

Lemma AddField_management_keeps (rows : list feature_row)
  (fieldName pre_field post_field : string) :
  Forall2
    (fun row row' =>
       assoc fieldName row' <> None
       /\ forall v : PrimFloat.float,
            Spec.debit_value pre_field post_field row = Some v ->
            Spec.debit_value pre_field post_field row' = Some v)
    rows (Cohqt.AddField_management rows fieldName).
Proof.
  induction rows as [|row rows IH]; simpl; constructor; [|exact IH].
  destruct (assoc fieldName row) as [x|] eqn:E.
  - split; [congruence | trivial].
  - split; [now rewrite (assoc_app_new _ fieldName None row E)|].
    intros v Hv. now apply debit_value_app.
Qed.

Lemma debitRow_run (pre_field post_field out_field : string)
  (row : feature_row) (v : PrimFloat.float) :
  Spec.debit_value pre_field post_field row = Some v ->
  assoc out_field row <> None ->
  exists row' : feature_row,
    Cohqt.debitRow pre_field post_field out_field row = Return (row', v)
    /\ assoc out_field row' = Some (Some v).
Proof.
  unfold Spec.debit_value, Cohqt.debitRow.
  destruct (assoc "Acres" row) as [[x0|]|]; try discriminate.
  destruct (assoc pre_field row) as [[x1|]|]; try discriminate.
  destruct (assoc post_field row) as [[x2|]|]; try discriminate.
  intros Hv Hout. inversion Hv; subst v.
  destruct (assoc out_field row) as [x3|] eqn:E3; [|congruence].
  eexists. split; [reflexivity|].
  apply updateRow_out. congruence.
Qed.

Section CursorLoop.

Variable float_str : PrimFloat.float -> string.
Variables DebitProjectArea pre_field post_field out_field : string.

(** What the cursor loop does to the rows it has still to visit. *)
Lemma cursorLoop_run (rest done : list feature_row) (ws : workspace) :
  assoc DebitProjectArea (feature_classes ws) = Some (done ++ rest) ->
  Forall
    (fun row =>
       assoc out_field row <> None
       /\ Spec.debit_value pre_field post_field row <> None)
    rest ->
  exists (ws' : workspace) (rows' : list feature_row),
    Cohqt.cursorLoop float_str DebitProjectArea pre_field post_field
      out_field done rest ws = (Return tt, ws')
    /\ assoc DebitProjectArea (feature_classes ws') = Some (done ++ rows')
    /\ Forall2
         (fun row row' =>
            exists v : PrimFloat.float,
              Spec.debit_value pre_field post_field row = Some v
              /\ assoc out_field row' = Some (Some v))
         rest rows'
    /\ messages ws'
       = messages ws
         ++ Spec.debit_messages float_str pre_field post_field rest.
Proof.
  revert done ws.
  induction rest as [|row rest IH]; intros done ws Hfc Hok.
  - exists ws, []. simpl. repeat split; try assumption.
    + constructor.
    + now rewrite app_nil_r.
  - inversion Hok as [|? ? [Hout Hval] Hok']; subst.
    destruct (Spec.debit_value pre_field post_field row) as [v|] eqn:Ev;
      [|congruence].
    destruct (debitRow_run pre_field post_field out_field row v Ev Hout)
      as (row' & Hrun & Hrow').
    simpl. rewrite Hrun.
    unfold bind at 1. unfold put_rows at 1.
    unfold bind at 1. unfold AddMessage at 1.
    match goal with
    | |- context [Cohqt.cursorLoop _ _ _ _ _ _ _ ?w] =>
        destruct (IH (done ++ [row']) w) as (ws' & rows' & Hloop & Hfc' & Hall & Hmsg)
    end.
    + cbn [feature_classes]. rewrite assoc_put_same.
      now rewrite <- app_assoc.
    + exact Hok'.
    + exists ws', (row' :: rows'). split; [exact Hloop|].
      split; [now rewrite Hfc', <- app_assoc|].
      split.
      * constructor; [|exact Hall]. exists v. now split.
      * rewrite Hmsg. cbn [messages].
        unfold Spec.debit_messages. simpl. rewrite Ev.
        now rewrite <- app_assoc.
Qed.

End CursorLoop.

Section CursorLoopStops.

Variable float_str : PrimFloat.float -> string.
Variables DebitProjectArea pre_field post_field out_field : string.
Variable bad : feature_row.
Variable rest : list feature_row.
Variable e : exn.

Hypothesis Hbad :
  Cohqt.debitRow pre_field post_field out_field bad = Raise e.

(** The cursor loop stops at the first row that raises: the rows before it
    are written and logged, the row and those after it are left alone. *)
Lemma cursorLoop_stops (good done : list feature_row) (ws : workspace) :
  assoc DebitProjectArea (feature_classes ws)
  = Some (done ++ good ++ bad :: rest) ->
  Forall
    (fun row =>
       assoc out_field row <> None
       /\ Spec.debit_value pre_field post_field row <> None)
    good ->
  exists (ws' : workspace) (good' : list feature_row),
    Cohqt.cursorLoop float_str DebitProjectArea pre_field post_field
      out_field done (good ++ bad :: rest) ws = (Raise e, ws')
    /\ assoc DebitProjectArea (feature_classes ws')
       = Some (done ++ good' ++ bad :: rest)
    /\ Forall2
         (fun row row' =>
            exists v : PrimFloat.float,
              Spec.debit_value pre_field post_field row = Some v
              /\ assoc out_field row' = Some (Some v))
         good good'
    /\ rasters ws' = rasters ws
    /\ messages ws'
       = messages ws
         ++ Spec.debit_messages float_str pre_field post_field good.
Proof.
  revert done ws.
  induction good as [|row good IH]; intros done ws Hfc Hok.
  - exists ws, []. simpl. rewrite Hbad. split; [reflexivity|].
    split; [exact Hfc|]. split; [constructor|].
    split; [reflexivity | now rewrite app_nil_r].
  - inversion Hok as [|? ? [Hout Hval] Hok']; subst.
    destruct (Spec.debit_value pre_field post_field row) as [v|] eqn:Ev;
      [|congruence].
    destruct (debitRow_run pre_field post_field out_field row v Ev Hout)
      as (row' & Hrun & Hrow').
    simpl. rewrite Hrun.
    unfold bind at 1. unfold put_rows at 1.
    unfold bind at 1. unfold AddMessage at 1.
    match goal with
    | |- context [Cohqt.cursorLoop _ _ _ _ _ _ _ ?w] =>
        destruct (IH (done ++ [row']) w)
          as (ws' & good' & Hloop & Hfc' & Hall & Hr & Hmsg)
    end.
    + cbn [feature_classes]. rewrite assoc_put_same.
      now rewrite <- app_assoc.
    + exact Hok'.
    + exists ws', (row' :: good'). split; [exact Hloop|].
      split; [now rewrite Hfc', <- app_assoc|].
      split; [|split].
      * constructor; [|exact Hall]. exists v. now split.
      * rewrite Hr. reflexivity.
      * rewrite Hmsg. cbn [messages].
        unfold Spec.debit_messages. simpl. rewrite Ev.
        now rewrite <- app_assoc.
Qed.

End CursorLoopStops.

Lemma Forall2_compose (A B C : Type) (P : A -> B -> Prop) (Q : B -> C -> Prop)
  (R : A -> C -> Prop) (l1 : list A) (l2 : list B) (l3 : list C) :
  (forall a b c, P a b -> Q b c -> R a c) ->
  Forall2 P l1 l2 -> Forall2 Q l2 l3 -> Forall2 R l1 l3.
Proof.
  intros HPQ H12. revert l3.
  induction H12 as [|a b l1 l2 Hab _ IH]; intros l3 H23;
    inversion H23; subst; constructor; eauto.
Qed.

Lemma debit_messages_AddField (float_str : PrimFloat.float -> string)
  (pre_field post_field fieldName : string) (rows : list feature_row) :
  Forall
    (fun row => Spec.debit_value pre_field post_field row <> None)
    rows ->
  Spec.debit_messages float_str pre_field post_field
    (Cohqt.AddField_management rows fieldName)
  = Spec.debit_messages float_str pre_field post_field rows.
Proof.
  intros Hok. pose proof (AddField_management_keeps rows fieldName
                            pre_field post_field) as H2.
  unfold Spec.debit_messages.
  induction H2 as [|row row' rows rows' [_ Hkeep] _ IH]; [reflexivity|].
  inversion Hok as [|? ? Hrow Hok']; subst.
  simpl. rewrite (IH Hok').
  destruct (Spec.debit_value pre_field post_field row) as [v|] eqn:Ev;
    [|congruence].
  now rewrite (Hkeep v eq_refl).
Qed.

Lemma AddField_management_ok (rows : list feature_row)
  (fieldName pre_field post_field : string) :
  Forall
    (fun row => Spec.debit_value pre_field post_field row <> None)
    rows ->
  Forall2
    (fun row row1 =>
       assoc fieldName row1 <> None
       /\ Spec.debit_value pre_field post_field row1
          = Spec.debit_value pre_field post_field row
       /\ Spec.debit_value pre_field post_field row <> None)
    rows (Cohqt.AddField_management rows fieldName).
Proof.
  intros Hok.
  pose proof (AddField_management_keeps rows fieldName pre_field post_field)
    as Hkeep.
  induction Hkeep as [|row row1 rows rows1 [Hout Hval] _ IH];
    constructor.
  - inversion Hok as [|? ? Hrow _]; subst. split; [exact Hout|].
    split; [|exact Hrow].
    destruct (Spec.debit_value pre_field post_field row) as [v|] eqn:Ev;
      [|congruence].
    now rewrite (Hval v eq_refl).
  - inversion Hok; subst. now apply IH.
Qed.

Lemma Forall2_Forall_r (A B : Type) (P : A -> B -> Prop) (Q : B -> Prop)
  (l1 : list A) (l2 : list B) :
  (forall a b, P a b -> Q b) -> Forall2 P l1 l2 -> Forall Q l2.
Proof. intros HPQ. induction 1; constructor; eauto. Qed.

Lemma debitRow_stops (pre_field post_field out_field : string)
  (row : feature_row) :
  Spec.debit_value pre_field post_field row = None ->
  exists e : exn,
    Cohqt.debitRow pre_field post_field out_field row = Raise e.
Proof.
  unfold Spec.debit_value, Cohqt.debitRow.
  destruct (assoc "Acres"%string row) as [[x0|]|];
    destruct (assoc pre_field row) as [[x1|]|];
    destruct (assoc post_field row) as [[x2|]|];
    destruct (assoc out_field row) as [x3|];
    try discriminate; intros _; eexists; reflexivity.
Qed.

(** A new field holds null, so it cannot complete a row that lacks a
    value. *)
Lemma AddField_management_stops (fieldName pre_field post_field : string)
  (row : feature_row) (rows : list feature_row) :
  Spec.debit_value pre_field post_field row = None ->
  exists row1 : feature_row,
    Cohqt.AddField_management (row :: rows) fieldName
    = row1 :: Cohqt.AddField_management rows fieldName
    /\ Spec.debit_value pre_field post_field row1 = None.
Proof.
  intros Hnull. unfold Cohqt.AddField_management. simpl.
  eexists. split; [reflexivity|].
  destruct (assoc fieldName row) as [x|]; [exact Hnull|].
  unfold Spec.debit_value in *. rewrite !assoc_app. simpl.
  destruct (assoc "Acres"%string row) as [[x0|]|];
    destruct (assoc pre_field row) as [[x1|]|];
    destruct (assoc post_field row) as [[x2|]|];
    try discriminate; try reflexivity;
    repeat match goal with
           | |- context [if ?b then _ else _] => destruct b
           end;
    reflexivity.
Qed.

Lemma processed_unprocessed (pre_field post_field : string)
  (rows : list feature_row) :
  rows
  = Spec.processed pre_field post_field rows
    ++ Spec.unprocessed pre_field post_field rows.
Proof.
  induction rows as [|row rows IH]; [reflexivity|]. simpl.
  destruct (Spec.debit_value pre_field post_field row); [|reflexivity].
  simpl. now rewrite <- IH.
Qed.

Lemma processed_values (pre_field post_field : string)
  (rows : list feature_row) :
  Forall (fun row => Spec.debit_value pre_field post_field row <> None)
    (Spec.processed pre_field post_field rows).
Proof.
  induction rows as [|row rows IH]; [constructor|]. simpl.
  destruct (Spec.debit_value pre_field post_field row) as [v|] eqn:E;
    constructor; [congruence | exact IH].
Qed.

Lemma unprocessed_head (pre_field post_field : string)
  (rows : list feature_row) (bad : feature_row) (rest : list feature_row) :
  Spec.unprocessed pre_field post_field rows = bad :: rest ->
  Spec.debit_value pre_field post_field bad = None.
Proof.
  induction rows as [|row rows IH]; [discriminate|]. simpl.
  destruct (Spec.debit_value pre_field post_field row) as [v|] eqn:E;
    [exact IH|].
  intros [= <- _]. exact E.
Qed.

(** C3, as the code has it, for any table of zones.  The cursor loop
    processes the rows up to the first one that lacks an area, a pre value
    or a post value; [calcDebits] completes when there is no such row and
    stops with an error at it otherwise.  The output field of every row
    processed holds the binary64 product [Area * (PreValue - PostValue)];
    the log gains one line per row processed that reports that value; the
    rows not reached are stored as [AddField_management] left them.  For
    [Area = 10], [Pre = 0.6], [Post = 0.4] the value is
    1.9999999999999996, the second double below 2.0, not 2.0. *)
Theorem calcDebits_formula (float_str : PrimFloat.float -> string)
  (DebitProjectArea pre_field post_field out_field : string)
  (ws : workspace) (rows : list feature_row) :
  assoc DebitProjectArea (feature_classes ws) = Some rows ->
  exists (o : outcome unit) (ws' : workspace) (rows' : list feature_row),
    Cohqt.calcDebits float_str DebitProjectArea pre_field post_field
      out_field ws = (o, ws')
    /\ (Spec.unprocessed pre_field post_field rows = [] -> o = Return tt)
    /\ (Spec.unprocessed pre_field post_field rows <> [] ->
        exists e : exn, o = Raise e)
    /\ assoc DebitProjectArea (feature_classes ws')
       = Some
           (rows'
            ++ Cohqt.AddField_management
                 (Spec.unprocessed pre_field post_field rows) out_field)
    /\ Forall2
         (fun row row' =>
            exists v : PrimFloat.float,
              Spec.debit_value pre_field post_field row = Some v
              /\ assoc out_field row' = Some (Some v))
         (Spec.processed pre_field post_field rows) rows'
    /\ messages ws'
       = messages ws
         ++ Spec.debit_messages float_str pre_field post_field
              (Spec.processed pre_field post_field rows)
    /\ Spec.debit_value "GRSG_Pre_Project" "GRSG_Post_Project"
         DebitSamples.zone_row = Some DebitSamples.below_two
    /\ DebitSamples.below_two
       = PrimFloat.next_down (PrimFloat.next_down DebitSamples.two).
Proof.
  intros Hfc.
  pose proof (processed_values pre_field post_field rows) as Hok.
  pose proof (AddField_management_ok _ out_field pre_field post_field Hok)
    as Hadd.
  assert (Hsplit :
            Cohqt.AddField_management rows out_field
            = Cohqt.AddField_management
                (Spec.processed pre_field post_field rows) out_field
              ++ Cohqt.AddField_management
                   (Spec.unprocessed pre_field post_field rows) out_field).
  { unfold Cohqt.AddField_management. rewrite <- map_app.
    now rewrite <- processed_unprocessed. }
  unfold Cohqt.calcDebits. cbv zeta.
  unfold bind at 1. unfold get_rows at 1. rewrite Hfc.
  unfold bind at 1. unfold put_rows at 1.
  unfold bind at 1. unfold get_rows at 1. cbn [feature_classes].
  rewrite assoc_put_same. rewrite Hsplit.
  destruct (Spec.unprocessed pre_field post_field rows) as [|bad rest]
    eqn:Etail.
  - change (Cohqt.AddField_management [] out_field) with (@nil feature_row).
    rewrite app_nil_r.
    match goal with
    | |- context [Cohqt.cursorLoop _ _ _ _ _ _ ?todo ?w] =>
        destruct (cursorLoop_run float_str DebitProjectArea pre_field
                    post_field out_field todo [] w)
          as (ws' & rows' & Hloop & Hfc' & Hall & Hmsg)
    end.
    + cbn [feature_classes]. now rewrite assoc_put_same.
    + eapply Forall2_Forall_r; [|exact Hadd].
      intros row row1 (Hout & Heq & Hne). split; [exact Hout | congruence].
    + exists (Return tt), ws', rows'. split; [exact Hloop|].
      split; [reflexivity|]. split; [intros H; now elim H|].
      split; [now rewrite app_nil_r|]. split; [|split; [|split]].
      * eapply Forall2_compose; [|exact Hadd|exact Hall].
        intros row row1 row' (Hout & Heq & Hne) (v & Hv & Hrow').
        exists v. split; [congruence | exact Hrow'].
      * rewrite Hmsg. cbn [messages].
        now rewrite debit_messages_AddField by exact Hok.
      * reflexivity.
      * reflexivity.
  - destruct (AddField_management_stops out_field pre_field post_field bad
                rest (unprocessed_head _ _ _ _ _ Etail))
      as (bad1 & Hbad1 & Hnull1).
    destruct (debitRow_stops pre_field post_field out_field bad1 Hnull1)
      as [e Hraise].
    rewrite Hbad1.
    match goal with
    | |- context [Cohqt.cursorLoop _ _ _ _ _ _ _ ?w] =>
        destruct (cursorLoop_stops float_str DebitProjectArea pre_field
                    post_field out_field bad1
                    (Cohqt.AddField_management rest out_field) e Hraise
                    (Cohqt.AddField_management
                       (Spec.processed pre_field post_field rows) out_field)
                    [] w)
          as (ws' & good' & Hloop & Hfc' & Hall & _ & Hmsg)
    end.
    + cbn [feature_classes]. now rewrite assoc_put_same.
    + eapply Forall2_Forall_r; [|exact Hadd].
      intros row row1 (Hout & Heq & Hne). split; [exact Hout | congruence].
    + exists (Raise e), ws', good'. split; [exact Hloop|].
      split; [discriminate|]. split; [intros _; now exists e|].
      split; [exact Hfc'|]. split; [|split; [|split]].
      * eapply Forall2_compose; [|exact Hadd|exact Hall].
        intros row row1 row' (Hout & Heq & Hne) (v & Hv & Hrow').
        exists v. split; [congruence | exact Hrow'].
      * rewrite Hmsg. cbn [messages].
        now rewrite debit_messages_AddField by exact Hok.
      * reflexivity.
      * reflexivity.
Qed.

Lemma calcDebits_formula_witness :
  (exists (o : outcome unit) (ws' : workspace) (rows' : list feature_row),
     Cohqt.calcDebits DebitSamples.any_str "Debit_Project_Area"
       "GRSG_Pre_Project" "GRSG_Post_Project" "GRSG_Debits"
       DebitSamples.debit_ws = (o, ws')
     /\ o = Return tt
     /\ assoc "Debit_Project_Area" (feature_classes ws') = Some rows'
     /\ Forall2
          (fun row row' =>
             exists v : PrimFloat.float,
               Spec.debit_value "GRSG_Pre_Project"
                 "GRSG_Post_Project" row = Some v
               /\ assoc "GRSG_Debits" row' = Some (Some v))
          [DebitSamples.zone_row] rows'
     /\ messages ws'
        = messages DebitSamples.debit_ws
          ++ Spec.debit_messages DebitSamples.any_str
               "GRSG_Pre_Project" "GRSG_Post_Project"
               [DebitSamples.zone_row])
  /\ (exists (o : outcome unit) (ws' : workspace)
             (rows' : list feature_row),
        Cohqt.calcDebits DebitSamples.any_str "Debit_Project_Area"
          "GRSG_Pre_Project" "GRSG_Post_Project" "GRSG_Debits"
          DebitSamples.null_ws = (o, ws')
        /\ (exists e : exn, o = Raise e)
        /\ assoc "Debit_Project_Area" (feature_classes ws')
           = Some
               (rows'
                ++ Cohqt.AddField_management
                     [DebitSamples.null_row; DebitSamples.zone_row]
                     "GRSG_Debits")
        /\ Forall2
             (fun row row' =>
                exists v : PrimFloat.float,
                  Spec.debit_value "GRSG_Pre_Project"
                    "GRSG_Post_Project" row = Some v
                  /\ assoc "GRSG_Debits" row' = Some (Some v))
             [DebitSamples.zone_row] rows')
  /\ Spec.debit_value "GRSG_Pre_Project" "GRSG_Post_Project"
       DebitSamples.zone_row = Some DebitSamples.below_two
  /\ DebitSamples.below_two
     = PrimFloat.next_down (PrimFloat.next_down DebitSamples.two).
Proof.
  destruct (calcDebits_formula DebitSamples.any_str "Debit_Project_Area"
              "GRSG_Pre_Project" "GRSG_Post_Project" "GRSG_Debits"
              DebitSamples.debit_ws [DebitSamples.zone_row] eq_refl)
    as (o & ws' & rows' & Hrun & Hend & _ & Hfc & Hall & Hmsg & Hv & Hb).
  destruct (calcDebits_formula DebitSamples.any_str "Debit_Project_Area"
              "GRSG_Pre_Project" "GRSG_Post_Project" "GRSG_Debits"
              DebitSamples.null_ws
              [DebitSamples.zone_row; DebitSamples.null_row;
               DebitSamples.zone_row] eq_refl)
    as (o2 & ws2 & rows2 & Hrun2 & _ & Hstop2 & Hfc2 & Hall2 & _).
  split; [|split; [|split; [exact Hv | exact Hb]]].
  - exists o, ws', rows'. split; [exact Hrun|].
    split; [exact (Hend eq_refl)|].
    split; [|split; [exact Hall | exact Hmsg]].
    rewrite Hfc. change (Spec.unprocessed "GRSG_Pre_Project"
                           "GRSG_Post_Project" [DebitSamples.zone_row])
      with (@nil feature_row).
    change (Cohqt.AddField_management [] "GRSG_Debits")
      with (@nil feature_row).
    now rewrite app_nil_r.
  - exists o2, ws2, rows2. split; [exact Hrun2|].
    split; [apply Hstop2; discriminate|].
    split; [exact Hfc2 | exact Hall2].
Defined.

(** C3 as stated fails: for the zone with [Area = 10], [Pre = 0.6],
    [Post = 0.4] the run of [calcDebits] completes and the output field does
    not hold 2.0. *)
Lemma calcDebits_10_06_04_not_2 :
  exists (ws' : workspace) (row' : feature_row),
    Cohqt.calcDebits DebitSamples.any_str "Debit_Project_Area"
      "GRSG_Pre_Project" "GRSG_Post_Project" "GRSG_Debits"
      DebitSamples.debit_ws = (Return tt, ws')
    /\ assoc "Debit_Project_Area" (feature_classes ws') = Some [row']
    /\ assoc "GRSG_Debits" row' <> Some (Some DebitSamples.two).
Proof.
  eexists. eexists. split; [vm_compute; reflexivity|].
  split; [vm_compute; reflexivity|].
  intros H.
  apply (f_equal
           (fun o =>
              match o with
              | Some (Some v) => PrimFloat.eqb v DebitSamples.two
              | _ => false
              end)) in H.
  vm_compute in H. discriminate.
Qed.

(** ** The loops of [CalcAnthroDisturbance] *)



Lemma assoc_remove_key_other (V : Type) (k k' : string)
  (l : list (string * V)) :
  String.eqb k k' = false -> assoc k (remove_key k' l) = assoc k l.
Proof.
  intros Hk. induction l as [|[k0 v0] l IH]; [reflexivity|].
  simpl. destruct (String.eqb k' k0) eqn:E0.
  - apply String.eqb_eq in E0. subst k0. now rewrite Hk.
  - simpl. now rewrite IH.
Qed.


Lemma assoc_put_other (V : Type) (k k' : string) (v : V)
  (l : list (string * V)) :
  k <> k' -> assoc k (put k' v l) = assoc k l.
Proof.
  intros Hne. apply String.eqb_neq in Hne. unfold put. simpl.
  rewrite Hne. now apply assoc_remove_key_other.
Qed.


Lemma getUniqueSubtypes_run (uniqueType : string)
  (typeList subtypeList : list string) (ws : workspace) :
  List.length typeList = List.length subtypeList ->
  Cohqt.getUniqueSubtypes uniqueType typeList subtypeList ws
  = (Return (Spec.subtypes_of uniqueType typeList subtypeList), ws).
Proof.
  revert subtypeList.
  induction typeList as [|t ts IH]; intros [|s ss] Hlen;
    try discriminate; [reflexivity|].
  simpl in Hlen. injection Hlen as Hlen.
  unfold Spec.subtypes_of. simpl.
  destruct (String.eqb t uniqueType).
  - unfold bind. rewrite (IH ss Hlen). reflexivity.
  - apply (IH ss Hlen).
Qed.


Lemma SearchCursor_field_run (table : list Cohqt.ParameterRow)
  (field : string) (ws : workspace) :
  Forall (fun row => assoc field (Cohqt.row_fields row) <> None) table ->
  Cohqt.SearchCursor_field table field ws
  = (Return (Spec.column table field), ws)
    /\ List.length (Spec.column table field) = List.length table.
Proof.
  induction 1 as [|row table Hrow _ [IHrun IHlen]]; [split; reflexivity|].
  unfold Spec.column in *. simpl.
  destruct (assoc field (Cohqt.row_fields row)) as [v|]; [|congruence].
  split.
  - unfold bind. rewrite IHrun. reflexivity.
  - simpl. now rewrite IHlen.
Qed.




Lemma selectAnthroFeatures_run (che : Cohqt.cheStandard)
  (unique_proposed_subtypes : list string)
  (anthro_disturbance_type subtype : string) (ws : workspace) :
  Spec.valid_type anthro_disturbance_type ->
  Cohqt.selectAnthroFeatures che unique_proposed_subtypes
    anthro_disturbance_type subtype ws
  = (Return (Spec.selected che unique_proposed_subtypes
               anthro_disturbance_type subtype), ws).
Proof.
  unfold Spec.selected, Cohqt.selectAnthroFeatures.
  intros [-> | [-> | ->]]; simpl;
    try destruct (Cohqt.mem subtype unique_proposed_subtypes); reflexivity.
Qed.







Section Loops.

Variable extent : list cell.
Variable statistics_fail : raster -> bool.
Variable che : Cohqt.cheStandard.
Variables term anthro_disturbance_type : string.
Variable unique_proposed_subtypes : list string.
Variable cellSize : R.
Variables distanceDict weightDict : Cohqt.dict.
Variable mask : option raster.

Hypothesis Hvalid : Spec.valid_type anthro_disturbance_type.

Let subtype_ready : workspace -> string -> Prop :=
  Spec.subtype_ready che unique_proposed_subtypes anthro_disturbance_type
    distanceDict weightDict.


Let contributes : string -> bool :=
  Spec.contributes che unique_proposed_subtypes anthro_disturbance_type
    distanceDict weightDict.




Variables typeList subtypeList : list string.

Hypothesis Hlength : List.length typeList = List.length subtypeList.

Let type_contributes (anthroType : string) : bool :=
  existsb contributes (Spec.subtypes_of anthroType typeList subtypeList).



End Loops.


Lemma calcSubtypeDisturbance_inert (extent : list cell) (cs : R)
  (distanceDict weightDict : Cohqt.dict) (AnthroFeatures subtype T : string)
  (ws : workspace) (features : raster) :
  assoc subtype distanceDict = Some 0 ->
  assoc subtype weightDict = Some 0 ->
  assoc AnthroFeatures (rasters ws) = Some features ->
  Cohqt.calcSubtypeDisturbance extent cs distanceDict weightDict
    AnthroFeatures subtype T ws = (Return None, ws).
Proof.
  intros HD HW HF.
  unfold Cohqt.calcSubtypeDisturbance, Cohqt.dict_get, bind, Raster.
  rewrite HD, HW. unfold ret at 1 2. rewrite HF.
  rewrite Rltb_false by lra. reflexivity.
Qed.









(** The run of the loops on the sample table, step by step: the roads give
    a Type surface, the inert fences give none. *)
Lemma parameter_table_run (dist_field weight_field : string) :
  (dist_field = "MDP_Dist" /\ weight_field = "MDP_Weight")%string
  \/ (dist_field = "GrSG_Dist" /\ weight_field = "GrSG_Weight")%string ->
  Cohqt.typeRasters Samples.strip (fun _ => false) Samples.parameter_table
    "Pre" [] "Pre" Samples.che0 dist_field weight_field 1 None
    Samples.road_ws
  = (Return [Samples.road_type_surface], Samples.road_ws_after).
Proof.
  intros Hfields.
  assert (HD : Forall
                 (fun row => assoc dist_field (Cohqt.row_fields row) <> None)
                 Samples.parameter_table)
    by (destruct Hfields as [[-> _] | [-> _]];
        repeat constructor; simpl; discriminate).
  assert (HW : Forall
                 (fun row => assoc weight_field (Cohqt.row_fields row) <> None)
                 Samples.parameter_table)
    by (destruct Hfields as [[_ ->] | [_ ->]];
        repeat constructor; simpl; discriminate).
  unfold Cohqt.typeRasters. cbv zeta.
  unfold bind at 1.
  rewrite (proj1 (SearchCursor_field_run _ dist_field Samples.road_ws HD)).
  unfold bind at 1.
  rewrite (proj1 (SearchCursor_field_run _ weight_field Samples.road_ws HW)).
  change (Cohqt.makeUnique (map Cohqt.row_Type Samples.parameter_table))
    with ["Transport"%string; "Barrier"%string].
  cbn [for_each]. unfold bind at 1.
  unfold Cohqt.typeStep at 1. unfold bind at 1. unfold AddMessage at 1.
  unfold bind at 1. rewrite getUniqueSubtypes_run by reflexivity.
  change (Spec.subtypes_of "Transport"
            (map Cohqt.row_Type Samples.parameter_table)
            (map Cohqt.row_Subtype Samples.parameter_table))
    with ["Roads"%string].
  cbn [for_each]. unfold bind at 1. unfold bind at 1.
  unfold Cohqt.subtypeStep at 1. unfold bind at 1.
  rewrite selectAnthroFeatures_run by (left; reflexivity).
  change (Spec.selected Samples.che0 [] "Pre" "Roads")
    with (Some "AnthroData.gdb/Roads"%string).
  cbv iota beta. unfold bind at 1.
  erewrite (calcSubtypeDisturbance_decay_run Samples.strip 1 _ _
              "AnthroData.gdb/Roads" "Roads" "Pre" _ Samples.road 2 100);
    [| destruct Hfields as [[-> ->] | [-> ->]]; reflexivity
     | destruct Hfields as [[-> ->] | [-> ->]]; reflexivity
     | reflexivity
     | lra].
  unfold ret at 1. cbv iota beta. unfold ret at 1. cbv iota beta.
  change (0 <? List.length
                 ([] ++ [Spec.decaySurface Samples.strip 1 Samples.road
                           2 100]))%nat
    with true.
  cbv iota. unfold bind at 1. rewrite calcTypeDisturbance_run.
  unfold ret at 1. cbv iota beta.
  unfold bind at 1.
  unfold Cohqt.typeStep at 1. unfold bind at 1. unfold AddMessage at 1.
  unfold bind at 1. rewrite getUniqueSubtypes_run by reflexivity.
  change (Spec.subtypes_of "Barrier"
            (map Cohqt.row_Type Samples.parameter_table)
            (map Cohqt.row_Subtype Samples.parameter_table))
    with ["Fence"%string].
  cbn [for_each]. unfold bind at 1. unfold bind at 1.
  unfold Cohqt.subtypeStep at 1. unfold bind at 1.
  rewrite selectAnthroFeatures_run by (left; reflexivity).
  change (Spec.selected Samples.che0 [] "Pre" "Fence")
    with (Some "AnthroData.gdb/Fence"%string).
  cbv iota beta. unfold bind at 1.
  erewrite (calcSubtypeDisturbance_inert Samples.strip 1 _ _
              "AnthroData.gdb/Fence" "Fence" "Pre" _ Samples.fence);
    [| destruct Hfields as [[-> ->] | [-> ->]]; reflexivity
     | destruct Hfields as [[-> ->] | [-> ->]]; reflexivity
     | reflexivity].
  reflexivity.
Qed.

(** [CalcAnthroDisturbance] is its loops followed by [multiplyRasters]. *)
Lemma CalcAnthroDisturbance_after_loops (extent : list cell)
  (statistics_fail : raster -> bool)
  (Parameter_Values : list Cohqt.ParameterRow) (term : string)
  (unique_proposed_subtypes : list string) (anthro_disturbance_type : string)
  (che : Cohqt.cheStandard) (dist_field weight_field : string)
  (cellSize : R) (emptyRaster : raster) (mask : option raster)
  (ws ws1 : workspace) (rasterList : list raster) :
  Cohqt.typeRasters extent statistics_fail Parameter_Values term
    unique_proposed_subtypes anthro_disturbance_type che dist_field
    weight_field cellSize mask ws = (Return rasterList, ws1) ->
  Cohqt.CalcAnthroDisturbance extent statistics_fail Parameter_Values term
    unique_proposed_subtypes anthro_disturbance_type che dist_field
    weight_field cellSize emptyRaster mask ws
  = Cohqt.multiplyRasters che dist_field rasterList anthro_disturbance_type
      emptyRaster ws1.
Proof.
  intros Hloops. unfold Cohqt.CalcAnthroDisturbance, bind.
  now rewrite Hloops.
Qed.

(** C10: for the Pre and Post terms, with or without a mask, the composite
    [CalcAnthroDisturbance] returns is the product of the Type surfaces, the
    agriculture index and the open-water index when the distance field is
    ["GrSG_Dist"], and the product of the Type surfaces and the open-water
    index alone for every other distance field, the two mule-deer fields
    among them. *)
Theorem CalcAnthroDisturbance_agriculture_iff_GrSG_Dist (extent : list cell)
  (statistics_fail : raster -> bool)
  (Parameter_Values : list Cohqt.ParameterRow) (term : string)
  (unique_proposed_subtypes : list string) (anthro_disturbance_type : string)
  (che : Cohqt.cheStandard) (dist_field weight_field : string)
  (cellSize : R) (emptyRaster : raster) (mask : option raster)
  (ws ws1 : workspace) (rasterList : list raster) (ag lakes : raster) :
  anthro_disturbance_type = "Pre"%string
  \/ anthro_disturbance_type = "Post"%string ->
  Cohqt.typeRasters extent statistics_fail Parameter_Values term
    unique_proposed_subtypes anthro_disturbance_type che dist_field
    weight_field cellSize mask ws = (Return rasterList, ws1) ->
  assoc (Cohqt.os_path_join (Cohqt.InputDataPath che) "GrSG_Ag_Index")
        (rasters ws1) = Some ag ->
  assoc (Cohqt.os_path_join (Cohqt.InputDataPath che) "Lakes")
        (rasters ws1) = Some lakes ->
  exists anthroRaster : raster,
    Cohqt.CalcAnthroDisturbance extent statistics_fail Parameter_Values term
      unique_proposed_subtypes anthro_disturbance_type che dist_field
      weight_field cellSize emptyRaster mask ws
    = (Return anthroRaster, ws1)
    /\ (dist_field = "GrSG_Dist"%string ->
        forall c : cell,
          anthroRaster c
          = Spec.omul (Spec.cell_product rasterList c)
                         (Spec.omul (ag c) (lakes c)))
    /\ (dist_field <> "GrSG_Dist"%string ->
        forall c : cell,
          anthroRaster c
          = Spec.omul (Spec.cell_product rasterList c) (lakes c))
    /\ (dist_field = "MDP_Dist"%string \/ dist_field = "MDO_Dist"%string ->
        forall c : cell,
          anthroRaster c
          = Spec.omul (Spec.cell_product rasterList c) (lakes c)).
Proof.
  intros HT Hloops Hag Hlakes.
  assert (Hother :
            dist_field <> "GrSG_Dist"%string ->
            forall c : cell,
              np_prod (Cohqt.rasterList2 dist_field rasterList ag lakes) c
              = Spec.omul (Spec.cell_product rasterList c) (lakes c)).
  { intros Hd c. rewrite np_prod_cell. unfold Cohqt.rasterList2.
    destruct (String.eqb_spec dist_field "GrSG_Dist"); [contradiction|].
    rewrite cell_product_app. simpl. now rewrite omul_1_r. }
  eexists. split.
  - rewrite (CalcAnthroDisturbance_after_loops _ _ _ _ _ _ _ _ _ _ _ _ _ _ _
               Hloops).
    eapply multiplyRasters_run; eassumption.
  - split; [|split].
    + intros -> c. rewrite np_prod_cell. unfold Cohqt.rasterList2.
      rewrite String.eqb_refl, cell_product_app. simpl.
      now rewrite omul_1_r.
    + exact Hother.
    + intros [-> | ->]; apply Hother; discriminate.
Qed.

Lemma CalcAnthroDisturbance_agriculture_iff_GrSG_Dist_witness :
  exists anthroRaster : raster,
    Cohqt.CalcAnthroDisturbance Samples.strip (fun _ => false)
      Samples.parameter_table "Pre" [] "Pre" Samples.che0 "MDP_Dist"
      "MDP_Weight" 1 (const 0) None Samples.road_ws
    = (Return anthroRaster, Samples.road_ws_after)
    /\ ("MDP_Dist"%string = "GrSG_Dist"%string ->
        forall c : cell,
          anthroRaster c
          = Spec.omul
              (Spec.cell_product [Samples.road_type_surface] c)
              (Spec.omul (Samples.ag_index c) (Samples.lakes c)))
    /\ ("MDP_Dist"%string <> "GrSG_Dist"%string ->
        forall c : cell,
          anthroRaster c
          = Spec.omul
              (Spec.cell_product [Samples.road_type_surface] c)
              (Samples.lakes c))
    /\ ("MDP_Dist"%string = "MDP_Dist"%string
        \/ "MDP_Dist"%string = "MDO_Dist"%string ->
        forall c : cell,
          anthroRaster c
          = Spec.omul
              (Spec.cell_product [Samples.road_type_surface] c)
              (Samples.lakes c)).
Proof.
  apply (CalcAnthroDisturbance_agriculture_iff_GrSG_Dist Samples.strip
           (fun _ => false) Samples.parameter_table "Pre" [] "Pre"
           Samples.che0 "MDP_Dist" "MDP_Weight" 1 (const 0) None
           Samples.road_ws Samples.road_ws_after
           [Samples.road_type_surface] Samples.ag_index Samples.lakes).
  - left. reflexivity.
  - apply parameter_table_run. left. split; reflexivity.
  - reflexivity.
  - reflexivity.
Defined.

(** The same table read through the sage-grouse fields: the agriculture
    index enters the product. *)
Lemma parameter_table_GrSG_composite :
  exists anthroRaster : raster,
    Cohqt.CalcAnthroDisturbance Samples.strip (fun _ => false)
      Samples.parameter_table "Pre" [] "Pre" Samples.che0 "GrSG_Dist"
      "GrSG_Weight" 1 (const 0) None Samples.road_ws
    = (Return anthroRaster, Samples.road_ws_after)
    /\ forall c : cell,
         anthroRaster c
         = Spec.omul
             (Spec.cell_product [Samples.road_type_surface] c)
             (Spec.omul (Samples.ag_index c) (Samples.lakes c)).
Proof.
  eexists. split.
  - rewrite (CalcAnthroDisturbance_after_loops _ _ _ _ _ _ _ _ _ _ _ _ _ _ _
               (parameter_table_run "GrSG_Dist" "GrSG_Weight"
                  (or_intror (conj eq_refl eq_refl)))).
    apply (multiplyRasters_run Samples.che0 "GrSG_Dist" "Pre"
             [Samples.road_type_surface] (const 0) Samples.road_ws_after
             Samples.ag_index Samples.lakes);
      [left; reflexivity | reflexivity | reflexivity].
  - intros c. rewrite np_prod_cell. unfold Cohqt.rasterList2.
    rewrite String.eqb_refl, cell_product_app.
    change (Spec.cell_product [Samples.ag_index; Samples.lakes] c)
      with (Spec.omul (Samples.ag_index c)
              (Spec.omul (Samples.lakes c) (Some 1))).
    now rewrite omul_1_r.
Qed.

(** The block of [main]: once the two context surfaces have been built, the
    surface it returns, and saves under the output name, is their
    combination. *)
Lemma muleDeerAnthroDisturbance_run (extent : list cell)
  (statistics_fail : raster -> bool)
  (Parameter_Values : list Cohqt.ParameterRow) (term : string)
  (unique_proposed_subtypes : list string) (anthro_disturbance_type : string)
  (che : Cohqt.cheStandard) (cellSize : R)
  (emptyRaster BWMD_Open : raster) (out_name : string)
  (ws ws1 ws2 : workspace) (anthro_pj anthro_open : raster) :
  Cohqt.CalcAnthroDisturbance extent statistics_fail Parameter_Values term
    unique_proposed_subtypes anthro_disturbance_type che "MDP_Dist"
    "MDP_Weight" cellSize emptyRaster None ws = (Return anthro_pj, ws1) ->
  Cohqt.CalcAnthroDisturbance extent statistics_fail Parameter_Values term
    unique_proposed_subtypes anthro_disturbance_type che "MDO_Dist"
    "MDO_Weight" cellSize emptyRaster (Some BWMD_Open)
    (snd (save anthro_pj (out_name ++ "_P")%string ws1))
  = (Return anthro_open, ws2) ->
  exists ws3 : workspace,
    Tools.muleDeerAnthroDisturbance extent statistics_fail Parameter_Values
      term unique_proposed_subtypes anthro_disturbance_type che cellSize
      emptyRaster BWMD_Open out_name ws
    = (Return (Tools.combine_pj_open BWMD_Open anthro_pj anthro_open), ws3)
    /\ assoc out_name (rasters ws3)
       = Some (Tools.combine_pj_open BWMD_Open anthro_pj anthro_open).
Proof.
  intros Hpj Hopen. unfold Tools.muleDeerAnthroDisturbance.
  unfold bind at 1. rewrite Hpj.
  unfold bind at 1.
  destruct (save anthro_pj (out_name ++ "_P")%string ws1) as [o w] eqn:Es.
  unfold save in Es. inversion Es; subst o. clear Es.
  unfold bind at 1. simpl snd in Hopen. rewrite <- H1 in Hopen.
  rewrite Hopen.
  eexists. split; [reflexivity|].
  cbn [rasters]. apply assoc_put_same.
Qed.

(** * Further properties of the engine *)

(** ** The lists and dictionaries of [CalcAnthroDisturbance] *)

Lemma mem_In (s : string) (l : list string) :
  Cohqt.mem s l = true <-> In s l.
Proof.
  unfold Cohqt.mem. rewrite existsb_exists. split.
  - intros (x & Hx & Heq). apply String.eqb_eq in Heq. now subst.
  - intros H. exists s. split; [exact H | apply String.eqb_refl].
Qed.

Lemma makeUnique_fold (typeList acc : list string) :
  NoDup acc ->
  (forall t, In t acc -> t <> "N/A"%string) ->
  let r :=
    fold_left
      (fun uniqueTypes anthroType =>
         if negb (Cohqt.mem anthroType uniqueTypes)
         then if negb (anthroType =? "N/A")%string
              then uniqueTypes ++ [anthroType]
              else uniqueTypes
         else uniqueTypes)
      typeList acc in
  NoDup r
  /\ forall t, In t r <-> In t acc \/ (In t typeList /\ t <> "N/A"%string).
Proof.
  revert acc. induction typeList as [|a l IH]; intros acc Hnd Hna; simpl.
  - split; [exact Hnd|]. intros t. split; [now left | now intros [H | [[] _]]].
  - destruct (Cohqt.mem a acc) eqn:Em; simpl.
    + destruct (IH acc Hnd Hna) as [H1 H2]. split; [exact H1|].
      intros t. rewrite H2. apply mem_In in Em. split.
      * intros [H | [H Ht]]; [now left | right; split; [now right | exact Ht]].
      * intros [H | [[<- | H] Ht]]; [now left | now left | right; now split].
    + destruct (String.eqb_spec a "N/A") as [-> | Hne]; simpl.
      * destruct (IH acc Hnd Hna) as [H1 H2]. split; [exact H1|].
        intros t. rewrite H2. split.
        -- intros [H | [H Ht]]; [now left | right; split; [now right | exact Ht]].
        -- intros [H | [[<- | H] Ht]];
             [now left | contradiction | right; now split].
      * assert (Hnin : ~ In a acc).
        { intros Hin. apply mem_In in Hin. congruence. }
        destruct (IH (acc ++ [a])) as [H1 H2].
        -- apply NoDup_app; [exact Hnd | repeat constructor; intros [] |].
           intros x Hx [<- | []]. contradiction.
        -- intros t Ht. apply in_app_or in Ht.
           destruct Ht as [Ht | [<- | []]]; [now apply Hna | exact Hne].
        -- split; [exact H1|]. intros t. rewrite H2, in_app_iff. simpl.
           split.
           ++ intros [[H | [<- | []]] | [H Ht]].
              ** now left.
              ** right. split; [now left | exact Hne].
              ** right. split; [now right | exact Ht].
           ++ intros [H | [[<- | H] Ht]].
              ** left. now left.
              ** left. right. now left.
              ** right. now split.
Qed.

(** [makeUnique] lists every type of the table other than ["N/A"], and
    lists it once. *)
Theorem makeUnique_each_type_once (typeList : list string) :
  NoDup (Cohqt.makeUnique typeList)
  /\ forall t : string,
       In t (Cohqt.makeUnique typeList)
       <-> In t typeList /\ t <> "N/A"%string.
Proof.
  destruct (makeUnique_fold typeList [] (NoDup_nil _)
              (fun t (H : In t []) => match H with end)) as [H1 H2].
  split; [exact H1|]. intros t. unfold Cohqt.makeUnique. rewrite H2.
  split; [now intros [[] | H] | now right].
Qed.

Lemma dict_fold_last (k : string) (l : list (string * R)) (d : Cohqt.dict) :
  assoc k
    (fold_left (fun d kv => (fst kv, snd kv) :: remove_key (fst kv) d) l d)
  = match assoc k (rev l) with Some v => Some v | None => assoc k d end.
Proof.
  revert d. induction l as [|[k' v'] l IH]; intros d; [reflexivity|].
  simpl fold_left. rewrite IH. simpl rev. rewrite assoc_app.
  destruct (assoc k (rev l)) as [v|]; [reflexivity|].
  simpl. destruct (String.eqb k k') eqn:E; [reflexivity|].
  now apply assoc_remove_key_other.
Qed.

Lemma assoc_None_iff (V : Type) (k : string) (l : list (string * V)) :
  assoc k l = None <-> ~ In k (map fst l).
Proof.
  induction l as [|[k' v'] l IH]; simpl.
  - split; [intros _ [] | reflexivity].
  - destruct (String.eqb_spec k k') as [-> | Hne].
    + split; [discriminate | intros H; exfalso; apply H; now left].
    + rewrite IH. split.
      * intros H [Heq | Hin]; [congruence | contradiction].
      * intros H Hin. apply H. now right.
Qed.

(** [dict(zip(keys, values))]: a lookup finds the value paired with the
    last occurrence of the key, and fails exactly for the strings that are
    no paired key. *)
Theorem dict_of_zip_last_wins (keys : list string) (values : list R)
  (k : string) :
  assoc k (Cohqt.dict_of_zip keys values)
  = assoc k (rev (combine keys values))
  /\ (assoc k (Cohqt.dict_of_zip keys values) = None
      <-> ~ In k (map fst (combine keys values))).
Proof.
  assert (H : assoc k (Cohqt.dict_of_zip keys values)
              = assoc k (rev (combine keys values))).
  { unfold Cohqt.dict_of_zip. rewrite dict_fold_last.
    now destruct (assoc k (rev (combine keys values))). }
  split; [exact H|]. rewrite H, assoc_None_iff, map_rev.
  split; intros Hn Hin; apply Hn; [now apply in_rev in Hin |
                                   now apply in_rev].
Qed.

Lemma flat_map_filter_partition (A : Type) (key : A -> string)
  (U : list string) (rows : list A) :
  NoDup U ->
  Permutation
    (flat_map (fun u => filter (fun a => key a =? u)%string rows) U)
    (filter (fun a => Cohqt.mem (key a) U) rows).
Proof.
  induction 1 as [|u U Hnin Hnd IH]; simpl.
  - induction rows as [|a rows IHr]; [constructor | exact IHr].
  - eapply Permutation_trans; [apply Permutation_app_head; exact IH|].
    clear IH. induction rows as [|a rows IHr]; [constructor|].
    simpl. destruct (String.eqb_spec (key a) u) as [Heq | Hne]; simpl.
    + assert (Cohqt.mem (key a) U = false) as ->.
      { apply not_true_is_false. intros Hm. apply mem_In in Hm.
        rewrite Heq in Hm. contradiction. }
      now constructor.
    + destruct (Cohqt.mem (key a) U); [|exact IHr].
      eapply Permutation_trans; [apply Permutation_sym, Permutation_middle|].
      now constructor.
Qed.

Lemma flat_map_map_snd (A B K : Type) (f : K -> list (A * B))
  (U : list K) :
  flat_map (fun u => map snd (f u)) U = map snd (flat_map f U).
Proof.
  induction U as [|u U IH]; [reflexivity|].
  simpl. now rewrite map_app, IH.
Qed.

(** The two nested loops of [CalcAnthroDisturbance] visit every row of the
    table whose type is not ["N/A"] exactly once: the subtype lists of the
    unique types, put end to end, are a rearrangement of the subtypes of
    those rows. *)
Theorem type_loops_visit_each_row_once (typeList subtypeList : list string)
  (ws : workspace) :
  List.length typeList = List.length subtypeList ->
  (forall t : string,
     Cohqt.getUniqueSubtypes t typeList subtypeList ws
     = (Return (Spec.subtypes_of t typeList subtypeList), ws))
  /\ Permutation
       (flat_map (fun t => Spec.subtypes_of t typeList subtypeList)
                 (Cohqt.makeUnique typeList))
       (map snd
            (filter (fun ts => negb (fst ts =? "N/A")%string)
                    (combine typeList subtypeList))).
Proof.
  intros Hlen. split.
  - intros t. now apply getUniqueSubtypes_run.
  - assert (Hu : NoDup (Cohqt.makeUnique typeList)
                 /\ forall t : string,
                      In t (Cohqt.makeUnique typeList)
                      <-> In t typeList /\ t <> "N/A"%string).
    { destruct (makeUnique_fold typeList [] (NoDup_nil _)
                  (fun t (H : In t []) => match H with end)) as [H1 H2].
      split; [exact H1|]. intros t. unfold Cohqt.makeUnique. rewrite H2.
      split; [now intros [[] | H] | now right]. }
    destruct Hu as [Hnd Hin].
    unfold Spec.subtypes_of. rewrite flat_map_map_snd.
    apply Permutation_map.
    eapply Permutation_trans;
      [apply (flat_map_filter_partition _ fst _ _ Hnd)|].
    erewrite filter_ext_in; [apply Permutation_refl|].
    intros [t s] Hts. simpl.
    apply in_combine_l in Hts.
    destruct (String.eqb_spec t "N/A") as [-> | Hne]; simpl.
    + apply not_true_is_false. intros Hm. apply mem_In, Hin in Hm.
      now destruct Hm.
    + apply mem_In, Hin. now split.
Qed.

Lemma type_loops_visit_each_row_once_witness :
  (forall t : string,
     Cohqt.getUniqueSubtypes t
       ["Transport"; "N/A"; "Barrier"; "Transport"]%string
       ["Roads"; "Unknown"; "Fence"; "Rail"]%string Samples.empty_ws
     = (Return
          (Spec.subtypes_of t
             ["Transport"; "N/A"; "Barrier"; "Transport"]%string
             ["Roads"; "Unknown"; "Fence"; "Rail"]%string),
        Samples.empty_ws))
  /\ Permutation
       (flat_map
          (fun t =>
             Spec.subtypes_of t
               ["Transport"; "N/A"; "Barrier"; "Transport"]%string
               ["Roads"; "Unknown"; "Fence"; "Rail"]%string)
          (Cohqt.makeUnique
             ["Transport"; "N/A"; "Barrier"; "Transport"]%string))
       (map snd
            (filter (fun ts => negb (fst ts =? "N/A")%string)
                    (combine
                       ["Transport"; "N/A"; "Barrier"; "Transport"]%string
                       ["Roads"; "Unknown"; "Fence"; "Rail"]%string))).
Proof.
  apply (type_loops_visit_each_row_once
           ["Transport"; "N/A"; "Barrier"; "Transport"]%string
           ["Roads"; "Unknown"; "Fence"; "Rail"]%string Samples.empty_ws).
  reflexivity.
Defined.

(** ** The subtype surfaces *)

Lemma calcSubtypeDisturbance_direct_run (extent : list cell) (cs : R)
  (distanceDict weightDict : Cohqt.dict) (AnthroFeatures subtype T : string)
  (ws : workspace) (features : raster) (d w : R) :
  assoc subtype distanceDict = Some d ->
  assoc subtype weightDict = Some w ->
  assoc AnthroFeatures (rasters ws) = Some features ->
  d <= 0 -> 0 < w ->
  Cohqt.calcSubtypeDisturbance extent cs distanceDict weightDict
    AnthroFeatures subtype T ws =
  (Return
     (Some (const 100
            - Con (IsNull features) (const 0) features * const w)%ras),
   mkWorkspace
     (put (T ++ "_" ++ subtype ++ "_Subtype_Disturbance")%string
          (const 100
           - Con (IsNull features) (const 0) features * const w)%ras
          (rasters ws))
     (tables ws) (feature_classes ws)
     (messages ws
      ++ [("  Calculating direct effects of " ++ subtype)%string])).
Proof.
  intros HD HW HF Hd Hw.
  unfold Cohqt.calcSubtypeDisturbance, Cohqt.dict_get, bind, Raster.
  rewrite HD, HW. unfold ret at 1 2. rewrite HF.
  rewrite Rltb_false by exact Hd. rewrite Rltb_true by exact Hw.
  reflexivity.
Qed.

(** A subtype with no positive Distance and a positive Weight [w] has
    direct effects only: [calcSubtypeDisturbance] returns a surface that
    holds [100 - v * w] on a cell where the feature raster holds [v] and 100
    on every other cell, whatever the extent and the cell size; the surface
    is saved as [<term>_<subtype>_Subtype_Disturbance] and one line is
    logged. *)
Theorem calcSubtypeDisturbance_direct_effects (extent : list cell) (cs : R)
  (distanceDict weightDict : Cohqt.dict) (AnthroFeatures subtype T : string)
  (ws : workspace) (features : raster) (d w : R) :
  assoc subtype distanceDict = Some d ->
  assoc subtype weightDict = Some w ->
  assoc AnthroFeatures (rasters ws) = Some features ->
  d <= 0 -> 0 < w ->
  exists (r : raster) (ws' : workspace),
    Cohqt.calcSubtypeDisturbance extent cs distanceDict weightDict
      AnthroFeatures subtype T ws = (Return (Some r), ws')
    /\ (forall (c : cell) (v : R),
          features c = Some v -> r c = Some (100 - v * w))
    /\ (forall c : cell, features c = None -> r c = Some 100)
    /\ assoc (T ++ "_" ++ subtype ++ "_Subtype_Disturbance")%string
             (rasters ws') = Some r
    /\ messages ws'
       = messages ws
         ++ [("  Calculating direct effects of " ++ subtype)%string].
Proof.
  intros HD HW HF Hd Hw.
  eexists. eexists. split; [|split; [|split; [|split]]].
  - apply (calcSubtypeDisturbance_direct_run extent cs distanceDict
             weightDict AnthroFeatures subtype T ws features d w);
      assumption.
  - intros c v Hc.
    unfold Minus, Times, Con, IsNull, local2, const. rewrite Hc.
    now rewrite Reqb_true.
  - intros c Hc.
    unfold Minus, Times, Con, IsNull, local2, const. rewrite Hc.
    rewrite Reqb_false by lra. f_equal. ring.
  - cbn [rasters]. apply assoc_put_same.
  - reflexivity.
Qed.

Lemma calcSubtypeDisturbance_direct_effects_witness :
  exists (r : raster) (ws' : workspace),
    Cohqt.calcSubtypeDisturbance Samples.strip 1 [("Fence"%string, 0)]
      [("Fence"%string, 40)] "AnthroData.gdb/Fence" "Fence" "Pre"
      Samples.road_ws = (Return (Some r), ws')
    /\ r (2, 0)%Z = Some (100 - 1 * 40)
    /\ r (0, 0)%Z = Some 100
    /\ assoc "Pre_Fence_Subtype_Disturbance"%string (rasters ws') = Some r
    /\ messages ws'
       = messages Samples.road_ws
         ++ ["  Calculating direct effects of Fence"%string].
Proof.
  destruct (calcSubtypeDisturbance_direct_effects Samples.strip 1
              [("Fence"%string, 0)] [("Fence"%string, 40)]
              "AnthroData.gdb/Fence" "Fence" "Pre" Samples.road_ws
              Samples.fence 0 40)
    as (r & ws' & Hrun & Hv & Hn & Hs & Hm).
  - reflexivity.
  - reflexivity.
  - reflexivity.
  - lra.
  - lra.
  - exists r, ws'. split; [exact Hrun|].
    split; [apply Hv; reflexivity|].
    split; [apply Hn; reflexivity|].
    split; [exact Hs | exact Hm].
Defined.

Lemma decay_value_ge (d w x : R) :
  0 <= w -> 100 - w <= Cohqt.decay_value d w x.
Proof.
  intros Hw. unfold Cohqt.decay_value.
  pose proof (exp_pos ((x / (d / 2) - 1) * 5)) as Hx.
  assert (1 / (1 + exp ((x / (d / 2) - 1) * 5)) <= 1).
  { apply Rmult_le_reg_r with (1 + exp ((x / (d / 2) - 1) * 5)); [lra|].
    unfold Rdiv. rewrite Rmult_1_l, Rinv_l by lra. lra. }
  nra.
Qed.

(** With a positive Distance and a Weight [w >= 0] the surface
    [calcSubtypeDisturbance] returns has no NoData cell, and every value
    lies between [100 - w] and 100: a Weight of at most 100 keeps the
    surface in the range 0 to 100. *)
Theorem calcSubtypeDisturbance_decay_range (extent : list cell) (cs : R)
  (distanceDict weightDict : Cohqt.dict) (AnthroFeatures subtype T : string)
  (ws : workspace) (features : raster) (d w : R) :
  assoc subtype distanceDict = Some d ->
  assoc subtype weightDict = Some w ->
  assoc AnthroFeatures (rasters ws) = Some features ->
  0 < d -> 0 <= w ->
  exists (r : raster) (ws' : workspace),
    Cohqt.calcSubtypeDisturbance extent cs distanceDict weightDict
      AnthroFeatures subtype T ws = (Return (Some r), ws')
    /\ (forall c : cell, Spec.within (100 - w) 100 r c)
    /\ (w <= 100 -> forall c : cell, Spec.within 0 100 r c).
Proof.
  intros HD HW HF Hd Hw.
  assert (Hr : forall c : cell,
             Spec.within (100 - w) 100
               (Spec.decaySurface extent cs features d w) c).
  { intros c. unfold Spec.within. rewrite decaySurface_cell by exact Hd.
    destruct (EucDistance extent features d cs c) as [x|].
    - eexists. split; [reflexivity|].
      split; [now apply decay_value_ge | now apply decay_value_le_100].
    - exists 100. split; [reflexivity | lra]. }
  eexists. eexists. split; [|split].
  - apply calcSubtypeDisturbance_decay_run; eassumption.
  - exact Hr.
  - intros Hw' c. destruct (Hr c) as (v & Hv & Hb).
    exists v. split; [exact Hv | lra].
Qed.

Lemma calcSubtypeDisturbance_decay_range_witness :
  exists (r : raster) (ws' : workspace),
    Cohqt.calcSubtypeDisturbance Samples.strip 1 Samples.road_distance
      Samples.road_weight "AnthroData.gdb/Roads" "Roads" "Pre"
      Samples.road_ws = (Return (Some r), ws')
    /\ Spec.within 0 100 r (1, 0)%Z.
Proof.
  destruct (calcSubtypeDisturbance_decay_range Samples.strip 1
              Samples.road_distance Samples.road_weight
              "AnthroData.gdb/Roads" "Roads" "Pre" Samples.road_ws
              Samples.road 2 100)
    as (r & ws' & Hrun & _ & Hr).
  - reflexivity.
  - reflexivity.
  - reflexivity.
  - lra.
  - lra.
  - exists r, ws'. split; [exact Hrun|]. apply Hr. lra.
Defined.

(** [calcSubtypeDisturbance] looks the subtype up before it does anything
    else: a subtype missing from either dictionary raises [KeyError], and a
    feature raster that cannot be opened raises [RuntimeError] even for a
    subtype whose Distance and Weight would give no surface; in each case
    nothing is logged or saved. *)
Theorem calcSubtypeDisturbance_missing_input (extent : list cell) (cs : R)
  (distanceDict weightDict : Cohqt.dict) (AnthroFeatures subtype T : string)
  (ws : workspace) :
  assoc subtype distanceDict = None
  \/ assoc subtype weightDict = None
  \/ assoc AnthroFeatures (rasters ws) = None ->
  exists e : exn,
    Cohqt.calcSubtypeDisturbance extent cs distanceDict weightDict
      AnthroFeatures subtype T ws = (Raise e, ws)
    /\ (e = KeyError
        <-> assoc subtype distanceDict = None
            \/ assoc subtype weightDict = None)
    /\ (e = RuntimeError
        <-> assoc subtype distanceDict <> None
            /\ assoc subtype weightDict <> None).
Proof.
  intros H.
  unfold Cohqt.calcSubtypeDisturbance, Cohqt.dict_get, bind, Raster.
  destruct (assoc subtype distanceDict) as [d|] eqn:HD.
  - destruct (assoc subtype weightDict) as [w|] eqn:HW.
    + unfold ret at 1 2.
      destruct (assoc AnthroFeatures (rasters ws)) as [f|] eqn:HF.
      * destruct H as [H | [H | H]]; discriminate.
      * exists RuntimeError. split; [reflexivity|]. split.
        -- split; [discriminate | intros [? | ?]; discriminate].
        -- split; [intros _; split; discriminate | reflexivity].
    + exists KeyError. split; [reflexivity|]. split.
      * split; [intros _; now right | reflexivity].
      * split; [discriminate | intros [_ Hn]; now elim Hn].
  - exists KeyError. split; [reflexivity|]. split.
    + split; [intros _; now left | reflexivity].
    + split; [discriminate | intros [Hn _]; now elim Hn].
Qed.

Lemma calcSubtypeDisturbance_missing_input_witness :
  exists e : exn,
    Cohqt.calcSubtypeDisturbance Samples.strip 1 [("Fence"%string, 0)]
      [("Fence"%string, 0)] "AnthroData.gdb/Fences" "Fence" "Pre"
      Samples.road_ws = (Raise e, Samples.road_ws)
    /\ (e = KeyError
        <-> assoc "Fence"%string [("Fence"%string, 0)] = None
            \/ assoc "Fence"%string [("Fence"%string, 0)] = None)
    /\ (e = RuntimeError
        <-> assoc "Fence"%string [("Fence"%string, 0)] <> None
            /\ assoc "Fence"%string [("Fence"%string, 0)] <> None).
Proof.
  apply (calcSubtypeDisturbance_missing_input Samples.strip 1
           [("Fence"%string, 0)] [("Fence"%string, 0)]
           "AnthroData.gdb/Fences" "Fence" "Pre" Samples.road_ws).
  right. right. reflexivity.
Defined.

Lemma nearest_dist_spec (cs : R) (p : cell) (srcs : list cell) (m : R) :
  nearest_dist cs p srcs = Some m ->
  (exists s : cell, In s srcs /\ m = cell_dist cs p s)
  /\ forall s : cell, In s srcs -> m <= cell_dist cs p s.
Proof.
  revert m. induction srcs as [|s rest IH]; intros m H; [discriminate|].
  simpl in H. destruct (nearest_dist cs p rest) as [m'|] eqn:E.
  - destruct (IH m' eq_refl) as [(s' & Hin & Heq) Hle].
    inversion H; subst m; clear H. split.
    + destruct (Rle_dec (cell_dist cs p s) m') as [Hc | Hc].
      * exists s. split; [now left | now apply Rmin_left].
      * exists s'. split; [now right|]. rewrite Rmin_right by lra.
        exact Heq.
    + intros s0 [<- | Hin0]; [apply Rmin_l|].
      eapply Rle_trans; [apply Rmin_r | now apply Hle].
  - inversion H; subst m; clear H. split.
    + exists s. split; [now left | reflexivity].
    + intros s0 [<- | Hin0]; [lra|].
      destruct rest; [contradiction|]. simpl in E.
      destruct (nearest_dist cs p rest); discriminate.
Qed.

Lemma nearest_dist_In (cs : R) (p s : cell) (srcs : list cell) :
  In s srcs ->
  exists m : R, nearest_dist cs p srcs = Some m /\ m <= cell_dist cs p s.
Proof.
  intros Hin. destruct (nearest_dist cs p srcs) as [m|] eqn:E.
  - exists m. split; [reflexivity|].
    now apply (nearest_dist_spec cs p srcs m E).
  - destruct srcs as [|s0 rest]; [contradiction|]. simpl in E.
    destruct (nearest_dist cs p rest); discriminate.
Qed.

Lemma nearest_dist_incl (cs : R) (p : cell) (srcs srcs' : list cell) (m : R) :
  incl srcs srcs' -> nearest_dist cs p srcs = Some m ->
  exists m' : R, nearest_dist cs p srcs' = Some m' /\ m' <= m.
Proof.
  intros Hincl H.
  destruct (nearest_dist_spec cs p srcs m H) as [(s & Hin & ->) _].
  now apply nearest_dist_In, Hincl.
Qed.

Lemma decaySurface_antitone (extent : list cell) (cs : R)
  (features features' : raster) (d w : R) (c : cell) :
  0 < d -> 0 <= w ->
  (forall p : cell,
     Spec.present features p = true -> Spec.present features' p = true) ->
  exists v v' : R,
    Spec.decaySurface extent cs features d w c = Some v
    /\ Spec.decaySurface extent cs features' d w c = Some v'
    /\ v' <= v.
Proof.
  intros Hd Hw Hsub.
  assert (Hincl : incl (sources extent features) (sources extent features')).
  { intros p Hp. unfold sources in *. apply filter_In in Hp.
    apply filter_In. split; [tauto|]. apply Hsub. tauto. }
  rewrite !decaySurface_by_distance by exact Hd.
  assert (Hany : forall o : option R,
             exists v' : R,
               match o with
               | Some x =>
                   Some (if Rleb x d then Cohqt.decay_value d w x else 100)
               | None => Some 100
               end = Some v' /\ v' <= 100).
  { intros [x|]; eexists; (split; [reflexivity|]); [|lra].
    destruct (Rleb x d); [now apply decay_value_le_100 | lra]. }
  destruct (nearest_dist cs c (sources extent features)) as [x|] eqn:E.
  - destruct (nearest_dist_incl cs c _ _ x Hincl E) as (x' & -> & Hle).
    do 2 eexists. split; [reflexivity|]. split; [reflexivity|].
    unfold Rleb. destruct (Rle_dec x d), (Rle_dec x' d); try lra.
    + now apply decay_value_monotone.
    + now apply decay_value_le_100.
  - destruct (Hany (nearest_dist cs c (sources extent features')))
      as (v' & Hv' & Hle).
    exists 100, v'. split; [reflexivity|]. split; [exact Hv' | exact Hle].
Qed.

(** More features, more disturbance: when every cell that holds a feature
    in one raster holds one in another, the surface [calcSubtypeDisturbance]
    builds from the second raster is nowhere above the surface built from
    the first (Distance positive, Weight not negative). *)
Theorem calcSubtypeDisturbance_antitone_in_features (extent : list cell)
  (cs : R) (distanceDict weightDict : Cohqt.dict)
  (AnthroFeatures AnthroFeatures' subtype T T' : string) (ws : workspace)
  (features features' : raster) (d w : R) :
  assoc subtype distanceDict = Some d ->
  assoc subtype weightDict = Some w ->
  assoc AnthroFeatures (rasters ws) = Some features ->
  assoc AnthroFeatures' (rasters ws) = Some features' ->
  0 < d -> 0 <= w ->
  (forall p : cell,
     Spec.present features p = true -> Spec.present features' p = true) ->
  exists (r r' : raster) (ws1 ws2 : workspace),
    Cohqt.calcSubtypeDisturbance extent cs distanceDict weightDict
      AnthroFeatures subtype T ws = (Return (Some r), ws1)
    /\ Cohqt.calcSubtypeDisturbance extent cs distanceDict weightDict
         AnthroFeatures' subtype T' ws = (Return (Some r'), ws2)
    /\ forall c : cell,
         exists v v' : R, r c = Some v /\ r' c = Some v' /\ v' <= v.
Proof.
  intros HD HW HF HF' Hd Hw Hsub.
  do 4 eexists. split; [|split].
  - apply calcSubtypeDisturbance_decay_run; eassumption.
  - apply calcSubtypeDisturbance_decay_run; eassumption.
  - intros c. now apply decaySurface_antitone.
Qed.

Lemma calcSubtypeDisturbance_antitone_in_features_witness :
  exists (r r' : raster) (ws1 ws2 : workspace),
    Cohqt.calcSubtypeDisturbance Samples.strip 1 Samples.road_distance
      Samples.road_weight "AnthroData.gdb/Roads" "Roads" "Pre"
      Samples.proposed_ws = (Return (Some r), ws1)
    /\ Cohqt.calcSubtypeDisturbance Samples.strip 1 Samples.road_distance
         Samples.road_weight "Post_Roads" "Roads" "Post"
         Samples.proposed_ws = (Return (Some r'), ws2)
    /\ forall c : cell,
         exists v v' : R, r c = Some v /\ r' c = Some v' /\ v' <= v.
Proof.
  apply (calcSubtypeDisturbance_antitone_in_features Samples.strip 1
           Samples.road_distance Samples.road_weight
           "AnthroData.gdb/Roads" "Post_Roads" "Roads" "Pre" "Post"
           Samples.proposed_ws Samples.road Samples.road_and_spur 2 100).
  - reflexivity.
  - reflexivity.
  - reflexivity.
  - reflexivity.
  - lra.
  - lra.
  - intros [x y]. unfold Spec.present, Samples.road_and_spur, Samples.road.
    simpl. destruct ((x =? 0)%Z && (y =? 0)%Z); [reflexivity | discriminate].
Defined.

(** ** The composite and its failures *)

Lemma multiplyRasters_lek_run (che : Cohqt.cheStandard) (dist_field : string)
  (rasterList : list raster) (emptyRaster : raster) (ws : workspace)
  (ag lakes : raster) :
  assoc (Cohqt.os_path_join (Cohqt.InputDataPath che) "GrSG_Ag_Index")
        (rasters ws) = Some ag ->
  assoc (Cohqt.os_path_join (Cohqt.InputDataPath che) "Lakes")
        (rasters ws) = Some lakes ->
  Cohqt.multiplyRasters che dist_field rasterList "LekDisturbanceModifier"
    emptyRaster ws
  = (Return (np_prod (rasterList ++ [emptyRaster])), ws).
Proof.
  intros Hag Hlakes.
  unfold Cohqt.multiplyRasters, Cohqt.AgricultureIndex, Cohqt.Lakes, bind,
    Raster.
  rewrite Hag, Hlakes. reflexivity.
Qed.

(** For the lek disturbance modifier [multiplyRasters] multiplies the Type
    surfaces by the empty raster alone: the agriculture index and the lakes
    layer are opened but take no part, whatever the distance field; with no
    Type surface the result is the empty raster itself. *)
Theorem multiplyRasters_lek_modifier (che : Cohqt.cheStandard)
  (dist_field : string) (rasterList : list raster) (emptyRaster : raster)
  (ws : workspace) (ag lakes : raster) :
  assoc (Cohqt.os_path_join (Cohqt.InputDataPath che) "GrSG_Ag_Index")
        (rasters ws) = Some ag ->
  assoc (Cohqt.os_path_join (Cohqt.InputDataPath che) "Lakes")
        (rasters ws) = Some lakes ->
  exists anthroRaster : raster,
    Cohqt.multiplyRasters che dist_field rasterList "LekDisturbanceModifier"
      emptyRaster ws = (Return anthroRaster, ws)
    /\ (forall c : cell,
          anthroRaster c
          = Spec.omul (Spec.cell_product rasterList c) (emptyRaster c))
    /\ (rasterList = [] -> forall c : cell, anthroRaster c = emptyRaster c).
Proof.
  intros Hag Hlakes. eexists. split; [|split].
  - eapply multiplyRasters_lek_run; eassumption.
  - intros c. rewrite np_prod_cell, cell_product_app. simpl.
    now rewrite omul_1_r.
  - intros -> c. simpl. reflexivity.
Qed.

Lemma multiplyRasters_lek_modifier_witness :
  exists anthroRaster : raster,
    Cohqt.multiplyRasters Samples.che0 "GrSG_Dist" [Samples.road_type_surface]
      "LekDisturbanceModifier" Samples.lek Samples.road_ws
    = (Return anthroRaster, Samples.road_ws)
    /\ (forall c : cell,
          anthroRaster c
          = Spec.omul (Spec.cell_product [Samples.road_type_surface] c)
                      (Samples.lek c))
    /\ ([Samples.road_type_surface] = [] ->
        forall c : cell, anthroRaster c = Samples.lek c).
Proof.
  apply (multiplyRasters_lek_modifier Samples.che0 "GrSG_Dist"
           [Samples.road_type_surface] Samples.lek Samples.road_ws
           Samples.ag_index Samples.lakes); reflexivity.
Defined.

(** [multiplyRasters] opens the agriculture index and the lakes layer
    before it looks at the kind of surface: when either dataset is missing
    it raises [RuntimeError] and leaves the workspace as it was, also for
    the mule-deer fields and the lek modifier, which do not use the
    agriculture index. *)
Theorem multiplyRasters_needs_both_indices (che : Cohqt.cheStandard)
  (dist_field T : string) (rasterList : list raster) (emptyRaster : raster)
  (ws : workspace) :
  assoc (Cohqt.os_path_join (Cohqt.InputDataPath che) "GrSG_Ag_Index")
        (rasters ws) = None
  \/ assoc (Cohqt.os_path_join (Cohqt.InputDataPath che) "Lakes")
           (rasters ws) = None ->
  Cohqt.multiplyRasters che dist_field rasterList T emptyRaster ws
  = (Raise RuntimeError, ws).
Proof.
  intros H.
  unfold Cohqt.multiplyRasters, Cohqt.AgricultureIndex, Cohqt.Lakes, bind,
    Raster.
  destruct (assoc (Cohqt.os_path_join (Cohqt.InputDataPath che)
                     "GrSG_Ag_Index") (rasters ws)) as [ag|];
    [|reflexivity].
  destruct H as [H | H]; [discriminate|]. now rewrite H.
Qed.

Lemma multiplyRasters_needs_both_indices_witness :
  Cohqt.multiplyRasters Samples.che0 "MDP_Dist" [Samples.road_type_surface]
    "Pre" (const 0) Samples.proposed_ws
  = (Raise RuntimeError, Samples.proposed_ws).
Proof.
  apply (multiplyRasters_needs_both_indices Samples.che0 "MDP_Dist" "Pre"
           [Samples.road_type_surface] (const 0) Samples.proposed_ws).
  left. reflexivity.
Defined.

(** A kind of surface other than ["Pre"], ["Post"] and
    ["LekDisturbanceModifier"] never gives a surface:
    [CalcAnthroDisturbance] raises on every table and workspace, and
    [multiplyRasters] alone raises [UnboundLocalError] once both background
    datasets are open. *)
Theorem CalcAnthroDisturbance_unknown_type (extent : list cell)
  (statistics_fail : raster -> bool)
  (Parameter_Values : list Cohqt.ParameterRow) (term : string)
  (unique_proposed_subtypes : list string) (anthro_disturbance_type : string)
  (che : Cohqt.cheStandard) (dist_field weight_field : string)
  (cellSize : R) (emptyRaster : raster) (mask : option raster)
  (ws : workspace) :
  ~ Spec.valid_type anthro_disturbance_type ->
  (exists (e : exn) (ws' : workspace),
     Cohqt.CalcAnthroDisturbance extent statistics_fail Parameter_Values term
       unique_proposed_subtypes anthro_disturbance_type che dist_field
       weight_field cellSize emptyRaster mask ws = (Raise e, ws'))
  /\ forall (rasterList : list raster) (ws1 : workspace),
       assoc (Cohqt.os_path_join (Cohqt.InputDataPath che) "GrSG_Ag_Index")
             (rasters ws1) <> None ->
       assoc (Cohqt.os_path_join (Cohqt.InputDataPath che) "Lakes")
             (rasters ws1) <> None ->
       Cohqt.multiplyRasters che dist_field rasterList
         anthro_disturbance_type emptyRaster ws1
       = (Raise UnboundLocalError, ws1).
Proof.
  intros Hinv.
  assert (Hpre : (anthro_disturbance_type =? "Pre")%string = false).
  { apply String.eqb_neq. intros H. apply Hinv. now left. }
  assert (Hpost : (anthro_disturbance_type =? "Post")%string = false).
  { apply String.eqb_neq. intros H. apply Hinv. right. now left. }
  assert (Hlek : (anthro_disturbance_type =? "LekDisturbanceModifier")%string
                 = false).
  { apply String.eqb_neq. intros H. apply Hinv. right. now right. }
  assert (Hmul : forall (rasterList : list raster) (ws1 : workspace),
             exists e : exn,
               Cohqt.multiplyRasters che dist_field rasterList
                 anthro_disturbance_type emptyRaster ws1 = (Raise e, ws1)
               /\ (assoc (Cohqt.os_path_join (Cohqt.InputDataPath che)
                            "GrSG_Ag_Index") (rasters ws1) <> None ->
                   assoc (Cohqt.os_path_join (Cohqt.InputDataPath che)
                            "Lakes") (rasters ws1) <> None ->
                   e = UnboundLocalError)).
  { intros rasterList ws1.
    unfold Cohqt.multiplyRasters, Cohqt.AgricultureIndex, Cohqt.Lakes, bind,
      Raster.
    destruct (assoc (Cohqt.os_path_join (Cohqt.InputDataPath che)
                       "GrSG_Ag_Index") (rasters ws1)) as [ag|].
    - destruct (assoc (Cohqt.os_path_join (Cohqt.InputDataPath che)
                         "Lakes") (rasters ws1)) as [lakes|].
      + rewrite Hpre, Hpost, Hlek. simpl. eexists.
        split; [reflexivity | reflexivity].
      + eexists. split; [reflexivity|]. intros _ H. now elim H.
    - eexists. split; [reflexivity|]. intros H. now elim H. }
  split.
  - unfold Cohqt.CalcAnthroDisturbance. unfold bind at 1.
    destruct (Cohqt.typeRasters extent statistics_fail Parameter_Values term
                unique_proposed_subtypes anthro_disturbance_type che
                dist_field weight_field cellSize mask ws)
      as [[rasterList | e] ws1].
    + destruct (Hmul rasterList ws1) as (e & He & _). now exists e, ws1.
    + now exists e, ws1.
  - intros rasterList ws1 Hag Hlakes.
    destruct (Hmul rasterList ws1) as (e & He & Hu).
    rewrite He. now rewrite (Hu Hag Hlakes).
Qed.

Lemma CalcAnthroDisturbance_unknown_type_witness :
  (exists (e : exn) (ws' : workspace),
     Cohqt.CalcAnthroDisturbance Samples.strip (fun _ => false)
       Samples.parameter_table "Pre" [] "Current" Samples.che0 "GrSG_Dist"
       "GrSG_Weight" 1 (const 0) None Samples.road_ws = (Raise e, ws'))
  /\ forall (rasterList : list raster) (ws1 : workspace),
       assoc (Cohqt.os_path_join (Cohqt.InputDataPath Samples.che0)
                "GrSG_Ag_Index") (rasters ws1) <> None ->
       assoc (Cohqt.os_path_join (Cohqt.InputDataPath Samples.che0) "Lakes")
             (rasters ws1) <> None ->
       Cohqt.multiplyRasters Samples.che0 "GrSG_Dist" rasterList "Current"
         (const 0) ws1
       = (Raise UnboundLocalError, ws1).
Proof.
  apply (CalcAnthroDisturbance_unknown_type Samples.strip (fun _ => false)
           Samples.parameter_table "Pre" [] "Current" Samples.che0
           "GrSG_Dist" "GrSG_Weight" 1 (const 0) None Samples.road_ws).
  intros [H | [H | H]]; discriminate.
Defined.

Lemma SearchCursor_field_outcome (table : list Cohqt.ParameterRow)
  (field : string) (ws : workspace) :
  Cohqt.SearchCursor_field table field ws
  = (if forallb (fun row => has_data (assoc field (Cohqt.row_fields row)))
               table
     then Return (Spec.column table field)
     else Raise RuntimeError,
     ws).
Proof.
  induction table as [|row rest IH]; [reflexivity|].
  simpl. destruct (assoc field (Cohqt.row_fields row)) as [v|]; simpl;
    [|reflexivity].
  unfold bind. rewrite IH.
  now destruct (forallb _ rest).
Qed.

Lemma forallb_has_field_false (table : list Cohqt.ParameterRow)
  (field : string) :
  Exists (fun row => assoc field (Cohqt.row_fields row) = None) table ->
  forallb (fun row => has_data (assoc field (Cohqt.row_fields row))) table
  = false.
Proof.
  induction 1 as [row rest H | row rest H IH]; simpl.
  - now rewrite H.
  - rewrite IH. apply andb_false_r.
Qed.

(** A table in which some row lacks the distance field or the weight field
    stops [CalcAnthroDisturbance] before any surface is built: it raises
    [RuntimeError], and nothing has been logged or saved. *)
Theorem CalcAnthroDisturbance_missing_field (extent : list cell)
  (statistics_fail : raster -> bool)
  (Parameter_Values : list Cohqt.ParameterRow) (term : string)
  (unique_proposed_subtypes : list string) (anthro_disturbance_type : string)
  (che : Cohqt.cheStandard) (dist_field weight_field : string)
  (cellSize : R) (emptyRaster : raster) (mask : option raster)
  (ws : workspace) :
  Exists (fun row => assoc dist_field (Cohqt.row_fields row) = None)
         Parameter_Values
  \/ Exists (fun row => assoc weight_field (Cohqt.row_fields row) = None)
            Parameter_Values ->
  Cohqt.CalcAnthroDisturbance extent statistics_fail Parameter_Values term
    unique_proposed_subtypes anthro_disturbance_type che dist_field
    weight_field cellSize emptyRaster mask ws
  = (Raise RuntimeError, ws).
Proof.
  intros H.
  unfold Cohqt.CalcAnthroDisturbance, Cohqt.typeRasters.
  unfold bind at 1 2. rewrite SearchCursor_field_outcome.
  destruct (forallb (fun row =>
                       has_data (assoc dist_field (Cohqt.row_fields row)))
                    Parameter_Values) eqn:Ed.
  - destruct H as [H | H].
    + apply forallb_has_field_false in H. congruence.
    + unfold bind at 1. rewrite SearchCursor_field_outcome.
      now rewrite (forallb_has_field_false _ _ H).
  - reflexivity.
Qed.

Lemma CalcAnthroDisturbance_missing_field_witness :
  Cohqt.CalcAnthroDisturbance Samples.strip (fun _ => false)
    Samples.parameter_table "Pre" [] "Pre" Samples.che0 "MDO_Dist"
    "MDO_Weight" 1 (const 0) None Samples.road_ws
  = (Raise RuntimeError, Samples.road_ws).
Proof.
  apply (CalcAnthroDisturbance_missing_field Samples.strip (fun _ => false)
           Samples.parameter_table "Pre" [] "Pre" Samples.che0 "MDO_Dist"
           "MDO_Weight" 1 (const 0) None Samples.road_ws).
  left. apply Exists_cons_hd. reflexivity.
Defined.





(** ** Scores stay between 0 and 1 *)

Lemma In_cell_values (l : list raster) (c : cell) (v : R) :
  In v (Spec.cell_values l c) <-> exists s : raster, In s l /\ s c = Some v.
Proof.
  unfold Spec.cell_values. rewrite in_flat_map. split.
  - intros (s & Hs & Hv). exists s. split; [exact Hs|].
    destruct (s c) as [x|]; [|contradiction].
    destruct Hv as [-> | []]. reflexivity.
  - intros (s & Hs & Hv). exists s. split; [exact Hs|].
    rewrite Hv. now left.
Qed.

Lemma type_surface_cell (subtypeRasters : list raster) (c : cell) :
  subtypeRasters <> [] ->
  (forall s : raster, In s subtypeRasters -> Spec.within 0 100 s c) ->
  exists q : R,
    (CellStatistics_MINIMUM subtypeRasters / const 100)%ras c = Some q
    /\ 0 <= q <= 1
    /\ (exists s : raster, In s subtypeRasters /\ s c = Some (q * 100))
    /\ forall s : raster,
         In s subtypeRasters -> exists v : R, s c = Some v /\ q <= v / 100.
Proof.
  intros Hne Hrange. rewrite Divide_const_cell by lra.
  pose proof (CellStatistics_MINIMUM_cell subtypeRasters c) as Hmin.
  destruct (CellStatistics_MINIMUM subtypeRasters c) as [m|].
  - destruct Hmin as [Hin Hle]. rewrite Forall_forall in Hle.
    apply In_cell_values in Hin. destruct Hin as (s & Hs & Hsc).
    destruct (Hrange s Hs) as (v & Hv & Hb).
    assert (v = m) by congruence. subst v.
    exists (m / 100). simpl. split; [reflexivity|].
    split; [lra|]. split.
    + exists s. split; [exact Hs|]. rewrite Hsc. f_equal. field.
    + intros s' Hs'. destruct (Hrange s' Hs') as (v' & Hv' & Hb').
      exists v'. split; [exact Hv'|].
      assert (m <= v'); [|lra].
      apply Hle, In_cell_values. now exists s'.
  - destruct subtypeRasters as [|s l]; [now elim Hne|].
    rewrite Forall_forall in Hmin.
    destruct (Hrange s (or_introl eq_refl)) as (v & Hv & _).
    rewrite (Hmin s (or_introl eq_refl)) in Hv. discriminate.
Qed.

(** The Type surface of subtype surfaces that hold values from 0 to 100 is
    a score: it holds a value from 0 to 1 at every cell, a hundredth of a
    subtype value there and no more than a hundredth of any of them; and
    what [calcTypeDisturbance] returns is what the dataset
    [<term>_<type>_Type_Disturbance] holds afterwards. *)
Theorem calcTypeDisturbance_score (anthroType T : string)
  (subtypeRasters : list raster) (ws : workspace) :
  subtypeRasters <> [] ->
  (forall (s : raster) (c : cell),
     In s subtypeRasters -> Spec.within 0 100 s c) ->
  exists (typeRaster : raster) (ws' : workspace),
    Cohqt.calcTypeDisturbance anthroType subtypeRasters T ws
    = (Return typeRaster, ws')
    /\ Raster (T ++ "_" ++ anthroType ++ "_Type_Disturbance")%string ws'
       = (Return typeRaster, ws')
    /\ forall c : cell,
         exists q : R,
           typeRaster c = Some q /\ 0 <= q <= 1
           /\ (exists s : raster,
                 In s subtypeRasters /\ s c = Some (q * 100))
           /\ forall s : raster,
                In s subtypeRasters ->
                exists v : R, s c = Some v /\ q <= v / 100.
Proof.
  intros Hne Hrange. eexists. eexists. split; [|split].
  - apply calcTypeDisturbance_run.
  - unfold Raster. cbn [rasters]. now rewrite assoc_put_same.
  - intros c. apply type_surface_cell; [exact Hne|].
    intros s Hs. now apply Hrange.
Qed.

Lemma calcTypeDisturbance_score_witness :
  exists (typeRaster : raster) (ws' : workspace),
    Cohqt.calcTypeDisturbance "Transport" [const 100; const 40] "Pre"
      Samples.empty_ws
    = (Return typeRaster, ws')
    /\ Raster "Pre_Transport_Type_Disturbance"%string ws'
       = (Return typeRaster, ws')
    /\ forall c : cell,
         exists q : R,
           typeRaster c = Some q /\ 0 <= q <= 1
           /\ (exists s : raster,
                 In s [const 100; const 40] /\ s c = Some (q * 100))
           /\ forall s : raster,
                In s [const 100; const 40] ->
                exists v : R, s c = Some v /\ q <= v / 100.
Proof.
  apply (calcTypeDisturbance_score "Transport" "Pre" [const 100; const 40]
           Samples.empty_ws).
  - discriminate.
  - intros s c [<- | [<- | []]].
    + exists 100. split; [reflexivity | lra].
    + exists 40. split; [reflexivity | lra].
Defined.

Lemma cell_product_score (l : list raster) (c : cell) :
  Spec.scores l c ->
  exists p : R,
    Spec.cell_product l c = Some p /\ 0 <= p <= 1
    /\ Forall (fun s => exists q : R, s c = Some q /\ p <= q) l.
Proof.
  induction 1 as [|s l (q & Hq & Hb) _ (p & Hp & Hpb & Hall)]; simpl.
  - exists 1. split; [reflexivity|]. split; [lra | constructor].
  - exists (q * p). rewrite Hq, Hp. split; [reflexivity|].
    split; [nra|]. constructor.
    + exists q. split; [exact Hq | nra].
    + eapply Forall_impl; [|exact Hall].
      intros s' (q' & Hq' & Hle). exists q'. split; [exact Hq' | nra].
Qed.

Lemma rasterList2_score (dist_field : string) (rasterList : list raster)
  (ag lakes : raster) (c : cell) :
  Spec.scores (rasterList ++ [ag; lakes]) c ->
  Spec.score_below
    (np_prod (Cohqt.rasterList2 dist_field rasterList ag lakes))
    (rasterList ++ [lakes]) c.
Proof.
  intros Hs. unfold Spec.score_below. rewrite np_prod_cell.
  unfold Spec.scores in Hs. apply Forall_app in Hs.
  destruct Hs as [Hl Hbg].
  assert (Hlk : Spec.within 0 1 lakes c).
  { inversion Hbg as [|? ? _ Hbg']. now inversion Hbg'. }
  unfold Cohqt.rasterList2.
  destruct (dist_field =? "GrSG_Dist")%string.
  - destruct (cell_product_score (rasterList ++ [ag; lakes]) c)
      as (p & Hp & Hb & Hall).
    { apply Forall_app. now split. }
    exists p. split; [exact Hp|]. split; [exact Hb|].
    apply Forall_app in Hall. destruct Hall as [Hall1 Hall2].
    apply Forall_app. split; [exact Hall1|].
    inversion Hall2 as [|? ? _ Hall3]. exact Hall3.
  - destruct (cell_product_score (rasterList ++ [lakes]) c)
      as (p & Hp & Hb & Hall).
    { apply Forall_app. split; [exact Hl | now repeat constructor]. }
    exists p. split; [exact Hp|]. split; [exact Hb | exact Hall].
Qed.

(** The composite of scores is a score: when the Type surfaces and the
    background layers hold values from 0 to 1 at a cell, so does the
    surface [multiplyRasters] returns for ["Pre"] and ["Post"], and no Type
    surface is below it there: every further type can only lower the
    composite. *)
Theorem multiplyRasters_score (che : Cohqt.cheStandard)
  (dist_field T : string) (rasterList : list raster) (emptyRaster : raster)
  (ws : workspace) (ag lakes : raster) :
  T = "Pre"%string \/ T = "Post"%string ->
  assoc (Cohqt.os_path_join (Cohqt.InputDataPath che) "GrSG_Ag_Index")
        (rasters ws) = Some ag ->
  assoc (Cohqt.os_path_join (Cohqt.InputDataPath che) "Lakes")
        (rasters ws) = Some lakes ->
  exists anthroRaster : raster,
    Cohqt.multiplyRasters che dist_field rasterList T emptyRaster ws
    = (Return anthroRaster, ws)
    /\ forall c : cell,
         Spec.scores (rasterList ++ [ag; lakes]) c ->
         Spec.score_below anthroRaster (rasterList ++ [lakes]) c.
Proof.
  intros HT Hag Hlakes. eexists. split.
  - eapply multiplyRasters_run; eassumption.
  - intros c. apply rasterList2_score.
Qed.

Lemma multiplyRasters_score_witness :
  exists anthroRaster : raster,
    Cohqt.multiplyRasters Samples.che0 "GrSG_Dist" [const (1 / 4)] "Pre"
      (const 0) Samples.road_ws
    = (Return anthroRaster, Samples.road_ws)
    /\ Spec.score_below anthroRaster ([const (1 / 4)] ++ [Samples.lakes])
                        (0, 0)%Z.
Proof.
  destruct (multiplyRasters_score Samples.che0 "GrSG_Dist" "Pre"
              [const (1 / 4)] (const 0) Samples.road_ws Samples.ag_index
              Samples.lakes) as (r & Hrun & Hr).
  - now left.
  - reflexivity.
  - reflexivity.
  - exists r. split; [exact Hrun|]. apply Hr.
    repeat constructor.
    + exists (1 / 4). split; [reflexivity | lra].
    + exists (1 / 2). split; [reflexivity | lra].
    + exists 1. split; [reflexivity | lra].
Defined.

(** ** The seasonal habitat surfaces *)

Lemma np_prod_score_below (l : list raster) (c : cell) :
  Spec.scores l c -> Spec.score_below (np_prod l) l c.
Proof.
  intros H. unfold Spec.score_below. rewrite np_prod_cell.
  now apply cell_product_score.
Qed.

Lemma scores_incl (l l' : list raster) (c : cell) :
  incl l' l -> Spec.scores l c -> Spec.scores l' c.
Proof.
  unfold Spec.scores. rewrite !Forall_forall. intros Hincl H s Hs.
  apply H, Hincl, Hs.
Qed.

(** The sage-grouse seasonal surfaces are scores: where the disturbance
    surface, the modifiers and the suitable-habitat layer (when one is
    given) hold values from 0 to 1, so does each seasonal surface, and it is
    not above any of its operands there, the disturbance surface among
    them. *)
Theorem GrSG_seasonal_habitat_score
  (anthroRaster ConiferModifier LDI LekDistanceModifier SageModifier : raster)
  (SuitableHabitat : option raster) (c : cell) :
  Spec.scores
    ([anthroRaster; ConiferModifier; LDI; LekDistanceModifier; SageModifier]
     ++ Spec.optional SuitableHabitat) c ->
  Spec.score_below
    (Cohqt.calcWinterHabitatGRSG anthroRaster ConiferModifier LDI
       SuitableHabitat)
    ([anthroRaster; ConiferModifier; LDI] ++ Spec.optional SuitableHabitat) c
  /\ Spec.score_below
       (Cohqt.calcBreedingHabitatGRSG anthroRaster ConiferModifier LDI
          LekDistanceModifier SuitableHabitat)
       ([anthroRaster; ConiferModifier; LDI; LekDistanceModifier]
        ++ Spec.optional SuitableHabitat) c
  /\ Spec.score_below
       (Cohqt.calcSummerHabitatGRSG anthroRaster ConiferModifier LDI
          SageModifier SuitableHabitat)
       ([anthroRaster; ConiferModifier; LDI; SageModifier]
        ++ Spec.optional SuitableHabitat) c.
Proof.
  intros H. destruct SuitableHabitat as [s|]; simpl in *.
  - split; [|split].
    + apply (np_prod_score_below [anthroRaster; ConiferModifier; LDI; s]).
      eapply scores_incl; [|exact H]. intros x Hx. simpl in *. tauto.
    + apply (np_prod_score_below
               [anthroRaster; ConiferModifier; LDI; LekDistanceModifier; s]).
      eapply scores_incl; [|exact H]. intros x Hx. simpl in *. tauto.
    + apply (np_prod_score_below
               [anthroRaster; ConiferModifier; LDI; SageModifier; s]).
      eapply scores_incl; [|exact H]. intros x Hx. simpl in *. tauto.
  - split; [|split].
    + apply (np_prod_score_below [anthroRaster; ConiferModifier; LDI]).
      eapply scores_incl; [|exact H]. intros x Hx. simpl in *. tauto.
    + apply (np_prod_score_below
               [anthroRaster; ConiferModifier; LDI; LekDistanceModifier]).
      eapply scores_incl; [|exact H]. intros x Hx. simpl in *. tauto.
    + apply (np_prod_score_below
               [anthroRaster; ConiferModifier; LDI; SageModifier]).
      eapply scores_incl; [|exact H]. intros x Hx. simpl in *. tauto.
Qed.

Lemma const_score (v : R) (c : cell) :
  0 <= v <= 1 -> Spec.within 0 1 (const v) c.
Proof. intros H. exists v. split; [reflexivity | exact H]. Qed.

Lemma GrSG_seasonal_habitat_score_witness :
  Spec.score_below
    (Cohqt.calcWinterHabitatGRSG Samples.ag_index (const (1 / 2)) (const 1)
       (Some Samples.lek))
    ([Samples.ag_index; const (1 / 2); const 1]
     ++ Spec.optional (Some Samples.lek)) (0, 0)%Z
  /\ Spec.score_below
       (Cohqt.calcBreedingHabitatGRSG Samples.ag_index (const (1 / 2))
          (const 1) (const (3 / 4)) (Some Samples.lek))
       ([Samples.ag_index; const (1 / 2); const 1; const (3 / 4)]
        ++ Spec.optional (Some Samples.lek)) (0, 0)%Z
  /\ Spec.score_below
       (Cohqt.calcSummerHabitatGRSG Samples.ag_index (const (1 / 2))
          (const 1) (const (1 / 4)) (Some Samples.lek))
       ([Samples.ag_index; const (1 / 2); const 1; const (1 / 4)]
        ++ Spec.optional (Some Samples.lek)) (0, 0)%Z.
Proof.
  apply (GrSG_seasonal_habitat_score Samples.ag_index (const (1 / 2))
           (const 1) (const (3 / 4)) (const (1 / 4)) (Some Samples.lek)
           (0, 0)%Z).
  repeat constructor; try (apply const_score; lra).
  - exists (1 / 2). split; [reflexivity | lra].
  - exists 1. split; [reflexivity | lra].
Defined.

(** The mule-deer seasonal surfaces are scores in the same way: each is a
    value from 0 to 1 where its operands are, and not above the disturbance
    surface, the development index, the seasonal modifier or the
    suitable-habitat layer. *)
Theorem MD_seasonal_habitat_score
  (anthroRaster LDI SummerModifier MigrationModifier WinterModifier : raster)
  (SuitableHabitat : option raster) (c : cell) :
  Spec.scores
    ([anthroRaster; LDI; SummerModifier; MigrationModifier; WinterModifier]
     ++ Spec.optional SuitableHabitat) c ->
  Spec.score_below
    (Cohqt.calcSummerHabitatMD anthroRaster LDI SummerModifier
       SuitableHabitat)
    ([anthroRaster; LDI; SummerModifier] ++ Spec.optional SuitableHabitat) c
  /\ Spec.score_below
       (Cohqt.calcMigratoryHabitatMD anthroRaster LDI MigrationModifier
          SuitableHabitat)
       ([anthroRaster; LDI; MigrationModifier]
        ++ Spec.optional SuitableHabitat) c
  /\ Spec.score_below
       (Cohqt.calcWinterHabitatMD anthroRaster LDI WinterModifier
          SuitableHabitat)
       ([anthroRaster; LDI; WinterModifier]
        ++ Spec.optional SuitableHabitat) c.
Proof.
  intros H. destruct SuitableHabitat as [s|]; simpl in *.
  - split; [|split].
    + apply (np_prod_score_below [anthroRaster; LDI; SummerModifier; s]).
      eapply scores_incl; [|exact H]. intros x Hx. simpl in *. tauto.
    + apply (np_prod_score_below [anthroRaster; LDI; MigrationModifier; s]).
      eapply scores_incl; [|exact H]. intros x Hx. simpl in *. tauto.
    + apply (np_prod_score_below [anthroRaster; LDI; WinterModifier; s]).
      eapply scores_incl; [|exact H]. intros x Hx. simpl in *. tauto.
  - split; [|split].
    + apply (np_prod_score_below [anthroRaster; LDI; SummerModifier]).
      eapply scores_incl; [|exact H]. intros x Hx. simpl in *. tauto.
    + apply (np_prod_score_below [anthroRaster; LDI; MigrationModifier]).
      eapply scores_incl; [|exact H]. intros x Hx. simpl in *. tauto.
    + apply (np_prod_score_below [anthroRaster; LDI; WinterModifier]).
      eapply scores_incl; [|exact H]. intros x Hx. simpl in *. tauto.
Qed.

Lemma MD_seasonal_habitat_score_witness :
  Spec.score_below
    (Cohqt.calcSummerHabitatMD Samples.ag_index (const 1) (const (1 / 2))
       None)
    ([Samples.ag_index; const 1; const (1 / 2)] ++ Spec.optional None)
    (0, 0)%Z
  /\ Spec.score_below
       (Cohqt.calcMigratoryHabitatMD Samples.ag_index (const 1)
          (const (3 / 4)) None)
       ([Samples.ag_index; const 1; const (3 / 4)] ++ Spec.optional None)
       (0, 0)%Z
  /\ Spec.score_below
       (Cohqt.calcWinterHabitatMD Samples.ag_index (const 1) (const (1 / 4))
          None)
       ([Samples.ag_index; const 1; const (1 / 4)] ++ Spec.optional None)
       (0, 0)%Z.
Proof.
  apply (MD_seasonal_habitat_score Samples.ag_index (const 1)
           (const (1 / 2)) (const (3 / 4)) (const (1 / 4)) None (0, 0)%Z).
  repeat constructor; try (apply const_score; lra).
  exists (1 / 2). split; [reflexivity | lra].
Defined.

(** The sage modifier the tools read is the lek distance modifier: the
    property [SageModifier] opens the dataset
    [GrSG_Lek_Distance_Modifier], so with the rasters the tools pass the
    summer surface is the breeding surface, whatever the dataset
    [GrSG_Sage_Modifier] holds. *)
Theorem SageModifier_is_LekDistanceModifier (che : Cohqt.cheStandard)
  (ws : workspace) (m : raster)
  (anthroRaster ConiferModifier LDI : raster)
  (SuitableHabitat : option raster) :
  assoc (Cohqt.os_path_join (Cohqt.InputDataPath che)
           "GrSG_Lek_Distance_Modifier") (rasters ws) = Some m ->
  Cohqt.LekDistanceModifier che ws = (Return m, ws)
  /\ Cohqt.SageModifier che ws = (Return m, ws)
  /\ Cohqt.calcSummerHabitatGRSG anthroRaster ConiferModifier LDI m
       SuitableHabitat
     = Cohqt.calcBreedingHabitatGRSG anthroRaster ConiferModifier LDI m
         SuitableHabitat.
Proof.
  intros H. unfold Cohqt.LekDistanceModifier, Cohqt.SageModifier, Raster.
  rewrite H. repeat split.
Qed.

Lemma SageModifier_is_LekDistanceModifier_witness :
  Cohqt.LekDistanceModifier Samples.che0 Samples.modifier_ws
  = (Return (const (1 / 2)), Samples.modifier_ws)
  /\ Cohqt.SageModifier Samples.che0 Samples.modifier_ws
     = (Return (const (1 / 2)), Samples.modifier_ws)
  /\ Cohqt.calcSummerHabitatGRSG Samples.ag_index Samples.lakes
       Samples.lakes (const (1 / 2)) None
     = Cohqt.calcBreedingHabitatGRSG Samples.ag_index Samples.lakes
         Samples.lakes (const (1 / 2)) None.
Proof.
  apply (SageModifier_is_LekDistanceModifier Samples.che0
           Samples.modifier_ws (const (1 / 2)) Samples.ag_index
           Samples.lakes Samples.lakes None).
  reflexivity.
Defined.

(** ** Uplift, the lek adjusters and the seasonal average *)

Lemma oadd_assoc (a b c : option R) :
  Spec.oadd a (Spec.oadd b c) = Spec.oadd (Spec.oadd a b) c.
Proof. destruct a, b, c; simpl; try reflexivity. f_equal. ring. Qed.

Lemma oadd_0_r (a : option R) : Spec.oadd a (Some 0) = a.
Proof. destruct a; simpl; [f_equal; ring | reflexivity]. Qed.

Lemma Plus_cell (a b : raster) (c : cell) :
  Plus a b c = Spec.oadd (a c) (b c).
Proof. unfold Plus, local2, Spec.oadd. now destruct (a c), (b c). Qed.

Lemma fold_left_Plus_cell (rs : list raster) (r : raster) (c : cell) :
  fold_left Plus rs r c = Spec.oadd (r c) (Spec.cell_sum rs c).
Proof.
  revert r. induction rs as [|s rs IH]; intros r; simpl.
  - now rewrite oadd_0_r.
  - rewrite IH, Plus_cell. now rewrite oadd_assoc.
Qed.

(** [calcLekUpliftModifier] adds the uplift surfaces to the lek presence
    layer one after the other, in the order of the list: at a cell the
    result is the left-to-right sum that starts from the value of the layer;
    a cell holds a value exactly when the layer and every uplift surface do;
    and with no uplift surface the result is the lek presence layer
    itself. *)
Theorem calcLekUpliftModifier_sum (LekPresenceRaster : raster)
  (upliftModifierList : list raster) :
  (forall c : cell,
     Cohqt.calcLekUpliftModifier LekPresenceRaster upliftModifierList c
     = fold_left Spec.oadd (map (fun uplift => uplift c) upliftModifierList)
         (LekPresenceRaster c))
  /\ (forall c : cell,
        Spec.present
          (Cohqt.calcLekUpliftModifier LekPresenceRaster upliftModifierList)
          c
        = Spec.present LekPresenceRaster c
          && forallb (fun uplift => Spec.present uplift c)
               upliftModifierList)
  /\ Cohqt.calcLekUpliftModifier LekPresenceRaster [] = LekPresenceRaster.
Proof.
  unfold Cohqt.calcLekUpliftModifier. split; [|split].
  - intros c. revert LekPresenceRaster.
    induction upliftModifierList as [|s l IH]; intros r; [reflexivity|].
    simpl. rewrite IH. now rewrite Plus_cell.
  - intros c. revert LekPresenceRaster.
    induction upliftModifierList as [|s l IH]; intros r; simpl.
    + now rewrite andb_true_r.
    + rewrite IH. unfold Spec.present. rewrite Plus_cell.
      destruct (r c), (s c); simpl; reflexivity.
  - reflexivity.
Qed.

(** On a lek cell the post-project seasonal score is not the habitat
    product but one plus the uplifts: with the lek uplift modifier built
    from the pre and post surfaces of each modifier, a cell where the lek
    presence layer holds 1 gets [1 + sum (post - pre)], whatever the
    post-project seasonal surface holds there; a cell where the layer holds
    0 keeps the seasonal surface. *)
Theorem lek_cell_post_score (postSeasonalHabitat LekPresenceRaster : raster)
  (modifiers : list (raster * raster)) (c : cell) (pairs : list (R * R)) :
  Forall2 (fun m v => fst m c = Some (fst v) /\ snd m c = Some (snd v))
          modifiers pairs ->
  let upliftRasters :=
    map (fun m => Cohqt.calcUplift (fst m) (snd m)) modifiers in
  let lekUpliftModifier :=
    Cohqt.calcLekUpliftModifier LekPresenceRaster upliftRasters in
  (LekPresenceRaster c = Some 1 ->
   Cohqt.applyLekUpliftModifierPost postSeasonalHabitat LekPresenceRaster
     lekUpliftModifier c
   = Some (1 + Hqtlib.Rsum (map (fun v => snd v - fst v) pairs)))
  /\ (LekPresenceRaster c = Some 0 ->
      Cohqt.applyLekUpliftModifierPost postSeasonalHabitat LekPresenceRaster
        lekUpliftModifier c
      = postSeasonalHabitat c).
Proof.
  intros Hall upliftRasters lekUpliftModifier.
  assert (Hsum : Spec.cell_sum upliftRasters c
                 = Some (Hqtlib.Rsum (map (fun v => snd v - fst v) pairs))).
  { unfold upliftRasters.
    induction Hall as [|[pre post] [x y] ms vs [Hpre Hpost] _ IH];
      [reflexivity|].
    simpl in *. rewrite IH. unfold Cohqt.calcUplift, Minus, local2.
    now rewrite Hpre, Hpost. }
  unfold Cohqt.applyLekUpliftModifierPost. cbv zeta.
  rewrite Con_where_VALUE_eq_0. split; intros Hlek; rewrite Hlek.
  - rewrite Reqb_false by lra. unfold lekUpliftModifier.
    unfold Cohqt.calcLekUpliftModifier.
    rewrite fold_left_Plus_cell, Hlek, Hsum. reflexivity.
  - now rewrite Reqb_true.
Qed.

Lemma lek_cell_post_score_witness :
  Cohqt.applyLekUpliftModifierPost Samples.ag_index Samples.lek
    (Cohqt.calcLekUpliftModifier Samples.lek
       (map (fun m => Cohqt.calcUplift (fst m) (snd m))
            [(const (1 / 2), const (3 / 4)); (const (1 / 4), const (1 / 2))]))
    (0, 0)%Z
  = Some (1 + Hqtlib.Rsum
                (map (fun v => snd v - fst v)
                     [(1 / 2, 3 / 4); (1 / 4, 1 / 2)])).
Proof.
  apply (lek_cell_post_score Samples.ag_index Samples.lek
           [(const (1 / 2), const (3 / 4)); (const (1 / 4), const (1 / 2))]
           (0, 0)%Z [(1 / 2, 3 / 4); (1 / 4, 1 / 2)]).
  - repeat constructor.
  - reflexivity.
Defined.

(** Outside a clean 0/1 lek layer the two adjusters pass the layer through:
    a NoData cell of the lek presence layer is NoData in both outputs, and
    a cell with any value other than 0 gets that value before the project
    (not 1) and the modifier's value after it. *)
Theorem applyLekUpliftModifier_other_values
  (preSeasonalHabitat postSeasonalHabitat LekPresenceRaster
     LekDisturbanceModifier : raster) (c : cell) :
  (LekPresenceRaster c = None ->
   Cohqt.applyLekUpliftModifierPre preSeasonalHabitat LekPresenceRaster c
   = None
   /\ Cohqt.applyLekUpliftModifierPost postSeasonalHabitat
        LekPresenceRaster LekDisturbanceModifier c = None)
  /\ (forall v : R,
        LekPresenceRaster c = Some v -> v <> 0 ->
        Cohqt.applyLekUpliftModifierPre preSeasonalHabitat
          LekPresenceRaster c = Some v
        /\ Cohqt.applyLekUpliftModifierPost postSeasonalHabitat
             LekPresenceRaster LekDisturbanceModifier c
           = LekDisturbanceModifier c).
Proof.
  unfold Cohqt.applyLekUpliftModifierPre, Cohqt.applyLekUpliftModifierPost.
  cbv zeta. rewrite !Con_where_VALUE_eq_0. split.
  - intros ->. now split.
  - intros v -> Hv. rewrite Reqb_false by exact Hv. now split.
Qed.

Lemma mean_bounds (vs : list R) (lo hi : R) :
  vs <> [] -> Forall (fun v => lo <= v <= hi) vs ->
  lo <= Hqtlib.Rsum vs / INR (List.length vs) <= hi.
Proof.
  intros Hne Hall.
  assert (Hsum : lo * INR (List.length vs) <= Hqtlib.Rsum vs
                 <= hi * INR (List.length vs)).
  { clear Hne. induction Hall as [|v l Hv _ IH].
    - simpl. lra.
    - change (Hqtlib.Rsum (v :: l)) with (v + Hqtlib.Rsum l).
      change (List.length (v :: l)) with (S (List.length l)).
      rewrite S_INR. lra. }
  assert (Hpos : 0 < INR (List.length vs)).
  { destruct vs; [now elim Hne|]. apply lt_0_INR. simpl. lia. }
  split.
  - apply Rmult_le_reg_r with (INR (List.length vs)); [exact Hpos|].
    unfold Rdiv. rewrite Rmult_assoc, Rinv_l by lra. lra.
  - apply Rmult_le_reg_r with (INR (List.length vs)); [exact Hpos|].
    unfold Rdiv. rewrite Rmult_assoc, Rinv_l by lra. lra.
Qed.

Lemma CellStatistics_MEAN_cell (l : list raster) (c : cell) :
  CellStatistics_MEAN l c
  = match Spec.cell_values l c with
    | [] => None
    | vs => Some (Hqtlib.Rsum vs / INR (List.length vs))
    end.
Proof. reflexivity. Qed.

(** The seasonal average leaves NoData out instead of counting it as 0: a
    cell is NoData only when every seasonal surface is NoData there;
    otherwise it holds the mean of the values present, which lies between
    any bounds those values keep. With three seasons present it is a third
    of their sum, with one season missing half the sum of the other two. *)
Theorem calcAverageHabitatQuality_mean (seasonalHabitatRasters : list raster)
  (c : cell) :
  (Cohqt.calcAverageHabitatQuality seasonalHabitatRasters c = None
   <-> forall s : raster, In s seasonalHabitatRasters -> s c = None)
  /\ (forall lo hi m : R,
        (forall (s : raster) (v : R),
           In s seasonalHabitatRasters -> s c = Some v -> lo <= v <= hi) ->
        Cohqt.calcAverageHabitatQuality seasonalHabitatRasters c = Some m ->
        lo <= m <= hi)
  /\ (forall (winter breeding summer : raster) (x y z : R),
        winter c = Some x -> breeding c = Some y -> summer c = Some z ->
        Cohqt.calcAverageHabitatQuality [winter; breeding; summer] c
        = Some ((x + y + z) / 3))
  /\ (forall (winter breeding summer : raster) (x z : R),
        winter c = Some x -> breeding c = None -> summer c = Some z ->
        Cohqt.calcAverageHabitatQuality [winter; breeding; summer] c
        = Some ((x + z) / 2)).
Proof.
  unfold Cohqt.calcAverageHabitatQuality. split; [|split; [|split]].
  - rewrite CellStatistics_MEAN_cell. split.
    + intros H s Hs. destruct (s c) as [v|] eqn:E; [|reflexivity].
      assert (Hin : In v (Spec.cell_values seasonalHabitatRasters c)).
      { apply In_cell_values. now exists s. }
      destruct (Spec.cell_values seasonalHabitatRasters c);
        [contradiction | discriminate].
    + intros H.
      destruct (Spec.cell_values seasonalHabitatRasters c) as [|v vs] eqn:E;
        [reflexivity|].
      assert (Hin : In v (Spec.cell_values seasonalHabitatRasters c)).
      { rewrite E. now left. }
      apply In_cell_values in Hin. destruct Hin as (s & Hs & Hv).
      rewrite (H s Hs) in Hv. discriminate.
  - intros lo hi m Hb. rewrite CellStatistics_MEAN_cell.
    destruct (Spec.cell_values seasonalHabitatRasters c) as [|v vs] eqn:E;
      [discriminate|].
    intros [= <-].
    apply (mean_bounds (v :: vs) lo hi); [discriminate|].
    apply Forall_forall. intros v' Hv'. rewrite <- E in Hv'.
    apply In_cell_values in Hv'. destruct Hv' as (s & Hs & Hsv).
    now apply (Hb s v').
  - intros winter breeding summer x y z Hx Hy Hz.
    rewrite CellStatistics_MEAN_cell. unfold Spec.cell_values. simpl.
    rewrite Hx, Hy, Hz. simpl. f_equal. field.
  - intros winter breeding summer x z Hx Hy Hz.
    rewrite CellStatistics_MEAN_cell. unfold Spec.cell_values. simpl.
    rewrite Hx, Hy, Hz. simpl. f_equal. field.
Qed.

(** ** Merging the proposed features with the current ones *)

Section CombineLoop.

Variable anthroPath : string.
Variable merge : raster -> raster -> raster.
Variable ws0 : workspace.
Variable all : list string.

Hypothesis Hdistinct :
  forall s s' : string,
    In s all -> In s' all ->
    ("Post_" ++ s)%string <> Cohqt.os_path_join anthroPath s'.

Let body : string -> unit -> M unit :=
  fun subtype _ =>
    bind (Raster (Cohqt.os_path_join anthroPath subtype))
         (fun currentAnthroFeature =>
            bind (Raster ("Proposed_" ++ subtype)%string)
                 (fun proposedAnthroFeature =>
                    save (merge proposedAnthroFeature currentAnthroFeature)
                         ("Post_" ++ subtype)%string)).

Let agrees (ws : workspace) : Prop :=
  forall s : string,
    In s all ->
    assoc (Cohqt.os_path_join anthroPath s) (rasters ws)
    = assoc (Cohqt.os_path_join anthroPath s) (rasters ws0)
    /\ assoc ("Proposed_" ++ s)%string (rasters ws)
       = assoc ("Proposed_" ++ s)%string (rasters ws0).

Lemma combine_loop (subs : list string) (ws : workspace) :
  incl subs all -> agrees ws ->
  (forall s : string,
     In s subs ->
     assoc (Cohqt.os_path_join anthroPath s) (rasters ws0) <> None
     /\ assoc ("Proposed_" ++ s)%string (rasters ws0) <> None) ->
  exists ws' : workspace,
    for_each body subs tt ws = (Return tt, ws')
    /\ agrees ws'
    /\ (forall (s : string) (current proposed : raster),
          In s all ->
          assoc (Cohqt.os_path_join anthroPath s) (rasters ws0)
          = Some current ->
          assoc ("Proposed_" ++ s)%string (rasters ws0) = Some proposed ->
          In s subs
          \/ assoc ("Post_" ++ s)%string (rasters ws)
             = Some (merge proposed current) ->
          assoc ("Post_" ++ s)%string (rasters ws')
          = Some (merge proposed current))
    /\ (forall name : string,
          (forall s : string, In s subs -> name <> ("Post_" ++ s)%string) ->
          assoc name (rasters ws') = assoc name (rasters ws))
    /\ tables ws' = tables ws
    /\ feature_classes ws' = feature_classes ws
    /\ messages ws' = messages ws.
Proof.
  revert ws. induction subs as [|s subs IH]; intros ws Hincl Hag Hin.
  - exists ws. split; [reflexivity|]. split; [exact Hag|].
    split; [|repeat split].
    intros s current proposed _ _ _ [[] | H]. exact H.
  - assert (Hs : In s all) by (apply Hincl; now left).
    destruct (Hin s (or_introl eq_refl)) as [Hc Hp].
    destruct (assoc (Cohqt.os_path_join anthroPath s) (rasters ws0))
      as [cur|] eqn:Ec; [clear Hc | now elim Hc].
    destruct (assoc ("Proposed_" ++ s)%string (rasters ws0))
      as [prop|] eqn:Ep; [clear Hp | now elim Hp].
    destruct (Hag s Hs) as [Hc Hp]. rewrite Ec in Hc. rewrite Ep in Hp.
    set (ws1 := mkWorkspace
                  (put ("Post_" ++ s)%string (merge prop cur) (rasters ws))
                  (tables ws) (feature_classes ws) (messages ws)).
    assert (Hstep : body s tt ws = (Return tt, ws1)).
    { unfold body, bind, Raster. rewrite Hc, Hp. reflexivity. }
    assert (Hag1 : agrees ws1).
    { intros s' Hs'. destruct (Hag s' Hs') as [H1 H2].
      unfold ws1. cbn [rasters]. split.
      - rewrite assoc_put_other; [exact H1|].
        intros Heq. now apply (Hdistinct s s' Hs Hs').
      - rewrite assoc_put_other; [exact H2|].
        simpl. intros Heq. inversion Heq. }
    destruct (IH ws1) as (ws' & Hrun & Hag' & Hpost & Hother & Ht & Hf & Hm).
    + intros x Hx. apply Hincl. now right.
    + exact Hag1.
    + intros x Hx. apply Hin. now right.
    + exists ws'. split.
      { simpl for_each. unfold bind at 1. rewrite Hstep. exact Hrun. }
      split; [exact Hag'|]. split; [|split; [|repeat split]].
      * intros s' current proposed Hs' Hcur Hprop Hcase.
        apply (Hpost s' current proposed Hs' Hcur Hprop).
        destruct (string_dec s' s) as [-> | Hne].
        -- right. unfold ws1. cbn [rasters]. rewrite assoc_put_same.
           congruence.
        -- destruct Hcase as [[Heq | Hsub] | Hold].
           ++ now elim Hne.
           ++ now left.
           ++ right. unfold ws1. cbn [rasters].
              rewrite assoc_put_other; [exact Hold|].
              intros Heq. simpl in Heq. inversion Heq. now elim Hne.
      * intros name Hname. rewrite Hother.
        -- unfold ws1. cbn [rasters]. apply assoc_put_other.
           apply Hname. now left.
        -- intros x Hx. apply Hname. now right.
      * now rewrite Ht.
      * now rewrite Hf.
      * now rewrite Hm.
Qed.

End CombineLoop.

Lemma Con_IsNull_cell (proposed current : raster) (c : cell) :
  Con (IsNull proposed) current proposed c
  = match proposed c with Some v => Some v | None => current c end.
Proof.
  unfold Con, IsNull. destruct (proposed c) as [v|] eqn:E.
  - now rewrite Reqb_true.
  - rewrite Reqb_false by lra. reflexivity.
Qed.

(** [combineProposedWithCurrentDebit] completes when every subtype has its
    current and its proposed raster, and leaves for each a dataset
    [Post_<subtype>] that holds the proposed value where there is one and
    the current value elsewhere, so no current feature is lost; every dataset
    of another name, the tables and the log are as before. *)
Theorem combineProposedWithCurrentDebit_run (anthroPath : string)
  (uniqueProposedSubtypes : list string) (ws : workspace) :
  (forall s : string,
     In s uniqueProposedSubtypes ->
     assoc (Cohqt.os_path_join anthroPath s) (rasters ws) <> None
     /\ assoc ("Proposed_" ++ s)%string (rasters ws) <> None) ->
  (forall s s' : string,
     In s uniqueProposedSubtypes -> In s' uniqueProposedSubtypes ->
     ("Post_" ++ s)%string <> Cohqt.os_path_join anthroPath s') ->
  exists ws' : workspace,
    Cohqt.combineProposedWithCurrentDebit anthroPath uniqueProposedSubtypes
      ws = (Return tt, ws')
    /\ (forall (s : string) (current proposed : raster),
          In s uniqueProposedSubtypes ->
          assoc (Cohqt.os_path_join anthroPath s) (rasters ws)
          = Some current ->
          assoc ("Proposed_" ++ s)%string (rasters ws) = Some proposed ->
          exists post : raster,
            assoc ("Post_" ++ s)%string (rasters ws') = Some post
            /\ (forall c : cell,
                  post c
                  = match proposed c with
                    | Some v => Some v
                    | None => current c
                    end)
            /\ forall c : cell,
                 Spec.present post c
                 = Spec.present current c || Spec.present proposed c)
    /\ (forall name : string,
          (forall s : string,
             In s uniqueProposedSubtypes -> name <> ("Post_" ++ s)%string) ->
          assoc name (rasters ws') = assoc name (rasters ws))
    /\ tables ws' = tables ws
    /\ messages ws' = messages ws.
Proof.
  intros Hin Hdistinct.
  destruct (combine_loop anthroPath (fun p c => Con (IsNull p) c p) ws
              uniqueProposedSubtypes Hdistinct uniqueProposedSubtypes ws)
    as (ws' & Hrun & _ & Hpost & Hother & Ht & _ & Hm).
  - apply incl_refl.
  - intros s _. now split.
  - exact Hin.
  - exists ws'. split; [exact Hrun|]. split; [|repeat split; assumption].
    intros s current proposed Hs Hc Hp. eexists. split.
    + apply (Hpost s current proposed Hs Hc Hp). now left.
    + split.
      * intros c. apply Con_IsNull_cell.
      * intros c. unfold Spec.present. rewrite Con_IsNull_cell.
        destruct (proposed c), (current c); reflexivity.
Qed.

Lemma combineProposedWithCurrentDebit_run_witness :
  exists ws' : workspace,
    Cohqt.combineProposedWithCurrentDebit "AnthroData.gdb" ["Roads"%string]
      Samples.debit_merge_ws = (Return tt, ws')
    /\ (exists post : raster,
          assoc "Post_Roads"%string (rasters ws') = Some post
          /\ (forall c : cell,
                post c
                = match Samples.spur c with
                  | Some v => Some v
                  | None => Samples.road c
                  end)
          /\ forall c : cell,
               Spec.present post c
               = Spec.present Samples.road c || Spec.present Samples.spur c)
    /\ assoc "AnthroData.gdb/Roads"%string (rasters ws') = Some Samples.road.
Proof.
  destruct (combineProposedWithCurrentDebit_run "AnthroData.gdb"
              ["Roads"%string] Samples.debit_merge_ws)
    as (ws' & Hrun & Hpost & Hother & _).
  - intros s [<- | []]. split; discriminate.
  - intros s s' [<- | []] [<- | []]. discriminate.
  - exists ws'. split; [exact Hrun|]. split.
    + apply (Hpost "Roads"%string Samples.road Samples.spur);
        [now left | reflexivity | reflexivity].
    + rewrite Hother; [reflexivity|].
      intros s [<- | []]. discriminate.
Defined.

(** [combineProposedWithCurrentCredit] completes under the same conditions
    and leaves for each subtype a dataset [Post_<subtype>] that holds the
    current value where the proposed raster holds a value other than 1 and
    NoData where it holds 1 or nothing: features are removed, never added. *)
Theorem combineProposedWithCurrentCredit_run (anthroPath : string)
  (uniqueProposedSubtypes : list string) (ws : workspace) :
  (forall s : string,
     In s uniqueProposedSubtypes ->
     assoc (Cohqt.os_path_join anthroPath s) (rasters ws) <> None
     /\ assoc ("Proposed_" ++ s)%string (rasters ws) <> None) ->
  (forall s s' : string,
     In s uniqueProposedSubtypes -> In s' uniqueProposedSubtypes ->
     ("Post_" ++ s)%string <> Cohqt.os_path_join anthroPath s') ->
  exists ws' : workspace,
    Cohqt.combineProposedWithCurrentCredit anthroPath uniqueProposedSubtypes
      ws = (Return tt, ws')
    /\ (forall (s : string) (current proposed : raster),
          In s uniqueProposedSubtypes ->
          assoc (Cohqt.os_path_join anthroPath s) (rasters ws)
          = Some current ->
          assoc ("Proposed_" ++ s)%string (rasters ws) = Some proposed ->
          exists post : raster,
            assoc ("Post_" ++ s)%string (rasters ws') = Some post
            /\ (forall c : cell,
                  post c
                  = match proposed c with
                    | Some v => if Reqb v 1 then None else current c
                    | None => None
                    end)
            /\ forall c : cell,
                 Spec.present post c = true ->
                 Spec.present current c = true)
    /\ (forall name : string,
          (forall s : string,
             In s uniqueProposedSubtypes -> name <> ("Post_" ++ s)%string) ->
          assoc name (rasters ws') = assoc name (rasters ws))
    /\ tables ws' = tables ws
    /\ messages ws' = messages ws.
Proof.
  intros Hin Hdistinct.
  destruct (combine_loop anthroPath
              (fun p c => SetNull_where p c (VALUE_eq 1)) ws
              uniqueProposedSubtypes Hdistinct uniqueProposedSubtypes ws)
    as (ws' & Hrun & _ & Hpost & Hother & Ht & _ & Hm).
  - apply incl_refl.
  - intros s _. now split.
  - exact Hin.
  - exists ws'. split; [exact Hrun|]. split; [|repeat split; assumption].
    intros s current proposed Hs Hc Hp. eexists. split.
    + apply (Hpost s current proposed Hs Hc Hp). now left.
    + split.
      * intros c. reflexivity.
      * intros c. unfold Spec.present, SetNull_where, VALUE_eq.
        destruct (proposed c) as [v|]; [|discriminate].
        destruct (Reqb v 1); [discriminate | tauto].
Qed.

Lemma combineProposedWithCurrentCredit_run_witness :
  exists ws' : workspace,
    Cohqt.combineProposedWithCurrentCredit "AnthroData.gdb" ["Roads"%string]
      Samples.credit_merge_ws = (Return tt, ws')
    /\ exists post : raster,
         assoc "Post_Roads"%string (rasters ws') = Some post
         /\ post (0, 0)%Z = None
         /\ post (2, 0)%Z = Some 1.
Proof.
  destruct (combineProposedWithCurrentCredit_run "AnthroData.gdb"
              ["Roads"%string] Samples.credit_merge_ws)
    as (ws' & Hrun & Hpost & _).
  - intros s [<- | []]. split; discriminate.
  - intros s s' [<- | []] [<- | []]. discriminate.
  - exists ws'. split; [exact Hrun|].
    destruct (Hpost "Roads"%string Samples.road_and_spur
                Samples.road_removed) as (post & Hsaved & Hcell & _);
      [now left | reflexivity | reflexivity |].
    exists post. split; [exact Hsaved|]. split.
    + rewrite Hcell. simpl. now rewrite Reqb_true.
    + rewrite Hcell. simpl. rewrite Reqb_false by lra. reflexivity.
Defined.

(** ** The zonal aggregator *)

(** The zonal mean of a score is a score: when the values the surface holds
    on the cells of a zone lie between 0 and 1 (a NoData cell counts as 0),
    the row [CalcZonalStats] writes for the zone holds a mean between 0 and
    1. *)
Theorem CalcZonalStats_mean_in_range (nearest : cell -> cell)
  (in_zone_data : list Hqtlib.zone) (zone_field : string)
  (in_value_raster : raster) (out_table : string) (ws : workspace)
  (id : Z) (cells : list cell) :
  In (id, cells) in_zone_data -> cells <> [] ->
  (forall (c : cell) (v : R),
     In c cells -> in_value_raster (nearest c) = Some v -> 0 <= v <= 1) ->
  exists (ws' : workspace) (t : zonal_table) (m : R),
    Hqtlib.CalcZonalStats nearest in_zone_data zone_field in_value_raster
      out_table ws
    = (Return tt, ws')
    /\ assoc out_table (tables ws') = Some t
    /\ In (id, m) t
    /\ 0 <= m <= 1.
Proof.
  intros Hin Hne Hb.
  exists (snd (Hqtlib.CalcZonalStats nearest in_zone_data zone_field
                 in_value_raster out_table ws)).
  rewrite CalcZonalStats_run. cbn [snd tables].
  eexists. exists (Spec.zonal_mean nearest in_value_raster cells).
  split; [reflexivity|]. split; [apply assoc_put_same|].
  split; [now apply ZonalStatisticsAsTable_MEAN_row|].
  unfold Spec.zonal_mean.
  rewrite <- (length_map (fun c => Spec.zero_filled in_value_raster
                                      (nearest c)) cells).
  apply mean_bounds.
  - destruct cells; [now elim Hne | discriminate].
  - apply Forall_forall. intros v Hv. apply in_map_iff in Hv.
    destruct Hv as (c & <- & Hc). unfold Spec.zero_filled.
    destruct (in_value_raster (nearest c)) as [x|] eqn:E; [|lra].
    now apply (Hb c x).
Qed.

Lemma CalcZonalStats_mean_in_range_witness :
  exists (ws' : workspace) (t : zonal_table) (m : R),
    Hqtlib.CalcZonalStats (fun c => c) [Samples.zone7] "Map_Unit_ID"
      Samples.ag_index "GrSG_Stats_Pre_Winter" Samples.empty_ws
    = (Return tt, ws')
    /\ assoc "GrSG_Stats_Pre_Winter" (tables ws') = Some t
    /\ In (7%Z, m) t
    /\ 0 <= m <= 1.
Proof.
  apply (CalcZonalStats_mean_in_range (fun c => c) [Samples.zone7]
           "Map_Unit_ID" Samples.ag_index "GrSG_Stats_Pre_Winter"
           Samples.empty_ws 7%Z [(-1, 0); (0, 0)]%Z).
  - now left.
  - discriminate.
  - intros c v _. unfold Samples.ag_index.
    destruct (fst c =? 0)%Z; intros [= <-]; lra.
Defined.

Lemma assoc_remove_key_same (V : Type) (k : string) (l : list (string * V)) :
  assoc k (remove_key k l) = None.
Proof.
  induction l as [|[k' v] l IH]; [reflexivity|].
  simpl. destruct (String.eqb k k') eqn:E; [exact IH|].
  simpl. now rewrite E.
Qed.

(** What a run of [CalcZonalStats] that completes leaves behind: the
    intermediate dataset ["sub_raster"] is gone, a dataset of that name that
    was there before the run included; every other dataset, every table but
    the output table and the log are as they were. *)
Theorem CalcZonalStats_workspace (nearest : cell -> cell)
  (in_zone_data : list Hqtlib.zone) (zone_field : string)
  (in_value_raster : raster) (out_table : string) (ws ws' : workspace) :
  Hqtlib.CalcZonalStats nearest in_zone_data zone_field in_value_raster
    out_table ws
  = (Return tt, ws') ->
  Raster "sub_raster" ws' = (Raise RuntimeError, ws')
  /\ (forall name : string,
        name <> "sub_raster"%string ->
        assoc name (rasters ws') = assoc name (rasters ws))
  /\ (forall name : string,
        name <> out_table ->
        assoc name (tables ws') = assoc name (tables ws))
  /\ messages ws' = messages ws.
Proof.
  rewrite CalcZonalStats_run. intros [= <-].
  cbn [tables rasters messages].
  split; [|split; [|split]].
  - unfold Raster. cbn [rasters]. now rewrite assoc_remove_key_same.
  - intros name Hne. apply assoc_remove_key_other.
    now apply String.eqb_neq.
  - intros name Hne. now apply assoc_put_other.
  - reflexivity.
Qed.

Lemma CalcZonalStats_workspace_witness :
  exists ws' : workspace,
    Hqtlib.CalcZonalStats (fun c => c) [Samples.zone7] "Map_Unit_ID"
      Samples.ag_index "GrSG_Stats_Pre_Winter"
      (mkWorkspace [("sub_raster"%string, Samples.road)] [] [] [])
    = (Return tt, ws')
    /\ Raster "sub_raster" ws' = (Raise RuntimeError, ws')
    /\ (forall name : string,
          name <> "sub_raster"%string ->
          assoc name (rasters ws')
          = assoc name [("sub_raster"%string, Samples.road)])
    /\ (forall name : string,
          name <> "GrSG_Stats_Pre_Winter"%string ->
          assoc name (tables ws') = None)
    /\ messages ws' = [].
Proof.
  eexists. split; [apply CalcZonalStats_run|].
  exact (CalcZonalStats_workspace (fun c => c) [Samples.zone7]
           "Map_Unit_ID" Samples.ag_index "GrSG_Stats_Pre_Winter"
           (mkWorkspace [("sub_raster"%string, Samples.road)] [] [] []) _
           (CalcZonalStats_run _ _ _ _ _ _)).
Defined.

(** ** A null value stops the debit calculator *)

Lemma debitRow_null (pre_field post_field out_field : string)
  (row : feature_row) :
  assoc "Acres"%string row <> None -> assoc pre_field row <> None ->
  assoc post_field row <> None -> assoc out_field row <> None ->
  Spec.debit_value pre_field post_field row = None ->
  Cohqt.debitRow pre_field post_field out_field row = Raise TypeError.
Proof.
  unfold Spec.debit_value, Cohqt.debitRow.
  intros H0 H1 H2 H3.
  destruct (assoc "Acres"%string row) as [x0|]; [|now elim H0].
  destruct (assoc pre_field row) as [x1|]; [|now elim H1].
  destruct (assoc post_field row) as [x2|]; [|now elim H2].
  destruct (assoc out_field row) as [x3|]; [|now elim H3].
  destruct x0, x1, x2; try discriminate; reflexivity.
Qed.

Lemma AddField_management_null (fieldName pre_field post_field : string)
  (row : feature_row) :
  assoc "Acres"%string row <> None -> assoc pre_field row <> None ->
  assoc post_field row <> None ->
  Spec.debit_value pre_field post_field row = None ->
  exists row1 : feature_row,
    Cohqt.AddField_management [row] fieldName = [row1]
    /\ Cohqt.debitRow pre_field post_field fieldName row1 = Raise TypeError.
Proof.
  intros H0 H1 H2 Hnull. unfold Cohqt.AddField_management. simpl.
  eexists. split; [reflexivity|].
  destruct (assoc fieldName row) as [x|] eqn:E.
  - apply debitRow_null; try assumption. congruence.
  - assert (Hk : forall k : string,
               assoc k row <> None ->
               assoc k (row ++ [(fieldName, None)]) = assoc k row).
    { intros k Hk. rewrite assoc_app.
      destruct (assoc k row); [reflexivity | now elim Hk]. }
    apply debitRow_null.
    + now rewrite Hk.
    + now rewrite Hk.
    + now rewrite Hk.
    + rewrite assoc_app, E. simpl. rewrite String.eqb_refl. discriminate.
    + unfold Spec.debit_value in *. now rewrite !Hk.
Qed.

(** A null value stops [calcDebits] part way: when a zone has its three
    input fields but one of them holds null, [calcDebits] raises
    [TypeError] at that zone; the zones before it have their debit written
    and logged, and no later zone is reached. *)
Theorem calcDebits_null_value (float_str : PrimFloat.float -> string)
  (DebitProjectArea pre_field post_field out_field : string)
  (ws : workspace) (good : list feature_row) (bad : feature_row)
  (rest : list feature_row) :
  assoc DebitProjectArea (feature_classes ws) = Some (good ++ bad :: rest) ->
  Forall
    (fun row => Spec.debit_value pre_field post_field row <> None)
    good ->
  assoc "Acres"%string bad <> None -> assoc pre_field bad <> None ->
  assoc post_field bad <> None ->
  Spec.debit_value pre_field post_field bad = None ->
  exists (ws' : workspace) (good' tail : list feature_row),
    Cohqt.calcDebits float_str DebitProjectArea pre_field post_field
      out_field ws = (Raise TypeError, ws')
    /\ assoc DebitProjectArea (feature_classes ws') = Some (good' ++ tail)
    /\ Forall2
         (fun row row' =>
            exists v : PrimFloat.float,
              Spec.debit_value pre_field post_field row = Some v
              /\ assoc out_field row' = Some (Some v))
         good good'
    /\ tail
       = Cohqt.AddField_management (bad :: rest) out_field
    /\ messages ws'
       = messages ws
         ++ Spec.debit_messages float_str pre_field post_field good.
Proof.
  intros Hfc Hok H0 H1 H2 Hnull.
  pose proof (AddField_management_ok good out_field pre_field post_field Hok)
    as Hadd.
  destruct (AddField_management_null out_field pre_field post_field bad
              H0 H1 H2 Hnull) as (bad1 & Hbad1 & Hraise).
  assert (Hsplit : Cohqt.AddField_management (good ++ bad :: rest) out_field
                   = Cohqt.AddField_management good out_field
                     ++ bad1 :: Cohqt.AddField_management rest out_field).
  { unfold Cohqt.AddField_management in *. rewrite map_app. simpl.
    simpl in Hbad1. inversion Hbad1 as [Hb]. now rewrite Hb. }
  unfold Cohqt.calcDebits. cbv zeta.
  unfold bind at 1. unfold get_rows at 1. rewrite Hfc.
  unfold bind at 1. unfold put_rows at 1.
  unfold bind at 1. unfold get_rows at 1. cbn [feature_classes].
  rewrite assoc_put_same. rewrite Hsplit.
  match goal with
  | |- context [Cohqt.cursorLoop _ _ _ _ _ _ _ ?w] =>
      destruct (cursorLoop_stops float_str DebitProjectArea pre_field
                  post_field out_field bad1
                  (Cohqt.AddField_management rest out_field) TypeError Hraise
                  (Cohqt.AddField_management good out_field) [] w)
        as (ws' & good' & Hloop & Hfc' & Hall & _ & Hmsg)
  end.
  - cbn [feature_classes]. now rewrite assoc_put_same.
  - eapply Forall2_Forall_r; [|exact Hadd].
    intros row row1 (Hout & Heq & Hne). split; [exact Hout | congruence].
  - exists ws', good', (bad1 :: Cohqt.AddField_management rest out_field).
    split; [exact Hloop|]. split; [exact Hfc'|]. split; [|split].
    + eapply Forall2_compose; [|exact Hadd|exact Hall].
      intros row row1 row' (Hout & Heq & Hne) (v & Hv & Hrow').
      exists v. split; [congruence | exact Hrow'].
    + unfold Cohqt.AddField_management in *. simpl. simpl in Hbad1.
      inversion Hbad1 as [Hb]. now rewrite Hb.
    + rewrite Hmsg. cbn [messages].
      now rewrite debit_messages_AddField by exact Hok.
Qed.

Lemma calcDebits_null_value_witness :
  exists (ws' : workspace) (good' tail : list feature_row),
    Cohqt.calcDebits DebitSamples.any_str "Debit_Project_Area"
      "GRSG_Pre_Project" "GRSG_Post_Project" "GRSG_Debits"
      DebitSamples.null_ws = (Raise TypeError, ws')
    /\ assoc "Debit_Project_Area" (feature_classes ws')
       = Some (good' ++ tail)
    /\ Forall2
         (fun row row' =>
            exists v : PrimFloat.float,
              Spec.debit_value "GRSG_Pre_Project" "GRSG_Post_Project" row
              = Some v
              /\ assoc "GRSG_Debits" row' = Some (Some v))
         [DebitSamples.zone_row] good'
    /\ tail
       = Cohqt.AddField_management
           [DebitSamples.null_row; DebitSamples.zone_row] "GRSG_Debits"
    /\ messages ws'
       = messages DebitSamples.null_ws
         ++ Spec.debit_messages DebitSamples.any_str "GRSG_Pre_Project"
              "GRSG_Post_Project" [DebitSamples.zone_row].
Proof.
  apply (calcDebits_null_value DebitSamples.any_str "Debit_Project_Area"
           "GRSG_Pre_Project" "GRSG_Post_Project" "GRSG_Debits"
           DebitSamples.null_ws [DebitSamples.zone_row]
           DebitSamples.null_row [DebitSamples.zone_row]).
  - reflexivity.
  - repeat constructor. discriminate.
  - discriminate.
  - discriminate.
  - discriminate.
  - reflexivity.
Defined.

(** ** The masked pass of the mule-deer surface *)

Lemma selected_run (che : Cohqt.cheStandard)
  (unique_proposed_subtypes : list string)
  (anthro_disturbance_type subtype name : string) (ws : workspace) :
  Spec.selected che unique_proposed_subtypes anthro_disturbance_type subtype
  = Some name ->
  Cohqt.selectAnthroFeatures che unique_proposed_subtypes
    anthro_disturbance_type subtype ws = (Return (Some name), ws).
Proof.
  unfold Spec.selected, Cohqt.selectAnthroFeatures.
  destruct (anthro_disturbance_type =? "Pre")%string.
  { simpl. now intros [= ->]. }
  destruct (anthro_disturbance_type =? "Post")%string.
  { destruct (Cohqt.mem subtype unique_proposed_subtypes); simpl;
      now intros [= ->]. }
  destruct (anthro_disturbance_type =? "LekDisturbanceModifier")%string.
  { destruct (Cohqt.mem subtype unique_proposed_subtypes); simpl;
      [now intros [= ->] | discriminate]. }
  simpl. discriminate.
Qed.

(** With a mask, a subtype is evaluated on its features where the mask
    holds 0 only, saved as ["temp_masked_raster"]. When the statistics of
    that dataset cannot be computed the subtype is skipped without a trace
    in the log; the [ExecuteError] is the only exception swallowed, a
    subtype missing from the dictionary still raises [KeyError]; otherwise
    the surface is the one [calcSubtypeDisturbance] builds from the masked
    features. *)
Theorem subtypeStep_masked (extent : list cell)
  (statistics_fail : raster -> bool) (che : Cohqt.cheStandard)
  (term : string) (unique_proposed_subtypes : list string)
  (anthro_disturbance_type : string) (cellSize : R)
  (distanceDict weightDict : Cohqt.dict) (mask : raster)
  (subtype name : string) (subtypeRasters : list raster) (ws : workspace)
  (features : raster) :
  Spec.selected che unique_proposed_subtypes anthro_disturbance_type subtype
  = Some name ->
  assoc name (rasters ws) = Some features ->
  let masked := Con (mask == const 0)%ras features NoData in
  let ws1 :=
    mkWorkspace (put "temp_masked_raster"%string masked (rasters ws))
                (tables ws) (feature_classes ws) (messages ws) in
  (forall c : cell,
     masked c
     = match mask c with
       | Some m => if Reqb m 0 then features c else None
       | None => None
       end)
  /\ (statistics_fail masked = true ->
      Cohqt.subtypeStep extent statistics_fail che term
        unique_proposed_subtypes anthro_disturbance_type cellSize
        distanceDict weightDict (Some mask) subtype subtypeRasters ws
      = (Return subtypeRasters, ws1))
  /\ (statistics_fail masked = false ->
      assoc subtype distanceDict = None ->
      Cohqt.subtypeStep extent statistics_fail che term
        unique_proposed_subtypes anthro_disturbance_type cellSize
        distanceDict weightDict (Some mask) subtype subtypeRasters ws
      = (Raise KeyError, ws1))
  /\ (statistics_fail masked = false ->
      forall d w : R,
        assoc subtype distanceDict = Some d ->
        assoc subtype weightDict = Some w -> 0 < d ->
        exists ws2 : workspace,
          Cohqt.subtypeStep extent statistics_fail che term
            unique_proposed_subtypes anthro_disturbance_type cellSize
            distanceDict weightDict (Some mask) subtype subtypeRasters ws
          = (Return
               (subtypeRasters
                ++ [Spec.decaySurface extent cellSize masked d w]),
             ws2)).
Proof.
  intros Hsel Hf masked ws1.
  assert (Hstart :
              Cohqt.subtypeStep extent statistics_fail che term
                unique_proposed_subtypes anthro_disturbance_type cellSize
                distanceDict weightDict (Some mask) subtype subtypeRasters ws
              = bind
                  (try_except_ExecuteError
                     (bind
                        (Cohqt.CalculateStatistics_management statistics_fail
                           "temp_masked_raster")
                        (fun _ =>
                           Cohqt.calcSubtypeDisturbance extent cellSize
                             distanceDict weightDict "temp_masked_raster"
                             subtype term))
                     (ret None))
                  (fun subtypeRaster =>
                     match subtypeRaster with
                     | Some subtypeRaster =>
                         ret (subtypeRasters ++ [subtypeRaster])
                     | None => ret subtypeRasters
                     end)
                  ws1).
  { unfold Cohqt.subtypeStep. unfold bind at 1.
    rewrite (selected_run _ _ _ _ _ ws Hsel).
    unfold bind at 1 2 3. unfold Raster at 1. rewrite Hf.
    unfold save at 1. reflexivity. }
  assert (Hstat :
            Cohqt.CalculateStatistics_management statistics_fail
              "temp_masked_raster" ws1
            = (if statistics_fail masked
               then Raise ExecuteError else Return tt, ws1)).
  { unfold Cohqt.CalculateStatistics_management, bind, Raster, ws1.
    cbn [rasters]. rewrite assoc_put_same.
    now destruct (statistics_fail masked). }
  split; [|split; [|split]].
  - intros c. unfold masked, Con, EqualTo, local2, const, NoData.
    destruct (mask c) as [m|]; [|reflexivity].
    destruct (Reqb m 0); simpl.
    + rewrite Reqb_false by lra. reflexivity.
    + now rewrite Reqb_true.
  - intros Hfail. rewrite Hstart.
    unfold bind at 1. unfold try_except_ExecuteError.
    unfold bind at 1. rewrite Hstat, Hfail. reflexivity.
  - intros Hfail HD. rewrite Hstart.
    unfold bind at 1. unfold try_except_ExecuteError.
    unfold bind at 1. rewrite Hstat, Hfail.
    unfold Cohqt.calcSubtypeDisturbance, Cohqt.dict_get.
    rewrite HD. reflexivity.
  - intros Hfail d w HD HW Hd. rewrite Hstart.
    unfold bind at 1. unfold try_except_ExecuteError.
    unfold bind at 1. rewrite Hstat, Hfail.
    rewrite (calcSubtypeDisturbance_decay_run extent cellSize distanceDict
               weightDict "temp_masked_raster" subtype term ws1 masked d w
               HD HW);
      [|unfold ws1; cbn [rasters]; apply assoc_put_same | exact Hd].
    eexists. reflexivity.
Qed.

Lemma subtypeStep_masked_witness :
  Cohqt.subtypeStep Samples.strip (fun _ => true) Samples.che0 "Pre" [] "Pre"
    1 Samples.road_distance Samples.road_weight (Some (const 1)) "Roads" []
    Samples.road_ws
  = (Return [],
     mkWorkspace
       (put "temp_masked_raster"%string
            (Con (const 1 == const 0)%ras Samples.road NoData)
            (rasters Samples.road_ws))
       (tables Samples.road_ws) (feature_classes Samples.road_ws)
       (messages Samples.road_ws)).
Proof.
  apply (subtypeStep_masked Samples.strip (fun _ => true) Samples.che0 "Pre"
           [] "Pre" 1 Samples.road_distance Samples.road_weight (const 1)
           "Roads" "AnthroData.gdb/Roads" [] Samples.road_ws Samples.road).
  - reflexivity.
  - reflexivity.
  - reflexivity.
Defined.

(** ** The disturbance score of a whole run *)

Lemma calcSubtypeDisturbance_returns_range (extent : list cell) (cs : R)
  (distanceDict weightDict : Cohqt.dict) (AnthroFeatures subtype T : string)
  (ws ws' : workspace) (r : raster) :
  Spec.decay_weights distanceDict weightDict ->
  Cohqt.calcSubtypeDisturbance extent cs distanceDict weightDict
    AnthroFeatures subtype T ws = (Return (Some r), ws') ->
  forall c : cell, Spec.within 0 100 r c.
Proof.
  intros Hdw.
  unfold Cohqt.calcSubtypeDisturbance, Cohqt.dict_get. unfold bind at 1.
  destruct (assoc subtype distanceDict) as [d|] eqn:HD; [|discriminate].
  unfold ret at 1. unfold bind at 1.
  destruct (assoc subtype weightDict) as [w|] eqn:HW; [|discriminate].
  unfold ret at 1. unfold bind at 1. unfold Raster at 1.
  destruct (assoc AnthroFeatures (rasters ws)) as [f|]; [|discriminate].
  destruct (Hdw subtype d w HD HW) as [Hpos Hneg].
  destruct (Rlt_dec 0 d) as [Hd | Hd].
  - rewrite Rltb_true by exact Hd. unfold bind, AddMessage, save, ret.
    intros [= <- _]. intros c.
    change (Spec.within 0 100 (Spec.decaySurface extent cs f d w) c).
    unfold Spec.within. rewrite decaySurface_cell by exact Hd.
    destruct (Hpos Hd) as [Hw0 Hw100].
    destruct (EucDistance extent f d cs c) as [x|].
    + eexists. split; [reflexivity|].
      pose proof (decay_value_ge d w x Hw0).
      pose proof (decay_value_le_100 d w x Hw0). lra.
    + exists 100. split; [reflexivity | lra].
  - rewrite Rltb_false by lra. rewrite Rltb_false by (apply Hneg; lra).
    unfold ret. discriminate.
Qed.

Section ScoreLoops.

Variable extent : list cell.
Variable statistics_fail : raster -> bool.
Variable che : Cohqt.cheStandard.
Variables term anthro_disturbance_type : string.
Variable unique_proposed_subtypes : list string.
Variable cellSize : R.
Variables distanceDict weightDict : Cohqt.dict.
Variable mask : option raster.

Hypothesis Hdw : Spec.decay_weights distanceDict weightDict.

Let P (r : raster) : Prop := forall c : cell, Spec.within 0 100 r c.

Let Q (r : raster) : Prop := forall c : cell, Spec.within 0 1 r c.

Lemma subtypeStep_range (subtype : string) (acc acc' : list raster)
  (ws ws' : workspace) :
  Cohqt.subtypeStep extent statistics_fail che term unique_proposed_subtypes
    anthro_disturbance_type cellSize distanceDict weightDict mask subtype
    acc ws = (Return acc', ws') ->
  Forall P acc -> Forall P acc'.
Proof.
  unfold Cohqt.subtypeStep. unfold bind at 1.
  destruct (Cohqt.selectAnthroFeatures che unique_proposed_subtypes
              anthro_disturbance_type subtype ws) as [[[name|]|e] w1];
    [|unfold ret; now intros [= <- _]|discriminate].
  unfold bind at 1.
  assert (Hend :
            forall (o : option raster) (w : workspace),
              (forall r : raster, o = Some r -> P r) ->
              match o with
              | Some subtypeRaster => ret (acc ++ [subtypeRaster])
              | None => ret acc
              end w = (Return acc', ws') ->
              Forall P acc -> Forall P acc').
  { intros [r|] w Hr; unfold ret; intros [= <- _] Hacc; [|exact Hacc].
    apply Forall_app. split; [exact Hacc|].
    constructor; [now apply Hr | constructor]. }
  destruct mask as [m|].
  - unfold bind at 1. unfold Raster at 1.
    destruct (assoc name (rasters w1)) as [f|]; [|discriminate].
    unfold bind at 1. unfold save at 1.
    unfold try_except_ExecuteError. unfold bind at 1.
    match goal with
    | |- context [Cohqt.CalculateStatistics_management _ _ ?w] =>
        destruct (Cohqt.CalculateStatistics_management statistics_fail
                    "temp_masked_raster" w) as [[[]|e] w2]
    end.
    + match goal with
      | |- context [Cohqt.calcSubtypeDisturbance ?x1 ?x2 ?x3 ?x4 ?x5 ?x6
                      ?x7 ?w] =>
          destruct (Cohqt.calcSubtypeDisturbance x1 x2 x3 x4 x5 x6 x7 w)
            as [[o|e] w3] eqn:E
      end.
      * apply Hend. intros r ->.
        exact (calcSubtypeDisturbance_returns_range _ _ _ _ _ _ _ _ _ _ Hdw E).
      * destruct e; try discriminate.
        unfold ret at 1. apply (Hend None). discriminate.
    + destruct e; try discriminate.
      unfold ret at 1. apply (Hend None). discriminate.
  - match goal with
    | |- context [Cohqt.calcSubtypeDisturbance ?x1 ?x2 ?x3 ?x4 ?x5 ?x6
                    ?x7 ?w] =>
        destruct (Cohqt.calcSubtypeDisturbance x1 x2 x3 x4 x5 x6 x7 w)
          as [[o|e] w3] eqn:E
    end; [|discriminate].
    apply Hend. intros r ->.
    exact (calcSubtypeDisturbance_returns_range _ _ _ _ _ _ _ _ _ _ Hdw E).
Qed.

Lemma subtype_loop_range (subs : list string) (acc acc' : list raster)
  (ws ws' : workspace) :
  for_each
    (Cohqt.subtypeStep extent statistics_fail che term
       unique_proposed_subtypes anthro_disturbance_type cellSize
       distanceDict weightDict mask)
    subs acc ws = (Return acc', ws') ->
  Forall P acc -> Forall P acc'.
Proof.
  revert acc ws. induction subs as [|s subs IH]; intros acc ws Hrun Hacc.
  - simpl in Hrun. unfold ret in Hrun. now inversion Hrun; subst.
  - simpl in Hrun. unfold bind in Hrun.
    destruct (Cohqt.subtypeStep extent statistics_fail che term
                unique_proposed_subtypes anthro_disturbance_type cellSize
                distanceDict weightDict mask s acc ws)
      as [[acc1|e] ws1] eqn:Estep; [|discriminate].
    apply (IH acc1 ws1 Hrun).
    now apply (subtypeStep_range s acc acc1 ws ws1 Estep).
Qed.

Lemma typeStep_range (typeList subtypeList : list string)
  (anthroType : string) (rasterList rasterList' : list raster)
  (ws ws' : workspace) :
  Cohqt.typeStep extent statistics_fail che term unique_proposed_subtypes
    anthro_disturbance_type cellSize distanceDict weightDict mask
    typeList subtypeList anthroType rasterList ws
  = (Return rasterList', ws') ->
  Forall Q rasterList -> Forall Q rasterList'.
Proof.
  unfold Cohqt.typeStep. unfold bind at 1. unfold AddMessage at 1.
  unfold bind at 1.
  match goal with
  | |- context [Cohqt.getUniqueSubtypes ?t ?tl ?sl ?w] =>
      destruct (Cohqt.getUniqueSubtypes t tl sl w) as [[subs|e] w1]
  end; [|discriminate].
  unfold bind at 1.
  match goal with
  | |- context [for_each ?body subs [] w1] =>
      destruct (for_each body subs [] w1) as [[acc|e] w2] eqn:Eloop
  end; [|discriminate].
  pose proof (subtype_loop_range subs [] acc w1 w2 Eloop (Forall_nil _))
    as Hacc.
  destruct acc as [|r acc].
  - simpl. unfold ret. intros [= <- _] H. exact H.
  - change (0 <? List.length (r :: acc))%nat with true. cbv iota.
    unfold bind. rewrite calcTypeDisturbance_run. unfold ret.
    intros [= <- _] H. apply Forall_app. split; [exact H|].
    constructor; [|constructor]. intros c.
    destruct (type_surface_cell (r :: acc) c) as (q & Hq & Hb & _).
    + discriminate.
    + intros s Hs. rewrite Forall_forall in Hacc. now apply Hacc.
    + exists q. now split.
Qed.

Lemma type_loop_range (typeList subtypeList types : list string)
  (rasterList rasterList' : list raster) (ws ws' : workspace) :
  for_each
    (Cohqt.typeStep extent statistics_fail che term unique_proposed_subtypes
       anthro_disturbance_type cellSize distanceDict weightDict mask
       typeList subtypeList)
    types rasterList ws
  = (Return rasterList', ws') ->
  Forall Q rasterList -> Forall Q rasterList'.
Proof.
  revert rasterList ws.
  induction types as [|t types IH]; intros acc ws Hrun Hacc.
  - simpl in Hrun. unfold ret in Hrun. now inversion Hrun; subst.
  - simpl in Hrun. unfold bind in Hrun.
    destruct (Cohqt.typeStep extent statistics_fail che term
                unique_proposed_subtypes anthro_disturbance_type cellSize
                distanceDict weightDict mask typeList subtypeList t acc ws)
      as [[acc1|e] ws1] eqn:Estep; [|discriminate].
    apply (IH acc1 ws1 Hrun).
    now apply (typeStep_range typeList subtypeList t acc acc1 ws ws1 Estep).
Qed.

End ScoreLoops.

Lemma typeRasters_range (extent : list cell)
  (statistics_fail : raster -> bool)
  (Parameter_Values : list Cohqt.ParameterRow) (term : string)
  (unique_proposed_subtypes : list string) (anthro_disturbance_type : string)
  (che : Cohqt.cheStandard) (dist_field weight_field : string)
  (cellSize : R) (mask : option raster) (ws ws' : workspace)
  (rasterList : list raster) :
  Spec.decay_weights (Spec.field_dict Parameter_Values dist_field)
                     (Spec.field_dict Parameter_Values weight_field) ->
  Cohqt.typeRasters extent statistics_fail Parameter_Values term
    unique_proposed_subtypes anthro_disturbance_type che dist_field
    weight_field cellSize mask ws = (Return rasterList, ws') ->
  Forall (fun r => forall c : cell, Spec.within 0 1 r c) rasterList.
Proof.
  intros Hdw. unfold Cohqt.typeRasters. cbv zeta. unfold bind at 1.
  rewrite SearchCursor_field_outcome.
  destruct (forallb _ Parameter_Values); [|discriminate].
  unfold bind at 1. rewrite SearchCursor_field_outcome.
  destruct (forallb _ Parameter_Values); [|discriminate].
  intros Hrun.
  eapply type_loop_range; [exact Hdw | exact Hrun | constructor].
Qed.

(** The disturbance score of a whole run is a score. When every subtype
    acts through the decay curve with a Weight from 0 to 100 (or has no
    effect), the surface [CalcAnthroDisturbance] returns for ["Pre"] or
    ["Post"], masked or not, holds a value from 0 to 1 at every cell where
    the agriculture index and the lakes layer do, and no Type surface of
    the run is below it there. *)
Theorem CalcAnthroDisturbance_score (extent : list cell)
  (statistics_fail : raster -> bool)
  (Parameter_Values : list Cohqt.ParameterRow) (term : string)
  (unique_proposed_subtypes : list string) (anthro_disturbance_type : string)
  (che : Cohqt.cheStandard) (dist_field weight_field : string)
  (cellSize : R) (emptyRaster : raster) (mask : option raster)
  (ws ws1 : workspace) (rasterList : list raster) (ag lakes : raster) :
  anthro_disturbance_type = "Pre"%string
  \/ anthro_disturbance_type = "Post"%string ->
  Spec.decay_weights (Spec.field_dict Parameter_Values dist_field)
                     (Spec.field_dict Parameter_Values weight_field) ->
  Cohqt.typeRasters extent statistics_fail Parameter_Values term
    unique_proposed_subtypes anthro_disturbance_type che dist_field
    weight_field cellSize mask ws = (Return rasterList, ws1) ->
  assoc (Cohqt.os_path_join (Cohqt.InputDataPath che) "GrSG_Ag_Index")
        (rasters ws1) = Some ag ->
  assoc (Cohqt.os_path_join (Cohqt.InputDataPath che) "Lakes")
        (rasters ws1) = Some lakes ->
  exists anthroRaster : raster,
    Cohqt.CalcAnthroDisturbance extent statistics_fail Parameter_Values term
      unique_proposed_subtypes anthro_disturbance_type che dist_field
      weight_field cellSize emptyRaster mask ws
    = (Return anthroRaster, ws1)
    /\ forall c : cell,
         Spec.scores [ag; lakes] c ->
         Spec.score_below anthroRaster (rasterList ++ [lakes]) c.
Proof.
  intros HT Hdw Hrun Hag Hlakes.
  exists (np_prod (Cohqt.rasterList2 dist_field rasterList ag lakes)).
  split.
  - rewrite (CalcAnthroDisturbance_after_loops _ _ _ _ _ _ _ _ _ _
               emptyRaster _ _ _ _ Hrun).
    eapply multiplyRasters_run; eassumption.
  - intros c Hbg. apply rasterList2_score.
    apply Forall_app. split; [|exact Hbg].
    pose proof (typeRasters_range _ _ _ _ _ _ _ _ _ _ _ _ _ _ Hdw Hrun)
      as Hall.
    eapply Forall_impl; [|exact Hall]. intros r Hr. apply Hr.
Qed.

Lemma parameter_table_decay_weights :
  Spec.decay_weights
    (Spec.field_dict Samples.parameter_table "GrSG_Dist")
    (Spec.field_dict Samples.parameter_table "GrSG_Weight").
Proof.
  intros subtype d w. simpl.
  destruct (subtype =? "Fence")%string.
  - intros [= <-] [= <-]. split; lra.
  - destruct (subtype =? "Roads")%string; [|discriminate].
    intros [= <-] [= <-]. split; lra.
Qed.

Lemma CalcAnthroDisturbance_score_witness :
  exists anthroRaster : raster,
    Cohqt.CalcAnthroDisturbance Samples.strip (fun _ => false)
      Samples.parameter_table "Pre" [] "Pre" Samples.che0 "GrSG_Dist"
      "GrSG_Weight" 1 (const 0) None Samples.road_ws
    = (Return anthroRaster, Samples.road_ws_after)
    /\ Spec.score_below anthroRaster
         ([Samples.road_type_surface] ++ [Samples.lakes]) (0, 0)%Z.
Proof.
  destruct (CalcAnthroDisturbance_score Samples.strip (fun _ => false)
              Samples.parameter_table "Pre" [] "Pre" Samples.che0
              "GrSG_Dist" "GrSG_Weight" 1 (const 0) None Samples.road_ws
              Samples.road_ws_after [Samples.road_type_surface]
              Samples.ag_index Samples.lakes)
    as (r & Hrun & Hr).
  - now left.
  - exact parameter_table_decay_weights.
  - apply parameter_table_run. right. now split.
  - reflexivity.
  - reflexivity.
  - exists r. split; [exact Hrun|]. apply Hr.
    repeat constructor.
    + exists (1 / 2). split; [reflexivity | lra].
    + exists 1. split; [reflexivity | lra].
Defined.

(** ** The mule-deer combination *)

(** The combined mule-deer surface is a score that is never above the
    surface of the pinyon-juniper pass: where the open-habitat layer holds
    a value and both passes hold scores, the combination holds a score not
    above the pinyon-juniper score; in open habitat (layer value 1) it is
    not above the open-habitat score either, and outside open habitat it is
    the pinyon-juniper score itself. *)
Theorem combine_pj_open_score (BWMD_Open anthro_pj anthro_open : raster)
  (c : cell) (m : R) :
  BWMD_Open c = Some m ->
  Spec.scores [anthro_pj; anthro_open] c ->
  Spec.score_below (Tools.combine_pj_open BWMD_Open anthro_pj anthro_open)
                   [anthro_pj] c
  /\ (m = 1 ->
      Spec.score_below
        (Tools.combine_pj_open BWMD_Open anthro_pj anthro_open)
        [anthro_pj; anthro_open] c)
  /\ (m <> 1 ->
      Tools.combine_pj_open BWMD_Open anthro_pj anthro_open c
      = anthro_pj c).
Proof.
  intros HB Hs.
  inversion Hs as [|? ? (p & Hp & Hpb) Hs']; subst.
  inversion Hs' as [|? ? (o & Ho & Hob) _]; subst.
  assert (Hcell :
            Tools.combine_pj_open BWMD_Open anthro_pj anthro_open c
            = if Reqb m 1
              then Some (if Rltb o p then o else p)
              else Some p).
  { unfold Tools.combine_pj_open, Con, LessThan, local2.
    rewrite anthro_open_only_cell, HB, Hp.
    destruct (Reqb m 1).
    - rewrite Ho. unfold Rltb. destruct (Rlt_dec o p); simpl.
      + rewrite Reqb_false by lra. reflexivity.
      + rewrite Reqb_true by reflexivity. reflexivity.
    - unfold const. unfold Rltb. destruct (Rlt_dec 1 p); simpl.
      + lra.
      + rewrite Reqb_true by reflexivity. reflexivity. }
  unfold Spec.score_below. rewrite Hcell. split; [|split].
  - destruct (Reqb m 1).
    + unfold Rltb. destruct (Rlt_dec o p).
      * exists o. split; [reflexivity|]. split; [lra|].
        constructor; [|constructor]. exists p. split; [exact Hp | lra].
      * exists p. split; [reflexivity|]. split; [lra|].
        constructor; [|constructor]. exists p. split; [exact Hp | lra].
    + exists p. split; [reflexivity|]. split; [lra|].
      constructor; [|constructor]. exists p. split; [exact Hp | lra].
  - intros ->. rewrite Reqb_true by reflexivity.
    unfold Rltb. destruct (Rlt_dec o p).
    + exists o. split; [reflexivity|]. split; [lra|].
      constructor; [|constructor; [|constructor]].
      * exists p. split; [exact Hp | lra].
      * exists o. split; [exact Ho | lra].
    + exists p. split; [reflexivity|]. split; [lra|].
      constructor; [|constructor; [|constructor]].
      * exists p. split; [exact Hp | lra].
      * exists o. split; [exact Ho | lra].
  - intros Hm. rewrite Reqb_false by exact Hm. now rewrite Hp.
Qed.

Lemma combine_pj_open_score_witness :
  Spec.score_below
    (Tools.combine_pj_open Samples.lek (const (3 / 4)) Samples.ag_index)
    [const (3 / 4)] (0, 0)%Z
  /\ Spec.score_below
       (Tools.combine_pj_open Samples.lek (const (3 / 4)) Samples.ag_index)
       [const (3 / 4); Samples.ag_index] (0, 0)%Z.
Proof.
  destruct (combine_pj_open_score Samples.lek (const (3 / 4))
              Samples.ag_index (0, 0)%Z 1) as (H1 & H2 & _).
  - reflexivity.
  - repeat constructor.
    + exists (3 / 4). split; [reflexivity | lra].
    + exists (1 / 2). split; [reflexivity | lra].
  - split; [exact H1 | now apply H2].
Defined.
